(** * GConvGRU: the Chebyshev graph-convolutional gated recurrent unit cell

    A shallow embedding of
    [torch_geometric_temporal/nn/conv/gconv_gru.py].

    Modelling conventions.
    - A tensor is a two-dimensional array with an explicit shape and a
      row-major storage, as the tensor library keeps it.
    - Entries come in two models.  What is computed from what, the shapes,
      the exceptions and the construction are stated over tensors of real
      numbers with the exact [+], [*], sigmoid and tanh.  What depends on
      the arithmetic (a zero state, the ranges of the gates, the magnitude
      of the hidden state, repeated calls) is stated over tensors of
      binary32 values with rounding, overflow and NaN, in [Machine], where
      the operators may moreover have state of their own.
    - [+] and [*] on tensors follow the library's broadcasting rule (a
      dimension of size 1 is stretched, any other disagreement raises).
    - A raised exception is a value [Err e] of the [result] type; methods
      run in a small state-and-error monad over the module object [self].
    - The six convolution operators are callables held by the cell; the
      cell never looks inside them.  What the operator library promises
      about them is stated as contracts ([conv_shape_contract],
      [conv_bias_contract]) and holds for the order-one filter [cheb1]. *)

From Stdlib Require Import Reals Lra Lia List Arith PeanoNat Bool.
From Stdlib Require Import ZArith Zfloor.
From Stdlib Require String.
Import ListNotations.
Import String.StringSyntax.
Delimit Scope string_scope with string.

Open Scope R_scope.

(** ** Scalar activations *)

(** Logistic sigmoid, [torch.sigmoid] on one entry. *)
Definition sigmoid (x : R) : R := 1 / (1 + exp (- x)).

(** Hyperbolic tangent, [torch.tanh] on one entry. *)
Definition tanh (x : R) : R := Rtrigo_def.tanh x.

(** ** Exceptions and results *)

Inductive exn : Type :=
| ShapeMismatch      (* operands cannot be broadcast together *)
| IndexOutOfRange    (* an edge names a node the feature matrix lacks *)
| OperatorFailure.   (* any other failure inside a convolution operator *)

Inductive result (A : Type) : Type :=
| Ok (a : A)
| Err (e : exn).

Arguments Ok {A} a.
Arguments Err {A} e.

(** ** Two-dimensional tensors *)

Record Tensor : Type := mkTensor {
  rows : nat;
  cols : nat;
  data : list R          (* row-major storage *)
}.

Definition shape (t : Tensor) : nat * nat := (rows t, cols t).

Definition well_formed (t : Tensor) : Prop :=
  length (data t) = (rows t * cols t)%nat.

(** [t[i, j]] *)
Definition get (t : Tensor) (i j : nat) : R :=
  nth (i * cols t + j) (data t) 0.

Definition tabulate (r c : nat) (g : nat -> nat -> R) : Tensor :=
  mkTensor r c (flat_map (fun i => map (g i) (seq 0 c)) (seq 0 r)).

(** [torch.zeros(r, c)] *)
Definition zeros (r c : nat) : Tensor := mkTensor r c (repeat 0 (r * c)).

Definition all_zero (t : Tensor) : Prop := t = zeros (rows t) (cols t).

(** A unary elementwise function keeps the shape. *)
Definition tmap (f : R -> R) (t : Tensor) : Tensor :=
  mkTensor (rows t) (cols t) (map f (data t)).

Definition tsigmoid : Tensor -> Tensor := tmap sigmoid.
Definition ttanh : Tensor -> Tensor := tmap tanh.

(** Broadcasting of one dimension: equal sizes agree, a size of 1 is
    stretched to the other, anything else is refused. *)
Definition broadcast_dim (a b : nat) : option nat :=
  if (a =? b)%nat then Some a
  else if (a =? 1)%nat then Some b
  else if (b =? 1)%nat then Some a
  else None.

(** The index read from an operand whose dimension has size [n]. *)
Definition bidx (n i : nat) : nat := if (n =? 1)%nat then 0%nat else i.

(** A binary elementwise operation with broadcasting. *)
Definition tzip (f : R -> R -> R) (A B : Tensor) : result Tensor :=
  match broadcast_dim (rows A) (rows B), broadcast_dim (cols A) (cols B) with
  | Some r, Some c =>
      Ok (tabulate r c (fun i j =>
            f (get A (bidx (rows A) i) (bidx (cols A) j))
              (get B (bidx (rows B) i) (bidx (cols B) j))))
  | _, _ => Err ShapeMismatch
  end.

(** [A + B] and [A * B] on tensors. *)
Definition tadd : Tensor -> Tensor -> result Tensor := tzip Rplus.
Definition tmul : Tensor -> Tensor -> result Tensor := tzip Rmult.

(** ** Graph topology and convolution operators *)

(** [edge_index]: the list of (source, target) pairs. *)
Definition EdgeIndex : Type := list (nat * nat).

(** [edge_weight]: one scalar per edge. *)
Definition EdgeWeight : Type := list R.

Definition valid_topology (n : nat) (edge_index : EdgeIndex)
    (edge_weight : option EdgeWeight) : Prop :=
  Forall (fun e => (fst e < n)%nat /\ (snd e < n)%nat) edge_index /\
  match edge_weight with
  | None => True
  | Some w => length w = length edge_index
  end.

(** A graph-convolution operator as the cell sees it: a callable
    [operator(features, edge_index, edge_weight)] that returns a tensor or
    raises. *)
Definition GraphConv : Type :=
  Tensor -> EdgeIndex -> option EdgeWeight -> result Tensor.

(** What the operator library promises for an operator constructed with
    input width [c_in] and output width [c_out]: on features of that width
    over a valid topology it returns a well-formed tensor with one row per
    node and [c_out] columns. *)
Definition conv_shape_contract (f : GraphConv) (c_in c_out : nat) : Prop :=
  forall X edge_index edge_weight,
    cols X = c_in ->
    valid_topology (rows X) edge_index edge_weight ->
    exists Y, f X edge_index edge_weight = Ok Y /\
              rows Y = rows X /\ cols Y = c_out /\ well_formed Y.

(** The bias vector laid out under every one of [r] rows. *)
Definition bias_rows (r : nat) (b : list R) : Tensor :=
  tabulate r (length b) (fun _ j => nth j b 0).

(** What the operator library promises about the bias [b] of an operator:
    the filter is linear in the features, so all-zero features yield the
    bias in every row. *)
Definition conv_bias_contract (f : GraphConv) (c_in : nat) (b : list R)
  : Prop :=
  forall r edge_index edge_weight,
    valid_topology r edge_index edge_weight ->
    f (zeros r c_in) edge_index edge_weight = Ok (bias_rows r b).

(** ** The method monad: state of [self] and exceptions *)

Definition M (S A : Type) : Type := S -> result A * S.

Definition ret {S A : Type} (a : A) : M S A := fun s => (Ok a, s).

Definition bind {S A B : Type} (m : M S A) (k : A -> M S B) : M S B :=
  fun s =>
    match m s with
    | (Ok a, s') => k a s'
    | (Err e, s') => (Err e, s')
    end.

(** Reading an attribute of [self]. *)
Definition attr {S A : Type} (field : S -> A) : M S A :=
  fun s => (Ok (field s), s).

(** Running a computation that may raise. *)
Definition lift {S A : Type} (r : result A) : M S A := fun s => (r, s).

Declare Scope method_scope.
Delimit Scope method_scope with method.
Notation "x <- m ;; k" := (bind m (fun x => k))
  (at level 61, m at next level, right associativity) : method_scope.
Open Scope method_scope.

(** The value a method call returns (or the exception it raises). *)
Definition run {S A : Type} (m : M S A) (s : S) : result A := fst (m s).

(** The object after the call. *)
Definition after {S A : Type} (m : M S A) (s : S) : S := snd (m s).

(** ** The cell *)

(** The module object after [__init__]: the four configured integers and
    the six convolution operators it created. *)
Record GConvGRU : Type := mkGConvGRU {
  in_channels : nat;
  out_channels : nat;
  K : nat;
  number_of_nodes : nat;
  conv_x_z : GraphConv;
  conv_h_z : GraphConv;
  conv_x_r : GraphConv;
  conv_h_r : GraphConv;
  conv_x_h : GraphConv;
  conv_h_h : GraphConv
}.

(** [__init__]: the operator class is called six times, with
    [in_channels] inputs for the operators fed with the features and
    [out_channels] inputs for those fed with the hidden state.  The class
    is a parameter: [ChebConv c_in c_out K p] is the operator constructed
    with these widths and filter size whose learnable parameters are [p]. *)
Definition __init__ {Params : Type}
    (ChebConv : nat -> nat -> nat -> Params -> GraphConv)
    (in_channels out_channels K number_of_nodes : nat)
    (p_xz p_hz p_xr p_hr p_xh p_hh : Params) : GConvGRU :=
  mkGConvGRU in_channels out_channels K number_of_nodes
    (ChebConv in_channels out_channels K p_xz)
    (ChebConv out_channels out_channels K p_hz)
    (ChebConv in_channels out_channels K p_xr)
    (ChebConv out_channels out_channels K p_hr)
    (ChebConv in_channels out_channels K p_xh)
    (ChebConv out_channels out_channels K p_hh).

(** A method of the cell. *)
Definition Method (A : Type) : Type := M GConvGRU A.

(** [self.op(features, edge_index, edge_weight)] *)
Definition call_conv (op : GConvGRU -> GraphConv) (features : Tensor)
    (edge_index : EdgeIndex) (edge_weight : option EdgeWeight)
  : Method Tensor :=
  f <- attr op ;;
  lift (f features edge_index edge_weight).

Definition _set_hidden_state (X : Tensor) (H : option Tensor)
  : Method Tensor :=
  match H with
  | None =>
      n <- attr number_of_nodes ;;
      c <- attr out_channels ;;
      ret (zeros n c)
  | Some H => ret H
  end.

Definition _calculate_update_gate (X : Tensor) (edge_index : EdgeIndex)
    (edge_weight : option EdgeWeight) (H : Tensor) : Method Tensor :=
  Z <- call_conv conv_x_z X edge_index edge_weight ;;
  Z' <- call_conv conv_h_z H edge_index edge_weight ;;
  Z <- lift (tadd Z Z') ;;
  ret (tsigmoid Z).

Definition _calculate_reset_gate (X : Tensor) (edge_index : EdgeIndex)
    (edge_weight : option EdgeWeight) (H : Tensor) : Method Tensor :=
  R <- call_conv conv_x_r X edge_index edge_weight ;;
  R' <- call_conv conv_h_r H edge_index edge_weight ;;
  R <- lift (tadd R R') ;;
  ret (tsigmoid R).

Definition _calculate_candidate_state (X : Tensor) (edge_index : EdgeIndex)
    (edge_weight : option EdgeWeight) (H R : Tensor) : Method Tensor :=
  H_t <- call_conv conv_x_h X edge_index edge_weight ;;
  f <- attr conv_h_h ;;
  HR <- lift (tmul H R) ;;
  H_t' <- lift (f HR edge_index edge_weight) ;;
  H_t <- lift (tadd H_t H_t') ;;
  ret (ttanh H_t).

Definition _calculate_hidden_state (O C : Tensor) : Method Tensor :=
  H <- lift (tmul O (ttanh C)) ;;
  ret H.

Definition forward (X : Tensor) (edge_index : EdgeIndex)
    (edge_weight : option EdgeWeight) (H : option Tensor) : Method Tensor :=
  H <- _set_hidden_state X H ;;
  Z <- _calculate_update_gate X edge_index edge_weight H ;;
  R <- _calculate_reset_gate X edge_index edge_weight H ;;
  H_t <- _calculate_candidate_state X edge_index edge_weight H R ;;
  H <- _calculate_hidden_state H H_t ;;
  ret H.

(** The same call with the two gate lines exchanged: the reset gate is
    computed before the update gate. *)
Definition forward_reset_first (X : Tensor) (edge_index : EdgeIndex)
    (edge_weight : option EdgeWeight) (H : option Tensor) : Method Tensor :=
  H <- _set_hidden_state X H ;;
  R <- _calculate_reset_gate X edge_index edge_weight H ;;
  Z <- _calculate_update_gate X edge_index edge_weight H ;;
  H_t <- _calculate_candidate_state X edge_index edge_weight H R ;;
  H <- _calculate_hidden_state H H_t ;;
  ret H.

(** The two gates, computed in the order of [forward] and in the other
    order. *)
Definition gates_update_first (X : Tensor) (edge_index : EdgeIndex)
    (edge_weight : option EdgeWeight) (H : Tensor)
  : Method (Tensor * Tensor) :=
  Z <- _calculate_update_gate X edge_index edge_weight H ;;
  R <- _calculate_reset_gate X edge_index edge_weight H ;;
  ret (Z, R).

Definition gates_reset_first (X : Tensor) (edge_index : EdgeIndex)
    (edge_weight : option EdgeWeight) (H : Tensor)
  : Method (Tensor * Tensor) :=
  R <- _calculate_reset_gate X edge_index edge_weight H ;;
  Z <- _calculate_update_gate X edge_index edge_weight H ;;
  ret (Z, R).

(** The previous hidden state that [forward] works with. *)
Definition resolved_hidden_state (self : GConvGRU) (H : option Tensor)
  : Tensor :=
  match H with
  | None => zeros (number_of_nodes self) (out_channels self)
  | Some H => H
  end.

(** The cell with other operators for the update gate. *)
Definition with_update_operators (self : GConvGRU) (f_x f_h : GraphConv)
  : GConvGRU :=
  mkGConvGRU (in_channels self) (out_channels self) (K self)
    (number_of_nodes self) f_x f_h (conv_x_r self) (conv_h_r self)
    (conv_x_h self) (conv_h_h self).

(** The conventional gated-recurrent combination [Z*H + (1-Z)*H_t], at one
    entry. *)
Definition conventional_entry (z h h_t : R) : R := z * h + (1 - z) * h_t.

(** The cell is configured consistently with its operators, as [__init__]
    constructs them: the input-side operators take [in_channels] columns,
    the hidden-side operators [out_channels], and all yield
    [out_channels]. *)
Definition valid_cell (self : GConvGRU) : Prop :=
  conv_shape_contract (conv_x_z self) (in_channels self) (out_channels self) /\
  conv_shape_contract (conv_h_z self) (out_channels self) (out_channels self) /\
  conv_shape_contract (conv_x_r self) (in_channels self) (out_channels self) /\
  conv_shape_contract (conv_h_r self) (out_channels self) (out_channels self) /\
  conv_shape_contract (conv_x_h self) (in_channels self) (out_channels self) /\
  conv_shape_contract (conv_h_h self) (out_channels self) (out_channels self).

(** Inputs of the documented shapes for the cell. *)
Definition valid_input (self : GConvGRU) (X : Tensor)
    (edge_index : EdgeIndex) (edge_weight : option EdgeWeight)
    (H : option Tensor) : Prop :=
  rows X = number_of_nodes self /\
  cols X = in_channels self /\
  valid_topology (number_of_nodes self) edge_index edge_weight /\
  match H with
  | None => True
  | Some H => rows H = number_of_nodes self /\ cols H = out_channels self
  end.

(** ** A concrete operator: the Chebyshev filter of order one

    With [K = 1] only the polynomial of degree zero contributes and the
    filter is the dense layer [X @ W + bias] applied to every node; the
    edges are only checked against the node range. *)

Record Cheb1 : Type := mkCheb1 {
  weight : Tensor;       (* in_channels x out_channels *)
  bias : list R          (* out_channels *)
}.

Fixpoint dot (n : nat) (u v : nat -> R) : R :=
  match n with
  | O => 0
  | S k => dot k u v + u k * v k
  end.

(** [A @ B] *)
Definition matmul (A B : Tensor) : result Tensor :=
  if (cols A =? rows B)%nat
  then Ok (tabulate (rows A) (cols B)
             (fun i j => dot (cols A) (fun k => get A i k) (fun k => get B k j)))
  else Err ShapeMismatch.

Definition edges_in_range (n : nat) (edge_index : EdgeIndex) : bool :=
  forallb (fun e => (fst e <? n)%nat && (snd e <? n)%nat) edge_index.

Definition cheb1 (p : Cheb1) : GraphConv :=
  fun X edge_index edge_weight =>
    if edges_in_range (rows X) edge_index
    then match matmul X (weight p) with
         | Ok out => tadd out (mkTensor 1 (length (bias p)) (bias p))
         | Err e => Err e
         end
    else Err IndexOutOfRange.

(** A cell whose six operators are order-one filters. *)
Definition cheb1_cell (c_in c_out n : nat)
    (xz hz xr hr xh hh : Cheb1) : GConvGRU :=
  mkGConvGRU c_in c_out 1 n
    (cheb1 xz) (cheb1 hz) (cheb1 xr) (cheb1 hr) (cheb1 xh) (cheb1 hh).

(** The filter whose weights and bias all equal given constants. *)
Definition const_cheb1 (c_in c_out : nat) (w b : R) : Cheb1 :=
  mkCheb1 (mkTensor c_in c_out (repeat w (c_in * c_out))) (repeat b c_out).

(** The cell with other operators for the reset gate. *)
Definition with_reset_operators (self : GConvGRU) (f_x f_h : GraphConv)
  : GConvGRU :=
  mkGConvGRU (in_channels self) (out_channels self) (K self)
    (number_of_nodes self) (conv_x_z self) (conv_h_z self) f_x f_h
    (conv_x_h self) (conv_h_h self).

(** ** The update equations as the specification writes them *)

Definition and_then {A B : Type} (r : result A) (k : A -> result B)
  : result B :=
  match r with
  | Ok a => k a
  | Err e => Err e
  end.

(** Z = sigmoid(conv_x_z(X, topology) + conv_h_z(H, topology)) *)
Definition spec_update_gate (self : GConvGRU) (X : Tensor)
    (edge_index : EdgeIndex) (edge_weight : option EdgeWeight) (H : Tensor)
  : result Tensor :=
  and_then (conv_x_z self X edge_index edge_weight) (fun A =>
  and_then (conv_h_z self H edge_index edge_weight) (fun B =>
  and_then (tadd A B) (fun S => Ok (tsigmoid S)))).

(** R = sigmoid(conv_x_r(X, topology) + conv_h_r(H, topology)) *)
Definition spec_reset_gate (self : GConvGRU) (X : Tensor)
    (edge_index : EdgeIndex) (edge_weight : option EdgeWeight) (H : Tensor)
  : result Tensor :=
  and_then (conv_x_r self X edge_index edge_weight) (fun A =>
  and_then (conv_h_r self H edge_index edge_weight) (fun B =>
  and_then (tadd A B) (fun S => Ok (tsigmoid S)))).

(** H_t = tanh(conv_x_h(X, topology) + conv_h_h(H * R, topology)) *)
Definition spec_candidate_state (self : GConvGRU) (X : Tensor)
    (edge_index : EdgeIndex) (edge_weight : option EdgeWeight)
    (H R : Tensor) : result Tensor :=
  and_then (conv_x_h self X edge_index edge_weight) (fun A =>
  and_then (tmul H R) (fun HR =>
  and_then (conv_h_h self HR edge_index edge_weight) (fun B =>
  and_then (tadd A B) (fun S => Ok (ttanh S))))).

(** H_new = H * tanh(H_t), after the three gates. *)
Definition spec_forward (self : GConvGRU) (X : Tensor)
    (edge_index : EdgeIndex) (edge_weight : option EdgeWeight)
    (H : option Tensor) : result Tensor :=
  let H0 := resolved_hidden_state self H in
  and_then (spec_update_gate self X edge_index edge_weight H0) (fun _ =>
  and_then (spec_reset_gate self X edge_index edge_weight H0) (fun R =>
  and_then (spec_candidate_state self X edge_index edge_weight H0 R)
    (fun H_t => tmul H0 (ttanh H_t)))).

(** The gate that two bias vectors alone produce: in every row, the
    activation of their sum. *)
Definition bias_gate (act : R -> R) (n : nat) (b_x b_h : list R) : Tensor :=
  tabulate n (length b_x) (fun _ j => act (nth j b_x 0 + nth j b_h 0)).

(** ** A concrete scenario

    Four nodes, two input channels, three output channels, the complete
    graph without weights, all-one features; order-one filters with all
    weights one, and bias one on the input side of the candidate. *)

Definition ones (r c : nat) : Tensor := mkTensor r c (repeat 1 (r * c)).

Definition complete_graph_4 : EdgeIndex :=
  [(0, 1); (0, 2); (0, 3); (1, 0); (1, 2); (1, 3);
   (2, 0); (2, 1); (2, 3); (3, 0); (3, 1); (3, 2)]%nat.

Definition example_cell : GConvGRU :=
  cheb1_cell 2 3 4
    (const_cheb1 2 3 1 0) (const_cheb1 3 3 1 0)
    (const_cheb1 2 3 1 0) (const_cheb1 3 3 1 0)
    (const_cheb1 2 3 1 1) (const_cheb1 3 3 1 0).

(** A computation that leaves the object as it found it, whatever it
    returns or raises. *)
Definition read_only {S A : Type} (m : M S A) : Prop :=
  forall s, after m s = s.

(** ** Edge cases of a call *)

(** An operator that raises whatever it is given. *)
Definition failing_conv (e : exn) : GraphConv := fun _ _ _ => Err e.

(** Two cells hold the same six operators. *)
Definition same_operators (a b : GConvGRU) : Prop :=
  conv_x_z a = conv_x_z b /\ conv_h_z a = conv_h_z b /\
  conv_x_r a = conv_x_r b /\ conv_h_r a = conv_h_r b /\
  conv_x_h a = conv_x_h b /\ conv_h_h a = conv_h_h b.

(** ** Construction, statement by statement

    The object under construction has each attribute either assigned or
    not yet; reading an attribute that is not assigned raises
    [AttributeError].  The operator class is a parameter: its constructor
    may raise, and the [k]-th constructor call of the program initialises
    its learnable parameters from the [k]-th draw. *)

Module Construction.

Inductive build_exn : Type :=
| AttributeError (name : String.string)
| ClassError (code : nat).

Inductive outcome (A : Type) : Type :=
| Done (a : A)
| Raise (e : build_exn).

Arguments Done {A} a.
Arguments Raise {A} e.

Record Object : Type := mkObject {
  attr_in_channels : option nat;
  attr_out_channels : option nat;
  attr_K : option nat;
  attr_number_of_nodes : option nat;
  attr_conv_x_z : option GraphConv;
  attr_conv_h_z : option GraphConv;
  attr_conv_x_r : option GraphConv;
  attr_conv_h_r : option GraphConv;
  attr_conv_x_h : option GraphConv;
  attr_conv_h_h : option GraphConv
}.

(** The object before any assignment. *)
Definition fresh_object : Object :=
  mkObject None None None None None None None None None None.

(** The object together with the number of operator constructions the
    program has made so far. *)
Record World : Type := mkWorld {
  self_object : Object;
  constructed : nat
}.

Definition Build (A : Type) : Type := World -> outcome A * World.

Definition bret {A : Type} (a : A) : Build A := fun w => (Done a, w).

Definition bbind {A B : Type} (m : Build A) (k : A -> Build B) : Build B :=
  fun w =>
    match m w with
    | (Done a, w') => k a w'
    | (Raise e, w') => (Raise e, w')
    end.

Declare Scope build_scope.
Delimit Scope build_scope with build.
Notation "x <- m ;; k" := (bbind m (fun x => k))
  (at level 61, m at next level, right associativity) : build_scope.
Notation "m ;; k" := (bbind m (fun _ => k))
  (at level 61, right associativity) : build_scope.

(** [self.name], read. *)
Definition getattr {A : Type} (name : String.string)
    (field : Object -> option A) : Build A :=
  fun w =>
    match field (self_object w) with
    | Some a => (Done a, w)
    | None => (Raise (AttributeError name), w)
    end.

(** [self.name = value] *)
Definition setattr (assign : Object -> Object) : Build unit :=
  fun w => (Done tt, mkWorld (assign (self_object w)) (constructed w)).

Definition set_in_channels (v : nat) (o : Object) : Object :=
  mkObject (Some v) (attr_out_channels o) (attr_K o)
    (attr_number_of_nodes o) (attr_conv_x_z o) (attr_conv_h_z o)
    (attr_conv_x_r o) (attr_conv_h_r o) (attr_conv_x_h o) (attr_conv_h_h o).

Definition set_out_channels (v : nat) (o : Object) : Object :=
  mkObject (attr_in_channels o) (Some v) (attr_K o)
    (attr_number_of_nodes o) (attr_conv_x_z o) (attr_conv_h_z o)
    (attr_conv_x_r o) (attr_conv_h_r o) (attr_conv_x_h o) (attr_conv_h_h o).

Definition set_K (v : nat) (o : Object) : Object :=
  mkObject (attr_in_channels o) (attr_out_channels o) (Some v)
    (attr_number_of_nodes o) (attr_conv_x_z o) (attr_conv_h_z o)
    (attr_conv_x_r o) (attr_conv_h_r o) (attr_conv_x_h o) (attr_conv_h_h o).

Definition set_number_of_nodes (v : nat) (o : Object) : Object :=
  mkObject (attr_in_channels o) (attr_out_channels o) (attr_K o)
    (Some v) (attr_conv_x_z o) (attr_conv_h_z o)
    (attr_conv_x_r o) (attr_conv_h_r o) (attr_conv_x_h o) (attr_conv_h_h o).

Definition set_conv_x_z (f : GraphConv) (o : Object) : Object :=
  mkObject (attr_in_channels o) (attr_out_channels o) (attr_K o)
    (attr_number_of_nodes o) (Some f) (attr_conv_h_z o)
    (attr_conv_x_r o) (attr_conv_h_r o) (attr_conv_x_h o) (attr_conv_h_h o).

Definition set_conv_h_z (f : GraphConv) (o : Object) : Object :=
  mkObject (attr_in_channels o) (attr_out_channels o) (attr_K o)
    (attr_number_of_nodes o) (attr_conv_x_z o) (Some f)
    (attr_conv_x_r o) (attr_conv_h_r o) (attr_conv_x_h o) (attr_conv_h_h o).

Definition set_conv_x_r (f : GraphConv) (o : Object) : Object :=
  mkObject (attr_in_channels o) (attr_out_channels o) (attr_K o)
    (attr_number_of_nodes o) (attr_conv_x_z o) (attr_conv_h_z o)
    (Some f) (attr_conv_h_r o) (attr_conv_x_h o) (attr_conv_h_h o).

Definition set_conv_h_r (f : GraphConv) (o : Object) : Object :=
  mkObject (attr_in_channels o) (attr_out_channels o) (attr_K o)
    (attr_number_of_nodes o) (attr_conv_x_z o) (attr_conv_h_z o)
    (attr_conv_x_r o) (Some f) (attr_conv_x_h o) (attr_conv_h_h o).

Definition set_conv_x_h (f : GraphConv) (o : Object) : Object :=
  mkObject (attr_in_channels o) (attr_out_channels o) (attr_K o)
    (attr_number_of_nodes o) (attr_conv_x_z o) (attr_conv_h_z o)
    (attr_conv_x_r o) (attr_conv_h_r o) (Some f) (attr_conv_h_h o).

Definition set_conv_h_h (f : GraphConv) (o : Object) : Object :=
  mkObject (attr_in_channels o) (attr_out_channels o) (attr_K o)
    (attr_number_of_nodes o) (attr_conv_x_z o) (attr_conv_h_z o)
    (attr_conv_x_r o) (attr_conv_h_r o) (attr_conv_x_h o) (Some f).

(** The constructed cell, once all ten attributes are assigned. *)
Definition complete (o : Object) : option GConvGRU :=
  match attr_in_channels o, attr_out_channels o, attr_K o,
        attr_number_of_nodes o with
  | Some c_in, Some c_out, Some k, Some n =>
      match attr_conv_x_z o, attr_conv_h_z o, attr_conv_x_r o,
            attr_conv_h_r o, attr_conv_x_h o, attr_conv_h_h o with
      | Some xz, Some hz, Some xr, Some hr, Some xh, Some hh =>
          Some (mkGConvGRU c_in c_out k n xz hz xr hr xh hh)
      | _, _, _, _, _, _ => None
      end
  | _, _, _, _ => None
  end.

Section OperatorClass.

Variable Params : Type.

(** [ChebConv(in_channels=a, out_channels=b, K=k)], on the parameters it
    draws. *)
Variable ChebConv : nat -> nat -> nat -> Params -> outcome GraphConv.

(** The parameters that the [k]-th constructor call draws. *)
Variable draw : nat -> Params.

Definition new_ChebConv (c_in c_out k : nat) : Build GraphConv :=
  fun w =>
    match ChebConv c_in c_out k (draw (constructed w)) with
    | Done f => (Done f, mkWorld (self_object w) (S (constructed w)))
    | Raise e => (Raise e, w)
    end.

(** What a creating method amounts to on an object that has the three
    integers [a], [b], [k]: two constructor calls, each followed by its
    assignment; the first failure ends it. *)
Definition two_constructions (a b k : nat) (o : Object) (c : nat)
    (assign_x assign_h : GraphConv -> Object -> Object)
  : outcome unit * World :=
  match ChebConv a b k (draw c) with
  | Raise e => (Raise e, mkWorld o c)
  | Done f =>
      match ChebConv b b k (draw (S c)) with
      | Raise e => (Raise e, mkWorld (assign_x f o) (S c))
      | Done g => (Done tt, mkWorld (assign_h g (assign_x f o)) (S (S c)))
      end
  end.

Definition _create_update_gate_parameters_and_layers : Build unit :=
  (c_in <- getattr "in_channels"%string attr_in_channels ;;
   c_out <- getattr "out_channels"%string attr_out_channels ;;
   k <- getattr "K"%string attr_K ;;
   f <- new_ChebConv c_in c_out k ;;
   setattr (set_conv_x_z f) ;;
   c_in' <- getattr "out_channels"%string attr_out_channels ;;
   c_out' <- getattr "out_channels"%string attr_out_channels ;;
   k' <- getattr "K"%string attr_K ;;
   g <- new_ChebConv c_in' c_out' k' ;;
   setattr (set_conv_h_z g))%build.

Definition _create_reset_gate_parameters_and_layers : Build unit :=
  (c_in <- getattr "in_channels"%string attr_in_channels ;;
   c_out <- getattr "out_channels"%string attr_out_channels ;;
   k <- getattr "K"%string attr_K ;;
   f <- new_ChebConv c_in c_out k ;;
   setattr (set_conv_x_r f) ;;
   c_in' <- getattr "out_channels"%string attr_out_channels ;;
   c_out' <- getattr "out_channels"%string attr_out_channels ;;
   k' <- getattr "K"%string attr_K ;;
   g <- new_ChebConv c_in' c_out' k' ;;
   setattr (set_conv_h_r g))%build.

Definition _create_candidate_state_parameters_and_layers : Build unit :=
  (c_in <- getattr "in_channels"%string attr_in_channels ;;
   c_out <- getattr "out_channels"%string attr_out_channels ;;
   k <- getattr "K"%string attr_K ;;
   f <- new_ChebConv c_in c_out k ;;
   setattr (set_conv_x_h f) ;;
   c_in' <- getattr "out_channels"%string attr_out_channels ;;
   c_out' <- getattr "out_channels"%string attr_out_channels ;;
   k' <- getattr "K"%string attr_K ;;
   g <- new_ChebConv c_in' c_out' k' ;;
   setattr (set_conv_h_h g))%build.

Definition _create_parameters_and_layers : Build unit :=
  (_create_update_gate_parameters_and_layers ;;
   _create_reset_gate_parameters_and_layers ;;
   _create_candidate_state_parameters_and_layers)%build.

Definition __init__ (in_channels out_channels K number_of_nodes : nat)
  : Build unit :=
  (setattr (set_in_channels in_channels) ;;
   setattr (set_out_channels out_channels) ;;
   setattr (set_K K) ;;
   setattr (set_number_of_nodes number_of_nodes) ;;
   _create_parameters_and_layers)%build.

End OperatorClass.

(** A method that reads the three configured integers before it does
    anything else: on an object that lacks one of them it raises
    [AttributeError] for the first one missing, in the order in_channels,
    out_channels, K, and leaves the object and the count of constructions
    as they were. *)
Definition raises_on_missing_configuration (m : Build unit) : Prop :=
  forall w,
    match attr_in_channels (self_object w),
          attr_out_channels (self_object w),
          attr_K (self_object w) with
    | None, _, _ => m w = (Raise (AttributeError "in_channels"%string), w)
    | Some _, None, _ =>
        m w = (Raise (AttributeError "out_channels"%string), w)
    | Some _, Some _, None => m w = (Raise (AttributeError "K"%string), w)
    | Some _, Some _, Some _ => True
    end.

End Construction.

(** The operator class of order-one filters: the parameters are the
    constant weight and the constant bias. *)
Definition cheb1_class (c_in c_out k : nat) (p : R * R) : GraphConv :=
  cheb1 (const_cheb1 c_in c_out (fst p) (snd p)).

(** The same class with a constructor that refuses a filter size of
    zero. *)
Definition checked_cheb1_class (c_in c_out k : nat) (p : R * R)
  : Construction.outcome GraphConv :=
  if (k =? 0)%nat
  then Construction.Raise (Construction.ClassError 0)
  else Construction.Done (cheb1_class c_in c_out k p).

(** * The cell in binary32 arithmetic

    The tensors of the library hold machine floats, by default binary32
    ([torch.float32]: the dtype of [torch.zeros] and of the parameters of
    the operators).  The definitions below model them: a finite value is
    the real number it denotes, every operation rounds the exact result to
    the nearest representable number, ties to even, overflows to an
    infinity, and propagates NaN.  The two zeros are one value [Fin 0] and
    the NaN payloads one value [NaN]. *)

(** ** Rounding to binary32 *)

Definition bpow (e : Z) : R := powerRZ 2 e.

(** The integer nearest to [x], the even one of the two at a tie. *)
Definition Znearest_even (x : R) : Z :=
  let f := Zfloor x in
  match total_order_T (x - IZR f) (1 / 2) with
  | inleft (left _) => f
  | inleft (right _) => if Z.even f then f else (f + 1)%Z
  | inright _ => (f + 1)%Z
  end.

(** The exponent [e] with [2^(e-1) <= |x| < 2^e]. *)
Definition mag (x : R) : Z := (Zfloor (ln (Rabs x) / ln 2) + 1)%Z.

(** The exponent of the last place: 24 significant bits, and no exponent
    below that of the subnormal numbers. *)
Definition cexp (x : R) : Z := Z.max (mag x - 24) (-149).

(** [x] rounded to the nearest number with 24 significant bits. *)
Definition rnd (x : R) : R :=
  IZR (Znearest_even (x * bpow (- cexp x))) * bpow (cexp x).

(** The finite binary32 numbers. *)
Definition representable (x : R) : Prop :=
  exists m e : Z,
    x = IZR m * bpow e /\ (Z.abs m < 2 ^ 24)%Z /\ (-149 <= e <= 104)%Z.

(** ** binary32 values and their operations *)

Inductive f32 : Type :=
| NaN
| Inf (negative : bool)
| Fin (x : R).

(** The result of an operation whose exact value is [x]. *)
Definition round (x : R) : f32 :=
  if Rlt_dec (Rabs (rnd x)) (bpow 128) then Fin (rnd x)
  else Inf (if Rlt_dec x 0 then true else false).

(** [+] on one entry. *)
Definition fadd (a b : f32) : f32 :=
  match a, b with
  | NaN, _ | _, NaN => NaN
  | Inf s, Inf s' => if Bool.eqb s s' then Inf s else NaN
  | Inf s, Fin _ => Inf s
  | Fin _, Inf s => Inf s
  | Fin x, Fin y => round (x + y)
  end.

(** [*] on one entry. *)
Definition fmul (a b : f32) : f32 :=
  match a, b with
  | NaN, _ | _, NaN => NaN
  | Inf s, Inf s' => Inf (xorb s s')
  | Inf s, Fin y =>
      if Req_dec_T y 0 then NaN
      else Inf (xorb s (if Rlt_dec y 0 then true else false))
  | Fin x, Inf s =>
      if Req_dec_T x 0 then NaN
      else Inf (xorb (if Rlt_dec x 0 then true else false) s)
  | Fin x, Fin y => round (x * y)
  end.

(** [torch.sigmoid] on one entry: the logistic function of a number,
    rounded; its limits at the infinities.  The library may miss the
    rounded value by a unit in the last place; what is proved below rests
    on the closed range, on the saturation far from zero and on the values
    at 0 and 1, which hold of it as well. *)
Definition fsigmoid (a : f32) : f32 :=
  match a with
  | NaN => NaN
  | Inf false => Fin 1
  | Inf true => Fin 0
  | Fin x => round (sigmoid x)
  end.

(** [torch.tanh] on one entry. *)
Definition ftanh (a : f32) : f32 :=
  match a with
  | NaN => NaN
  | Inf false => Fin 1
  | Inf true => Fin (-1)
  | Fin x => round (tanh x)
  end.

(** An entry that is NaN or a number of the closed interval [lo, hi]. *)
Definition nan_or_within (lo hi : R) (v : f32) : Prop :=
  v = NaN \/ exists r, v = Fin r /\ lo <= r <= hi.

(** An entry that is zero or NaN. *)
Definition zero_or_nan (v : f32) : Prop := v = Fin 0 \/ v = NaN.


(** ** binary32 tensors *)

Record FTensor : Type := mkFTensor {
  frows : nat;
  fcols : nat;
  fdata : list f32        (* row-major storage *)
}.

Definition fshape (t : FTensor) : nat * nat := (frows t, fcols t).

Definition fget (t : FTensor) (i j : nat) : f32 :=
  nth (i * fcols t + j) (fdata t) (Fin 0).

Definition ftabulate (r c : nat) (g : nat -> nat -> f32) : FTensor :=
  mkFTensor r c (flat_map (fun i => map (g i) (seq 0 c)) (seq 0 r)).

(** [torch.zeros(r, c)]. *)
Definition fzeros (r c : nat) : FTensor :=
  mkFTensor r c (repeat (Fin 0) (r * c)).

Definition fall_zero (t : FTensor) : Prop := t = fzeros (frows t) (fcols t).

Definition fmap (f : f32 -> f32) (t : FTensor) : FTensor :=
  mkFTensor (frows t) (fcols t) (map f (fdata t)).

(** An elementwise binary operation under the broadcasting rule. *)
Definition fzip (f : f32 -> f32 -> f32) (A B : FTensor) : result FTensor :=
  match broadcast_dim (frows A) (frows B),
        broadcast_dim (fcols A) (fcols B) with
  | Some r, Some c =>
      Ok (ftabulate r c (fun i j =>
            f (fget A (bidx (frows A) i) (bidx (fcols A) j))
              (fget B (bidx (frows B) i) (bidx (fcols B) j))))
  | _, _ => Err ShapeMismatch
  end.

Definition ftadd : FTensor -> FTensor -> result FTensor := fzip fadd.
Definition ftmul : FTensor -> FTensor -> result FTensor := fzip fmul.
Definition ftsigmoid : FTensor -> FTensor := fmap fsigmoid.
Definition fttanh : FTensor -> FTensor := fmap ftanh.

(** ** The methods over binary32 and operators with effects

    An operator is a module of the operator library: besides its
    arguments it may read and write state of its own or draw from a random
    source.  Both are the world [W], which every call of an operator takes
    and hands back.  The methods are those of the cell above, statement by
    statement, with the world threaded through the six calls in the order
    in which the code makes them. *)

Module Machine.

Section World.

Variable W : Type.

Definition Op : Type :=
  FTensor -> EdgeIndex -> option (list f32) -> W -> result FTensor * W.

Record Cell : Type := mkCell {
  in_channels : nat;
  out_channels : nat;
  K : nat;
  number_of_nodes : nat;
  conv_x_z : Op;
  conv_h_z : Op;
  conv_x_r : Op;
  conv_h_r : Op;
  conv_x_h : Op;
  conv_h_h : Op
}.

(** The state a method runs in: the module object and the world. *)
Definition State : Type := (Cell * W)%type.

Definition Method (A : Type) : Type := M State A.

(** The call [f(features, edge_index, edge_weight)]. *)
Definition invoke (f : Op) (features : FTensor) (edge_index : EdgeIndex)
    (edge_weight : option (list f32)) : Method FTensor :=
  fun s =>
    let (r, w') := f features edge_index edge_weight (snd s) in
    (r, (fst s, w')).

(** [self.op(features, edge_index, edge_weight)]. *)
Definition call_conv (op : Cell -> Op) (features : FTensor)
    (edge_index : EdgeIndex) (edge_weight : option (list f32))
  : Method FTensor :=
  f <- attr (fun s : State => op (fst s)) ;;
  invoke f features edge_index edge_weight.

Definition _set_hidden_state (X : FTensor) (H : option FTensor)
  : Method FTensor :=
  match H with
  | None =>
      n <- attr (fun s : State => number_of_nodes (fst s)) ;;
      c <- attr (fun s : State => out_channels (fst s)) ;;
      ret (fzeros n c)
  | Some H => ret H
  end.

Definition _calculate_update_gate (X : FTensor) (edge_index : EdgeIndex)
    (edge_weight : option (list f32)) (H : FTensor) : Method FTensor :=
  Z <- call_conv conv_x_z X edge_index edge_weight ;;
  Z' <- call_conv conv_h_z H edge_index edge_weight ;;
  Z <- lift (ftadd Z Z') ;;
  ret (ftsigmoid Z).

Definition _calculate_reset_gate (X : FTensor) (edge_index : EdgeIndex)
    (edge_weight : option (list f32)) (H : FTensor) : Method FTensor :=
  R <- call_conv conv_x_r X edge_index edge_weight ;;
  R' <- call_conv conv_h_r H edge_index edge_weight ;;
  R <- lift (ftadd R R') ;;
  ret (ftsigmoid R).

(** In [H_t + self.conv_h_h(H * R, ...)] the attribute is read before the
    argument [H * R] is computed, and the operator is called after it. *)
Definition _calculate_candidate_state (X : FTensor)
    (edge_index : EdgeIndex) (edge_weight : option (list f32))
    (H R : FTensor) : Method FTensor :=
  H_t <- call_conv conv_x_h X edge_index edge_weight ;;
  f <- attr (fun s : State => conv_h_h (fst s)) ;;
  HR <- lift (ftmul H R) ;;
  H_t' <- invoke f HR edge_index edge_weight ;;
  H_t <- lift (ftadd H_t H_t') ;;
  ret (fttanh H_t).

Definition _calculate_hidden_state (O C : FTensor) : Method FTensor :=
  H <- lift (ftmul O (fttanh C)) ;;
  ret H.

Definition forward (X : FTensor) (edge_index : EdgeIndex)
    (edge_weight : option (list f32)) (H : option FTensor)
  : Method FTensor :=
  H <- _set_hidden_state X H ;;
  Z <- _calculate_update_gate X edge_index edge_weight H ;;
  R <- _calculate_reset_gate X edge_index edge_weight H ;;
  H_t <- _calculate_candidate_state X edge_index edge_weight H R ;;
  H <- _calculate_hidden_state H H_t ;;
  ret H.

(** The previous hidden state after the defaulting step. *)
Definition resolved_hidden_state (self : Cell) (H : option FTensor)
  : FTensor :=
  match H with
  | None => fzeros (number_of_nodes self) (out_channels self)
  | Some H => H
  end.

(** One step of a recurrent run: features and topology. *)
Definition FStep : Type := (FTensor * EdgeIndex * option (list f32))%type.

(** The recurrent use of the cell: every call is given the hidden state
    that the previous call returned. *)
Fixpoint unroll (steps : list FStep) (H : FTensor) : Method FTensor :=
  match steps with
  | [] => ret H
  | (X, edge_index, edge_weight) :: rest =>
      H' <- forward X edge_index edge_weight (Some H) ;;
      unroll rest H'
  end.

(** An operator that is a function of its arguments: it has no state, no
    randomness, and leaves the world as it finds it. *)
Definition pure_op (f : Op) : Prop :=
  exists g : FTensor -> EdgeIndex -> option (list f32) -> result FTensor,
    forall features edge_index edge_weight w,
      f features edge_index edge_weight w =
      (g features edge_index edge_weight, w).

Definition pure_cell (self : Cell) : Prop :=
  pure_op (conv_x_z self) /\ pure_op (conv_h_z self) /\
  pure_op (conv_x_r self) /\ pure_op (conv_h_r self) /\
  pure_op (conv_x_h self) /\ pure_op (conv_h_h self).

End World.

Arguments invoke {W}.
Arguments call_conv {W}.
Arguments _set_hidden_state {W}.
Arguments _calculate_update_gate {W}.
Arguments _calculate_reset_gate {W}.
Arguments _calculate_candidate_state {W}.
Arguments _calculate_hidden_state {W}.
Arguments forward {W}.
Arguments resolved_hidden_state {W}.
Arguments unroll {W}.
Arguments pure_op {W}.
Arguments pure_cell {W}.
Arguments in_channels {W}.
Arguments out_channels {W}.
Arguments K {W}.
Arguments number_of_nodes {W}.
Arguments conv_x_z {W}.
Arguments conv_h_z {W}.
Arguments conv_x_r {W}.
Arguments conv_h_r {W}.
Arguments conv_x_h {W}.
Arguments conv_h_h {W}.
Arguments mkCell {W}.

End Machine.

(** A method that assigns no attribute of the cell. *)
Definition keeps_cell {W A : Type} (m : Machine.Method W A) : Prop :=
  forall s, fst (after m s) = fst s.

(** The result of a call written without the world, for operators that are
    functions of their arguments. *)
Definition forward_function
    (g_xz g_hz g_xr g_hr g_xh g_hh :
       FTensor -> EdgeIndex -> option (list f32) -> result FTensor)
    (H0 X : FTensor) (edge_index : EdgeIndex)
    (edge_weight : option (list f32)) : result FTensor :=
  and_then (g_xz X edge_index edge_weight) (fun A =>
  and_then (g_hz H0 edge_index edge_weight) (fun B =>
  and_then (ftadd A B) (fun _ =>
  and_then (g_xr X edge_index edge_weight) (fun A' =>
  and_then (g_hr H0 edge_index edge_weight) (fun B' =>
  and_then (ftadd A' B') (fun S' =>
  and_then (g_xh X edge_index edge_weight) (fun A'' =>
  and_then (ftmul H0 (ftsigmoid S')) (fun HR =>
  and_then (g_hh HR edge_index edge_weight) (fun B'' =>
  and_then (ftadd A'' B'') (fun S'' =>
  ftmul H0 (fttanh (fttanh S'')))))))))))).

(** Topologies, and what the operator library promises for an operator
    constructed with input width [c_in] and output width [c_out]. *)
Definition ftopology (n : nat) (edge_index : EdgeIndex)
    (edge_weight : option (list f32)) : Prop :=
  Forall (fun e => (fst e < n)%nat /\ (snd e < n)%nat) edge_index /\
  match edge_weight with
  | None => True
  | Some w => length w = length edge_index
  end.

Definition op_shape_contract {W : Type} (f : Machine.Op W)
    (c_in c_out : nat) : Prop :=
  forall features edge_index edge_weight w,
    fcols features = c_in ->
    ftopology (frows features) edge_index edge_weight ->
    exists Y w', f features edge_index edge_weight w = (Ok Y, w') /\
                 frows Y = frows features /\ fcols Y = c_out.

Definition machine_valid_cell {W : Type} (self : Machine.Cell W) : Prop :=
  op_shape_contract (Machine.conv_x_z self)
    (Machine.in_channels self) (Machine.out_channels self) /\
  op_shape_contract (Machine.conv_h_z self)
    (Machine.out_channels self) (Machine.out_channels self) /\
  op_shape_contract (Machine.conv_x_r self)
    (Machine.in_channels self) (Machine.out_channels self) /\
  op_shape_contract (Machine.conv_h_r self)
    (Machine.out_channels self) (Machine.out_channels self) /\
  op_shape_contract (Machine.conv_x_h self)
    (Machine.in_channels self) (Machine.out_channels self) /\
  op_shape_contract (Machine.conv_h_h self)
    (Machine.out_channels self) (Machine.out_channels self).

(** Inputs of the documented shapes for the cell. *)
Definition machine_valid_input {W : Type} (self : Machine.Cell W)
    (X : FTensor) (edge_index : EdgeIndex)
    (edge_weight : option (list f32)) (H : option FTensor) : Prop :=
  frows X = Machine.number_of_nodes self /\
  fcols X = Machine.in_channels self /\
  ftopology (Machine.number_of_nodes self) edge_index edge_weight /\
  match H with
  | None => True
  | Some H => frows H = Machine.number_of_nodes self /\
              fcols H = Machine.out_channels self
  end.

Definition machine_valid_steps {W : Type} (self : Machine.Cell W)
    (steps : list Machine.FStep) : Prop :=
  Forall (fun step =>
            machine_valid_input self (fst (fst step)) (snd (fst step))
              (snd step) None) steps.

(** ** Concrete operators over binary32 *)

(** The order-one filter, [X @ W + bias], each entry of the product
    accumulated from the first column on. *)
Record FCheb1 : Type := mkFCheb1 {
  fweight : FTensor;
  fbias : list f32
}.

Fixpoint fdot (n : nat) (u v : nat -> f32) : f32 :=
  match n with
  | O => Fin 0
  | S k => fadd (fdot k u v) (fmul (u k) (v k))
  end.

Definition fmatmul (A B : FTensor) : result FTensor :=
  if (fcols A =? frows B)%nat then
    Ok (ftabulate (frows A) (fcols B) (fun i j =>
          fdot (fcols A) (fun k => fget A i k) (fun k => fget B k j)))
  else Err ShapeMismatch.

Definition fcheb1 (p : FCheb1) (features : FTensor) (edge_index : EdgeIndex)
    (edge_weight : option (list f32)) : result FTensor :=
  if edges_in_range (frows features) edge_index then
    match fmatmul features (fweight p) with
    | Ok out => ftadd out (mkFTensor 1 (length (fbias p)) (fbias p))
    | Err e => Err e
    end
  else Err IndexOutOfRange.

(** A function of the arguments as an operator: it hands the world back
    as it got it. *)
Definition stateless {W : Type}
    (g : FTensor -> EdgeIndex -> option (list f32) -> result FTensor)
  : Machine.Op W :=
  fun features edge_index edge_weight w =>
    (g features edge_index edge_weight, w).

(** A cell of one input and one output channel: each operator is the
    filter [x * weight + 0]. *)
Definition scalar_filter (weight bias : f32) : FCheb1 :=
  mkFCheb1 (mkFTensor 1 1 [weight]) [bias].

Definition scalar_cell (n : nat) (xz hz xr hr xh hh : f32)
  : Machine.Cell unit :=
  Machine.mkCell 1 1 1 n
    (stateless (fcheb1 (scalar_filter xz (Fin 0))))
    (stateless (fcheb1 (scalar_filter hz (Fin 0))))
    (stateless (fcheb1 (scalar_filter xr (Fin 0))))
    (stateless (fcheb1 (scalar_filter hr (Fin 0))))
    (stateless (fcheb1 (scalar_filter xh (Fin 0))))
    (stateless (fcheb1 (scalar_filter hh (Fin 0)))).

(** The matrix of one node and one channel. *)
Definition scalar (v : f32) : FTensor := mkFTensor 1 1 [v].

(** What the filter computes at one node and one channel. *)
Definition affine (weight bias x : f32) : f32 :=
  fadd (fadd (Fin 0) (fmul x weight)) bias.

(** An operator with state: it counts its calls in the world and answers
    with numbers on the first call only. *)
Definition counting_op : Machine.Op nat :=
  fun features edge_index edge_weight calls =>
    (Ok (ftabulate (frows features) 1
           (fun _ _ => match calls with O => Fin 0 | S _ => NaN end)),
     S calls).

Definition counting_cell : Machine.Cell nat :=
  Machine.mkCell 1 1 1 1
    (stateless (fcheb1 (scalar_filter (Fin 0) (Fin 0))))
    (stateless (fcheb1 (scalar_filter (Fin 0) (Fin 0))))
    (stateless (fcheb1 (scalar_filter (Fin 0) (Fin 0))))
    (stateless (fcheb1 (scalar_filter (Fin 0) (Fin 0))))
    counting_op
    (stateless (fcheb1 (scalar_filter (Fin 0) (Fin 0)))).

(** * Properties *)

(** ** The activations *)

Section ScalarFacts.

Lemma tanh_exp (x : R) :
  tanh x = (exp x - exp (- x)) / (exp x + exp (- x)).
Proof.
  unfold tanh, Rtrigo_def.tanh, sinh, cosh.
  pose proof (exp_pos x). pose proof (exp_pos (- x)).
  field. lra.
Qed.

Lemma sigmoid_range (x : R) : 0 < sigmoid x < 1.
Proof.
  unfold sigmoid. pose proof (exp_pos (- x)) as He.
  assert (Hd : 0 < 1 + exp (- x)) by lra.
  split.
  - apply Rdiv_lt_0_compat; lra.
  - apply (Rmult_lt_reg_r (1 + exp (- x))); [exact Hd|].
    unfold Rdiv. rewrite Rmult_assoc, Rinv_l by lra. lra.
Qed.

Lemma sigmoid_0 : sigmoid 0 = 1 / 2.
Proof. unfold sigmoid. rewrite Ropp_0, exp_0. lra. Qed.

Lemma tanh_range (x : R) : -1 < tanh x < 1.
Proof.
  rewrite tanh_exp.
  pose proof (exp_pos x) as Hp. pose proof (exp_pos (- x)) as Hn.
  assert (Hd : 0 < exp x + exp (- x)) by lra.
  split.
  - apply (Rmult_lt_reg_r (exp x + exp (- x))); [exact Hd|].
    unfold Rdiv. rewrite Rmult_assoc, Rinv_l by lra. lra.
  - apply (Rmult_lt_reg_r (exp x + exp (- x))); [exact Hd|].
    unfold Rdiv. rewrite Rmult_assoc, Rinv_l by lra. lra.
Qed.

Lemma tanh_0 : tanh 0 = 0.
Proof. rewrite tanh_exp. rewrite Ropp_0, exp_0. lra. Qed.

Lemma tanh_opp (x : R) : tanh (- x) = - tanh x.
Proof.
  rewrite !tanh_exp, Ropp_involutive.
  pose proof (exp_pos x). pose proof (exp_pos (- x)).
  field. lra.
Qed.

Lemma tanh_increasing (x y : R) : x < y -> tanh x < tanh y.
Proof.
  intros Hxy. rewrite !tanh_exp.
  pose proof (exp_pos x) as Hx. pose proof (exp_pos (- x)) as Hnx.
  pose proof (exp_pos y) as Hy. pose proof (exp_pos (- y)) as Hny.
  pose proof (exp_increasing _ _ Hxy) as Hinc.
  assert (Hdec : exp (- y) < exp (- x)) by (apply exp_increasing; lra).
  assert (Hdx : 0 < exp x + exp (- x)) by lra.
  assert (Hdy : 0 < exp y + exp (- y)) by lra.
  apply (Rmult_lt_reg_r (exp x + exp (- x))); [exact Hdx|].
  apply (Rmult_lt_reg_r (exp y + exp (- y))); [exact Hdy|].
  replace ((exp x - exp (- x)) / (exp x + exp (- x)) *
           (exp x + exp (- x)) * (exp y + exp (- y)))
    with ((exp x - exp (- x)) * (exp y + exp (- y))) by (field; lra).
  replace ((exp y - exp (- y)) / (exp y + exp (- y)) *
           (exp x + exp (- x)) * (exp y + exp (- y)))
    with ((exp y - exp (- y)) * (exp x + exp (- x))) by (field; lra).
  nra.
Qed.

Lemma tanh_1_pos : 0 < tanh 1.
Proof. rewrite <- tanh_0. apply tanh_increasing. lra. Qed.


End ScalarFacts.

(** ** Tensors *)

Section TensorFacts.

Lemma flat_rows_length (h : nat -> list R) (c : nat) (l : list nat) :
  (forall k, length (h k) = c) ->
  length (flat_map h l) = (length l * c)%nat.
Proof.
  intros Hlen. induction l as [|a l IH]; simpl; [reflexivity|].
  rewrite length_app, Hlen, IH. reflexivity.
Qed.

Lemma tabulate_well_formed (r c : nat) (g : nat -> nat -> R) :
  well_formed (tabulate r c g).
Proof.
  unfold well_formed, tabulate; simpl.
  rewrite (flat_rows_length _ c).
  - now rewrite length_seq.
  - intros k. now rewrite length_map, length_seq.
Qed.

Lemma nth_flat_rows (h : nat -> list R) (c r : nat) :
  (forall k, length (h k) = c) ->
  forall s i j, (i < r)%nat -> (j < c)%nat ->
    nth (i * c + j) (flat_map h (seq s r)) 0 = nth j (h (s + i)%nat) 0.
Proof.
  intros Hlen. induction r as [|r IH]; intros s i j Hi Hj; [lia|].
  simpl. destruct i as [|i].
  - simpl. rewrite app_nth1 by (rewrite Hlen; exact Hj).
    now rewrite Nat.add_0_r.
  - rewrite app_nth2 by (rewrite Hlen; simpl; lia).
    rewrite Hlen.
    replace (S i * c + j - c)%nat with (i * c + j)%nat by (simpl; lia).
    rewrite IH by lia. f_equal. f_equal. lia.
Qed.

Lemma get_tabulate (r c : nat) (g : nat -> nat -> R) (i j : nat) :
  (i < r)%nat -> (j < c)%nat -> get (tabulate r c g) i j = g i j.
Proof.
  intros Hi Hj. unfold get, tabulate; simpl.
  rewrite (nth_flat_rows _ c r) by
    (try assumption; intros k; now rewrite length_map, length_seq).
  simpl.
  rewrite (nth_indep _ 0 (g i 0%nat)) by (now rewrite length_map, length_seq).
  rewrite (map_nth (g i) (seq 0 c) 0%nat j), seq_nth by assumption.
  reflexivity.
Qed.

Lemma tabulate_ext (r c : nat) (g g' : nat -> nat -> R) :
  (forall i j, (i < r)%nat -> (j < c)%nat -> g i j = g' i j) ->
  tabulate r c g = tabulate r c g'.
Proof.
  intros Hext. unfold tabulate. f_equal.
  assert (Hrows : forall l, (forall i, In i l -> (i < r)%nat) ->
            flat_map (fun i => map (g i) (seq 0 c)) l =
            flat_map (fun i => map (g' i) (seq 0 c)) l).
  { induction l as [|a l IH]; intros Hin; simpl; [reflexivity|].
    rewrite IH by (intros i Hi; apply Hin; now right).
    f_equal. apply map_ext_in. intros j Hj. apply in_seq in Hj.
    apply Hext; [apply Hin; now left | lia]. }
  apply Hrows. intros i Hi. apply in_seq in Hi. lia.
Qed.

Lemma tabulate_Forall (P : R -> Prop) (r c : nat) (g : nat -> nat -> R) :
  (forall i j, (i < r)%nat -> (j < c)%nat -> P (g i j)) ->
  Forall P (data (tabulate r c g)).
Proof.
  intros HP. unfold tabulate; simpl.
  apply Forall_forall. intros x Hx.
  apply in_flat_map in Hx. destruct Hx as [i [Hi Hx]].
  apply in_map_iff in Hx. destruct Hx as [j [<- Hj]].
  apply in_seq in Hi. apply in_seq in Hj. apply HP; lia.
Qed.

Lemma map_const_seq (x : R) (c s : nat) :
  map (fun _ : nat => x) (seq s c) = repeat x c.
Proof.
  revert s. induction c as [|c IH]; intros s; simpl; [reflexivity|].
  now rewrite IH.
Qed.

Lemma flat_rows_zero (c : nat) (l : list nat) :
  flat_map (fun _ : nat => map (fun _ : nat => 0) (seq 0 c)) l =
  repeat 0 (length l * c).
Proof.
  induction l as [|a l IH]; simpl; [reflexivity|].
  now rewrite IH, repeat_app, map_const_seq.
Qed.

Lemma tabulate_zero (r c : nat) : tabulate r c (fun _ _ => 0) = zeros r c.
Proof.
  unfold tabulate, zeros. f_equal.
  rewrite flat_rows_zero. now rewrite length_seq.
Qed.

Lemma get_zeros (r c i j : nat) : get (zeros r c) i j = 0.
Proof.
  unfold get, zeros; simpl.
  destruct (Nat.lt_ge_cases (i * c + j) (r * c)) as [Hlt|Hge].
  - now rewrite nth_repeat_lt by exact Hlt.
  - rewrite nth_overflow; [reflexivity|]. now rewrite repeat_length.
Qed.

Lemma get_all_zero (t : Tensor) (i j : nat) : all_zero t -> get t i j = 0.
Proof.
  intros Hz. rewrite Hz.
  replace (cols (zeros (rows t) (cols t))) with (cols t) by reflexivity.
  apply get_zeros.
Qed.

Lemma zeros_all_zero (r c : nat) : all_zero (zeros r c).
Proof. reflexivity. Qed.

Lemma tmap_Forall (P : R -> Prop) (f : R -> R) (t : Tensor) :
  (forall x, P (f x)) -> Forall P (data (tmap f t)).
Proof.
  intros HP. unfold tmap; simpl. apply Forall_forall.
  intros y Hy. apply in_map_iff in Hy. destruct Hy as [x [<- _]]. apply HP.
Qed.

Lemma get_tmap (f : R -> R) (t : Tensor) (i j : nat) :
  well_formed t -> (i < rows t)%nat -> (j < cols t)%nat ->
  get (tmap f t) i j = f (get t i j).
Proof.
  intros Hwf Hi Hj. unfold get, tmap; simpl.
  rewrite (nth_indep _ 0 (f 0)).
  - apply map_nth.
  - rewrite length_map, Hwf. nia.
Qed.

Lemma tmap_well_formed (f : R -> R) (t : Tensor) :
  well_formed t -> well_formed (tmap f t).
Proof. unfold well_formed, tmap; simpl. now rewrite length_map. Qed.

End TensorFacts.

(** ** The method monad *)

Section MethodFacts.

Context {S : Type}.

Lemma bind_Ok_inv {A B : Type} (m : M S A) (k : A -> M S B)
    (s s' : S) (b : B) :
  bind m k s = (Ok b, s') ->
  exists a s1, m s = (Ok a, s1) /\ k a s1 = (Ok b, s').
Proof.
  unfold bind. destruct (m s) as [[a|e] s1]; intros Hk.
  - now exists a, s1.
  - discriminate.
Qed.

Lemma bind_Ok_intro {A B : Type} (m : M S A) (k : A -> M S B)
    (s s1 : S) (a : A) :
  m s = (Ok a, s1) -> bind m k s = k a s1.
Proof. unfold bind. now intros ->. Qed.

Lemma read_only_ret {A : Type} (a : A) : read_only (S := S) (ret a).
Proof. now intros s. Qed.

Lemma read_only_attr {A : Type} (field : S -> A) : read_only (attr field).
Proof. now intros s. Qed.

Lemma read_only_lift {A : Type} (r : result A) : read_only (S := S) (lift r).
Proof. now intros s. Qed.

Lemma read_only_bind {A B : Type} (m : M S A) (k : A -> M S B) :
  read_only m -> (forall a, read_only (k a)) -> read_only (bind m k).
Proof.
  intros Hm Hk s. unfold after, bind.
  specialize (Hm s). unfold after in Hm.
  destruct (m s) as [[a|e] s1]; simpl in Hm; subst s1.
  - apply Hk.
  - reflexivity.
Qed.

Lemma read_only_run {A : Type} (m : M S A) (s : S) :
  read_only m -> m s = (run m s, s).
Proof.
  intros Hm. specialize (Hm s). unfold after, run in *.
  destruct (m s) as [r s1]. simpl in *. now subst.
Qed.

End MethodFacts.

Ltac read_only_tac :=
  repeat first
    [ apply read_only_ret | apply read_only_attr | apply read_only_lift
    | apply read_only_bind; [| intros ?] ].

(** ** The methods read the object and never write it *)

Section Frame.

Variables (X : Tensor) (edge_index : EdgeIndex)
          (edge_weight : option EdgeWeight).

Lemma call_conv_read_only (op : GConvGRU -> GraphConv) (F : Tensor) :
  read_only (call_conv op F edge_index edge_weight).
Proof. unfold call_conv. read_only_tac. Qed.

Lemma set_hidden_state_read_only (H : option Tensor) :
  read_only (_set_hidden_state X H).
Proof. destruct H; simpl; read_only_tac. Qed.

Lemma update_gate_read_only (H : Tensor) :
  read_only (_calculate_update_gate X edge_index edge_weight H).
Proof.
  unfold _calculate_update_gate.
  repeat first [ apply call_conv_read_only | read_only_tac ].
Qed.

Lemma reset_gate_read_only (H : Tensor) :
  read_only (_calculate_reset_gate X edge_index edge_weight H).
Proof.
  unfold _calculate_reset_gate.
  repeat first [ apply call_conv_read_only | read_only_tac ].
Qed.

Lemma candidate_state_read_only (H R : Tensor) :
  read_only (_calculate_candidate_state X edge_index edge_weight H R).
Proof.
  unfold _calculate_candidate_state.
  repeat first [ apply call_conv_read_only | read_only_tac ].
Qed.

Lemma hidden_state_read_only (O C : Tensor) :
  read_only (_calculate_hidden_state O C).
Proof. unfold _calculate_hidden_state. read_only_tac. Qed.

Lemma forward_read_only (H : option Tensor) :
  read_only (forward X edge_index edge_weight H).
Proof.
  unfold forward.
  apply read_only_bind; [apply set_hidden_state_read_only | intros H0].
  apply read_only_bind; [apply update_gate_read_only | intros Z].
  apply read_only_bind; [apply reset_gate_read_only | intros R].
  apply read_only_bind; [apply candidate_state_read_only | intros H_t].
  apply read_only_bind; [apply hidden_state_read_only | intros H'].
  apply read_only_ret.
Qed.

End Frame.

(** ** What each method returns *)

Ltac unfold_method :=
  unfold forward, forward_reset_first, gates_update_first, gates_reset_first,
    _calculate_hidden_state, _calculate_candidate_state,
    _calculate_reset_gate, _calculate_update_gate, _set_hidden_state,
    call_conv, bind, attr, lift, ret.

Ltac case_results :=
  repeat match goal with
    | |- context [match ?r with Ok _ => _ | Err _ => _ end] =>
        destruct r eqn:?; simpl
    | |- context [let (_, _) := ?p in _] => destruct p eqn:?; simpl
    end.

Section Returns.

Variables (self : GConvGRU) (X : Tensor) (edge_index : EdgeIndex)
          (edge_weight : option EdgeWeight).

Lemma set_hidden_state_eq (H : option Tensor) :
  _set_hidden_state X H self = (Ok (resolved_hidden_state self H), self).
Proof. destruct H; reflexivity. Qed.

Lemma update_gate_Ok (H Z : Tensor) (s' : GConvGRU) :
  _calculate_update_gate X edge_index edge_weight H self = (Ok Z, s') <->
  s' = self /\
  exists A B S,
    conv_x_z self X edge_index edge_weight = Ok A /\
    conv_h_z self H edge_index edge_weight = Ok B /\
    tadd A B = Ok S /\ Z = tsigmoid S.
Proof.
  unfold_method. split.
  - case_results; intros Heq; inversion Heq; subst.
    split; [reflexivity|]. eauto 8.
  - intros [-> (A & B & S & -> & -> & -> & ->)]. reflexivity.
Qed.

Lemma reset_gate_Ok (H R : Tensor) (s' : GConvGRU) :
  _calculate_reset_gate X edge_index edge_weight H self = (Ok R, s') <->
  s' = self /\
  exists A B S,
    conv_x_r self X edge_index edge_weight = Ok A /\
    conv_h_r self H edge_index edge_weight = Ok B /\
    tadd A B = Ok S /\ R = tsigmoid S.
Proof.
  unfold_method. split.
  - case_results; intros Heq; inversion Heq; subst.
    split; [reflexivity|]. eauto 8.
  - intros [-> (A & B & S & -> & -> & -> & ->)]. reflexivity.
Qed.

Lemma candidate_state_Ok (H R H_t : Tensor) (s' : GConvGRU) :
  _calculate_candidate_state X edge_index edge_weight H R self
    = (Ok H_t, s') <->
  s' = self /\
  exists A HR B S,
    conv_x_h self X edge_index edge_weight = Ok A /\
    tmul H R = Ok HR /\
    conv_h_h self HR edge_index edge_weight = Ok B /\
    tadd A B = Ok S /\ H_t = ttanh S.
Proof.
  unfold_method. split.
  - case_results; intros Heq; inversion Heq; subst.
    split; [reflexivity|]. eauto 10.
  - intros [-> (A & HR & B & S & -> & -> & -> & -> & ->)]. reflexivity.
Qed.

Lemma hidden_state_Ok (O C H' : Tensor) (s' : GConvGRU) :
  _calculate_hidden_state O C self = (Ok H', s') <->
  s' = self /\ tmul O (ttanh C) = Ok H'.
Proof.
  unfold_method. split.
  - case_results; intros Heq; inversion Heq; subst. now split.
  - intros [-> ->]. reflexivity.
Qed.

Lemma forward_Ok (H : option Tensor) (H' : Tensor) (s' : GConvGRU) :
  forward X edge_index edge_weight H self = (Ok H', s') <->
  s' = self /\
  exists Z R H_t,
    _calculate_update_gate X edge_index edge_weight
      (resolved_hidden_state self H) self = (Ok Z, self) /\
    _calculate_reset_gate X edge_index edge_weight
      (resolved_hidden_state self H) self = (Ok R, self) /\
    _calculate_candidate_state X edge_index edge_weight
      (resolved_hidden_state self H) R self = (Ok H_t, self) /\
    tmul (resolved_hidden_state self H) (ttanh H_t) = Ok H'.
Proof.
  unfold forward. split.
  - intros Hf.
    apply bind_Ok_inv in Hf. destruct Hf as (H0 & s0 & Hset & Hf).
    rewrite set_hidden_state_eq in Hset. inversion Hset; subst H0 s0.
    apply bind_Ok_inv in Hf. destruct Hf as (Z & s1 & HZ & Hf).
    pose proof HZ as HZ'. apply update_gate_Ok in HZ'. destruct HZ' as [-> _].
    apply bind_Ok_inv in Hf. destruct Hf as (R & s2 & HR & Hf).
    pose proof HR as HR'. apply reset_gate_Ok in HR'. destruct HR' as [-> _].
    apply bind_Ok_inv in Hf. destruct Hf as (H_t & s3 & HC & Hf).
    pose proof HC as HC'. apply candidate_state_Ok in HC'.
    destruct HC' as [-> _].
    apply bind_Ok_inv in Hf. destruct Hf as (Hn & s4 & HH & Hf).
    apply hidden_state_Ok in HH. destruct HH as [-> HH].
    inversion Hf; subst. split; [reflexivity|]. eauto 8.
  - intros [-> (Z & R & H_t & HZ & HR & HC & HH)].
    rewrite (bind_Ok_intro _ _ _ _ _ (set_hidden_state_eq H)).
    rewrite (bind_Ok_intro _ _ _ _ _ HZ).
    rewrite (bind_Ok_intro _ _ _ _ _ HR).
    rewrite (bind_Ok_intro _ _ _ _ _ HC).
    assert (HH' : _calculate_hidden_state (resolved_hidden_state self H) H_t
                    self = (Ok H', self)) by (apply hidden_state_Ok; now split).
    rewrite (bind_Ok_intro _ _ _ _ _ HH'). reflexivity.
Qed.

End Returns.

(** ** Broadcasting *)

Section BroadcastFacts.

Lemma broadcast_dim_same (a : nat) : broadcast_dim a a = Some a.
Proof. unfold broadcast_dim. now rewrite Nat.eqb_refl. Qed.

Lemma broadcast_dim_cases (a b r : nat) :
  broadcast_dim a b = Some r ->
  (r = a /\ (b = a \/ b = 1%nat)) \/ (a = 1%nat /\ r = b).
Proof.
  unfold broadcast_dim.
  destruct (Nat.eqb_spec a b) as [->|Hab].
  - intros [= <-]. left. auto.
  - destruct (Nat.eqb_spec a 1) as [->|Ha].
    + intros [= <-]. right. auto.
    + destruct (Nat.eqb_spec b 1) as [->|Hb]; [|discriminate].
      intros [= <-]. left. auto.
Qed.

Lemma bidx_lt (n i : nat) : (i < n)%nat -> bidx n i = i.
Proof.
  unfold bidx. destruct (Nat.eqb_spec n 1) as [->|_]; [lia | reflexivity].
Qed.

(** The index read from either operand is inside that operand. *)
Lemma bidx_left_in_range (a b r i : nat) :
  broadcast_dim a b = Some r -> (i < r)%nat -> (bidx a i < a)%nat.
Proof.
  intros Hb Hi. unfold bidx.
  destruct (Nat.eqb_spec a 1) as [->|Ha]; [lia|].
  apply broadcast_dim_cases in Hb. lia.
Qed.

Lemma bidx_right_in_range (a b r i : nat) :
  broadcast_dim a b = Some r -> (i < r)%nat -> (bidx b i < b)%nat.
Proof.
  intros Hb Hi. unfold bidx.
  destruct (Nat.eqb_spec b 1) as [->|Hb1]; [lia|].
  apply broadcast_dim_cases in Hb. lia.
Qed.

Lemma tzip_Ok (f : R -> R -> R) (A B C : Tensor) :
  tzip f A B = Ok C ->
  broadcast_dim (rows A) (rows B) = Some (rows C) /\
  broadcast_dim (cols A) (cols B) = Some (cols C) /\
  C = tabulate (rows C) (cols C) (fun i j =>
        f (get A (bidx (rows A) i) (bidx (cols A) j))
          (get B (bidx (rows B) i) (bidx (cols B) j))).
Proof.
  unfold tzip.
  destruct (broadcast_dim (rows A) (rows B)) as [r|]; [|discriminate].
  destruct (broadcast_dim (cols A) (cols B)) as [c|]; [|discriminate].
  intros [= <-]. simpl. auto.
Qed.

Lemma tzip_well_formed (f : R -> R -> R) (A B C : Tensor) :
  tzip f A B = Ok C -> well_formed C.
Proof.
  intros H. apply tzip_Ok in H. destruct H as (_ & _ & ->).
  apply tabulate_well_formed.
Qed.

Lemma get_tzip (f : R -> R -> R) (A B C : Tensor) (i j : nat) :
  tzip f A B = Ok C -> (i < rows C)%nat -> (j < cols C)%nat ->
  get C i j = f (get A (bidx (rows A) i) (bidx (cols A) j))
                (get B (bidx (rows B) i) (bidx (cols B) j)).
Proof.
  intros H Hi Hj. apply tzip_Ok in H. destruct H as (_ & _ & HC).
  rewrite HC at 1. now rewrite get_tabulate.
Qed.

(** On operands of one shape the operation is entry by entry. *)
Lemma tzip_same_shape (f : R -> R -> R) (A B : Tensor) :
  rows A = rows B -> cols A = cols B ->
  tzip f A B =
  Ok (tabulate (rows A) (cols A) (fun i j => f (get A i j) (get B i j))).
Proof.
  intros Hr Hc. unfold tzip.
  rewrite <- Hr, <- Hc, !broadcast_dim_same. f_equal.
  apply tabulate_ext. intros i j Hi Hj.
  now rewrite !bidx_lt by assumption.
Qed.

Lemma tmap_tabulate (f : R -> R) (r c : nat) (g : nat -> nat -> R) :
  tmap f (tabulate r c g) = tabulate r c (fun i j => f (g i j)).
Proof.
  unfold tmap, tabulate; simpl. f_equal.
  induction (seq 0 r) as [|a l IH]; simpl; [reflexivity|].
  now rewrite map_app, map_map, IH.
Qed.

End BroadcastFacts.

(** ** The code against the written equations *)

Section Equations.

Variables (self : GConvGRU) (X : Tensor) (edge_index : EdgeIndex)
          (edge_weight : option EdgeWeight).

Lemma update_gate_spec (H : Tensor) :
  _calculate_update_gate X edge_index edge_weight H self =
  (spec_update_gate self X edge_index edge_weight H, self).
Proof.
  unfold spec_update_gate, and_then. unfold_method.
  case_results; reflexivity.
Qed.

Lemma reset_gate_spec (H : Tensor) :
  _calculate_reset_gate X edge_index edge_weight H self =
  (spec_reset_gate self X edge_index edge_weight H, self).
Proof.
  unfold spec_reset_gate, and_then. unfold_method.
  case_results; reflexivity.
Qed.

Lemma candidate_state_spec (H R : Tensor) :
  _calculate_candidate_state X edge_index edge_weight H R self =
  (spec_candidate_state self X edge_index edge_weight H R, self).
Proof.
  unfold spec_candidate_state, and_then. unfold_method.
  case_results; reflexivity.
Qed.

Lemma hidden_state_spec (O C : Tensor) :
  _calculate_hidden_state O C self = (tmul O (ttanh C), self).
Proof. unfold_method. case_results; reflexivity. Qed.

Lemma forward_spec (H : option Tensor) :
  forward X edge_index edge_weight H self =
  (spec_forward self X edge_index edge_weight H, self).
Proof.
  unfold forward, spec_forward, bind.
  rewrite set_hidden_state_eq, update_gate_spec.
  destruct (spec_update_gate self X edge_index edge_weight
              (resolved_hidden_state self H)) as [Z|e]; simpl;
    [|reflexivity].
  rewrite reset_gate_spec.
  destruct (spec_reset_gate self X edge_index edge_weight
              (resolved_hidden_state self H)) as [R|e]; simpl;
    [|reflexivity].
  rewrite candidate_state_spec.
  destruct (spec_candidate_state self X edge_index edge_weight
              (resolved_hidden_state self H) R) as [H_t|e]; simpl;
    [|reflexivity].
  rewrite hidden_state_spec.
  destruct (tmul (resolved_hidden_state self H) (ttanh H_t)); reflexivity.
Qed.

(** Entry by entry: a sum of two operator outputs under an activation. *)
Lemma activated_sum_entry (act : R -> R) (A B S : Tensor) (i j : nat) :
  tadd A B = Ok S -> (i < rows S)%nat -> (j < cols S)%nat ->
  get (tmap act S) i j =
  act (get A (bidx (rows A) i) (bidx (cols A) j) +
       get B (bidx (rows B) i) (bidx (cols B) j)).
Proof.
  intros HS Hi Hj.
  rewrite get_tmap by
    (try assumption; apply (tzip_well_formed _ _ _ _ HS)).
  f_equal. now apply (get_tzip Rplus).
Qed.

End Equations.

(** ** The three gates *)

(** C3. The intermediate quantities of [forward] are computed by the
    written formulas over the six operators:
    Z = sigmoid(conv_x_z(X) + conv_h_z(H)),
    R = sigmoid(conv_x_r(X) + conv_h_r(H)),
    H_t = tanh(conv_x_h(X) + conv_h_h(H * R)),
    with [*] the elementwise product applied to the previous hidden state
    before the convolution.  Each method returns (or raises) what the
    written formula does, and every entry of a returned gate is the
    activation of the sum of the two operator outputs at that entry. *)
Theorem gate_formulas (self : GConvGRU) (X : Tensor)
    (edge_index : EdgeIndex) (edge_weight : option EdgeWeight)
    (H R : Tensor) (H_prev : option Tensor) :
  (forall H',
     run (forward X edge_index edge_weight H_prev) self = Ok H' ->
     exists Z0 R0 H_t0,
       spec_update_gate self X edge_index edge_weight
         (resolved_hidden_state self H_prev) = Ok Z0 /\
       spec_reset_gate self X edge_index edge_weight
         (resolved_hidden_state self H_prev) = Ok R0 /\
       spec_candidate_state self X edge_index edge_weight
         (resolved_hidden_state self H_prev) R0 = Ok H_t0) /\
  (run (_calculate_update_gate X edge_index edge_weight H) self =
     spec_update_gate self X edge_index edge_weight H /\
   run (_calculate_reset_gate X edge_index edge_weight H) self =
     spec_reset_gate self X edge_index edge_weight H /\
   run (_calculate_candidate_state X edge_index edge_weight H R) self =
     spec_candidate_state self X edge_index edge_weight H R) /\
  (forall Z,
     run (_calculate_update_gate X edge_index edge_weight H) self = Ok Z ->
     exists A B,
       conv_x_z self X edge_index edge_weight = Ok A /\
       conv_h_z self H edge_index edge_weight = Ok B /\
       forall i j, (i < rows Z)%nat -> (j < cols Z)%nat ->
         get Z i j =
         sigmoid (get A (bidx (rows A) i) (bidx (cols A) j) +
                  get B (bidx (rows B) i) (bidx (cols B) j))) /\
  (forall R',
     run (_calculate_reset_gate X edge_index edge_weight H) self = Ok R' ->
     exists A B,
       conv_x_r self X edge_index edge_weight = Ok A /\
       conv_h_r self H edge_index edge_weight = Ok B /\
       forall i j, (i < rows R')%nat -> (j < cols R')%nat ->
         get R' i j =
         sigmoid (get A (bidx (rows A) i) (bidx (cols A) j) +
                  get B (bidx (rows B) i) (bidx (cols B) j))) /\
  (forall H_t,
     run (_calculate_candidate_state X edge_index edge_weight H R) self
       = Ok H_t ->
     exists A HR B,
       conv_x_h self X edge_index edge_weight = Ok A /\
       tmul H R = Ok HR /\
       (forall i j, (i < rows HR)%nat -> (j < cols HR)%nat ->
          get HR i j = get H (bidx (rows H) i) (bidx (cols H) j) *
                       get R (bidx (rows R) i) (bidx (cols R) j)) /\
       conv_h_h self HR edge_index edge_weight = Ok B /\
       forall i j, (i < rows H_t)%nat -> (j < cols H_t)%nat ->
         get H_t i j =
         tanh (get A (bidx (rows A) i) (bidx (cols A) j) +
               get B (bidx (rows B) i) (bidx (cols B) j))).
Proof.
  unfold run. split.
  { intros H' Hrun. rewrite forward_spec in Hrun. simpl in Hrun.
    unfold spec_forward in Hrun.
    destruct (spec_update_gate self X edge_index edge_weight
                (resolved_hidden_state self H_prev)) as [Z0|e];
      [|discriminate].
    destruct (spec_reset_gate self X edge_index edge_weight
                (resolved_hidden_state self H_prev)) as [R0|e];
      [|discriminate].
    simpl in Hrun.
    destruct (spec_candidate_state self X edge_index edge_weight
                (resolved_hidden_state self H_prev) R0) as [H_t0|e] eqn:HC;
      [|discriminate].
    exists Z0, R0, H_t0. auto. }
  rewrite update_gate_spec, reset_gate_spec, candidate_state_spec. simpl.
  split; [auto|]. split; [|split].
  - intros Z HZ.
    assert (Hm : _calculate_update_gate X edge_index edge_weight H self =
                 (Ok Z, self)) by (now rewrite update_gate_spec, HZ).
    apply update_gate_Ok in Hm.
    destruct Hm as [_ (A & B & S & HA & HB & HS & ->)].
    exists A, B. repeat split; try assumption.
    intros i j Hi Hj. now apply activated_sum_entry.
  - intros R' HR'.
    assert (Hm : _calculate_reset_gate X edge_index edge_weight H self =
                 (Ok R', self)) by (now rewrite reset_gate_spec, HR').
    apply reset_gate_Ok in Hm.
    destruct Hm as [_ (A & B & S & HA & HB & HS & ->)].
    exists A, B. repeat split; try assumption.
    intros i j Hi Hj. now apply activated_sum_entry.
  - intros H_t Ht.
    assert (Hm : _calculate_candidate_state X edge_index edge_weight H R self
                 = (Ok H_t, self)) by (now rewrite candidate_state_spec, Ht).
    apply candidate_state_Ok in Hm.
    destruct Hm as [_ (A & HR & B & S & HA & HHR & HB & HS & ->)].
    exists A, HR, B. repeat split; try assumption.
    + intros i j Hi Hj. now apply (get_tzip Rmult).
    + intros i j Hi Hj. now apply activated_sum_entry.
Qed.

(** ** The order-one filter keeps the operator contracts *)

Section Cheb1Facts.

Lemma broadcast_dim_one_r (a : nat) : broadcast_dim a 1 = Some a.
Proof.
  unfold broadcast_dim. destruct (Nat.eqb_spec a 1) as [->|_]; reflexivity.
Qed.

Lemma edges_in_range_valid (n : nat) (edge_index : EdgeIndex)
    (edge_weight : option EdgeWeight) :
  valid_topology n edge_index edge_weight ->
  edges_in_range n edge_index = true.
Proof.
  intros [Hall _]. unfold edges_in_range. apply forallb_forall.
  intros e He. rewrite Forall_forall in Hall.
  destruct (Hall e He) as [Hs Ht].
  apply andb_true_intro. split; now apply Nat.ltb_lt.
Qed.

Lemma dot_zero_left (n : nat) (u v : nat -> R) :
  (forall k, u k = 0) -> dot n u v = 0.
Proof.
  intros Hu. induction n as [|n IH]; simpl; [reflexivity|].
  rewrite IH, Hu. lra.
Qed.

Lemma matmul_shape (A B : Tensor) :
  cols A = rows B ->
  exists C, matmul A B = Ok C /\ rows C = rows A /\ cols C = cols B /\
            well_formed C.
Proof.
  intros Hc. unfold matmul. rewrite Hc, Nat.eqb_refl.
  eexists. split; [reflexivity|]. repeat split.
  apply tabulate_well_formed.
Qed.

Lemma matmul_zeros (r c : nat) (W : Tensor) :
  rows W = c -> matmul (zeros r c) W = Ok (zeros r (cols W)).
Proof.
  intros Hr. unfold matmul. simpl. rewrite Hr, Nat.eqb_refl. f_equal.
  rewrite <- (tabulate_zero r (cols W)). apply tabulate_ext. intros i j _ _.
  apply dot_zero_left. intros k. apply get_zeros.
Qed.

Lemma cheb1_shape_contract (p : Cheb1) (c_in c_out : nat) :
  rows (weight p) = c_in -> cols (weight p) = c_out ->
  length (bias p) = c_out ->
  conv_shape_contract (cheb1 p) c_in c_out.
Proof.
  intros Hr Hc Hb X edge_index edge_weight HX Htop.
  unfold cheb1. rewrite (edges_in_range_valid _ _ _ Htop).
  destruct (matmul_shape X (weight p)) as (C & -> & HrC & HcC & _);
    [congruence|].
  unfold tadd, tzip. simpl.
  rewrite broadcast_dim_one_r.
  replace (length (bias p)) with (cols C) by congruence.
  rewrite broadcast_dim_same.
  eexists. split; [reflexivity|]. simpl. repeat split; try congruence.
  apply tabulate_well_formed.
Qed.

Lemma cheb1_bias_contract (p : Cheb1) (c_in : nat) :
  rows (weight p) = c_in -> cols (weight p) = length (bias p) ->
  conv_bias_contract (cheb1 p) c_in (bias p).
Proof.
  intros Hr Hc r edge_index edge_weight Htop.
  unfold cheb1.
  replace (rows (zeros r c_in)) with r by reflexivity.
  rewrite (edges_in_range_valid _ _ _ Htop).
  rewrite matmul_zeros by exact Hr.
  unfold tadd, tzip. simpl.
  rewrite broadcast_dim_one_r, Hc, broadcast_dim_same. f_equal.
  unfold bias_rows. apply tabulate_ext. intros i j Hi Hj.
  replace (get (zeros r (length (bias p))) _ _) with 0
    by (symmetry; apply get_zeros).
  unfold get; simpl. rewrite (bidx_lt _ j) by exact Hj.
  rewrite Rplus_0_l. reflexivity.
Qed.

Lemma const_cheb1_shape_contract (c_in c_out : nat) (w b : R) :
  conv_shape_contract (cheb1 (const_cheb1 c_in c_out w b)) c_in c_out.
Proof.
  apply cheb1_shape_contract; simpl; try reflexivity.
  apply repeat_length.
Qed.

Lemma const_cheb1_bias_contract (c_in c_out : nat) (w b : R) :
  conv_bias_contract (cheb1 (const_cheb1 c_in c_out w b)) c_in
    (repeat b c_out).
Proof.
  apply (cheb1_bias_contract (const_cheb1 c_in c_out w b)); simpl;
    [reflexivity|]. symmetry. apply repeat_length.
Qed.

End Cheb1Facts.

(** ** Shapes through a call on valid inputs *)

Section Shapes.

Lemma tzip_shape (f : R -> R -> R) (A B : Tensor) (n c : nat) :
  rows A = n -> cols A = c -> rows B = n -> cols B = c ->
  exists S, tzip f A B = Ok S /\ rows S = n /\ cols S = c /\
            (forall i j, (i < n)%nat -> (j < c)%nat ->
               get S i j = f (get A i j) (get B i j)).
Proof.
  intros HrA HcA HrB HcB.
  rewrite tzip_same_shape by congruence.
  eexists. split; [reflexivity|]. simpl. repeat split; try assumption.
  intros i j Hi Hj. rewrite HrA, HcA. now apply get_tabulate.
Qed.

Lemma conv_sum_returns (f_x f_h : GraphConv) (c_x c_h c_out n : nat)
    (X H : Tensor) (edge_index : EdgeIndex)
    (edge_weight : option EdgeWeight) :
  conv_shape_contract f_x c_x c_out ->
  conv_shape_contract f_h c_h c_out ->
  rows X = n -> cols X = c_x -> rows H = n -> cols H = c_h ->
  valid_topology n edge_index edge_weight ->
  exists A B S,
    f_x X edge_index edge_weight = Ok A /\
    f_h H edge_index edge_weight = Ok B /\
    tadd A B = Ok S /\ rows S = n /\ cols S = c_out.
Proof.
  intros Hfx Hfh HrX HcX HrH HcH Htop.
  destruct (Hfx X edge_index edge_weight HcX) as (A & HA & HrA & HcA & _);
    [now rewrite HrX|].
  destruct (Hfh H edge_index edge_weight HcH) as (B & HB & HrB & HcB & _);
    [now rewrite HrH|].
  destruct (tzip_shape Rplus A B n c_out) as (S & HS & HrS & HcS & _);
    try congruence.
  exists A, B, S. auto.
Qed.

(** On a consistently configured cell and inputs of the documented shapes
    the call returns, and what it returns has one row per node and
    [out_channels] columns. *)
Lemma forward_returns (self : GConvGRU) (X : Tensor)
    (edge_index : EdgeIndex) (edge_weight : option EdgeWeight)
    (H : option Tensor) :
  valid_cell self ->
  valid_input self X edge_index edge_weight H ->
  exists H', forward X edge_index edge_weight H self = (Ok H', self) /\
             rows H' = number_of_nodes self /\
             cols H' = out_channels self.
Proof.
  intros (Hxz & Hhz & Hxr & Hhr & Hxh & Hhh) (HrX & HcX & Htop & HH).
  set (H0 := resolved_hidden_state self H).
  assert (HrH : rows H0 = number_of_nodes self)
    by (destruct H; simpl; [apply HH | reflexivity]).
  assert (HcH : cols H0 = out_channels self)
    by (destruct H; simpl; [apply HH | reflexivity]).
  destruct (conv_sum_returns _ _ _ _ _ _ X H0 edge_index edge_weight
              Hxz Hhz HrX HcX HrH HcH Htop)
    as (Az & Bz & Sz & HAz & HBz & HSz & _ & _).
  destruct (conv_sum_returns _ _ _ _ _ _ X H0 edge_index edge_weight
              Hxr Hhr HrX HcX HrH HcH Htop)
    as (Ar & Br & Sr & HAr & HBr & HSr & HrSr & HcSr).
  destruct (tzip_shape Rmult H0 (tsigmoid Sr)
              (number_of_nodes self) (out_channels self))
    as (HR & HHR & HrHR & HcHR & _); try assumption.
  destruct (conv_sum_returns _ _ _ _ _ _ X HR edge_index edge_weight
              Hxh Hhh HrX HcX HrHR HcHR Htop)
    as (Ah & Bh & Sh & HAh & HBh & HSh & HrSh & HcSh).
  destruct (tzip_shape Rmult H0 (ttanh (ttanh Sh))
              (number_of_nodes self) (out_channels self))
    as (H' & HH' & HrH' & HcH' & _); try assumption.
  exists H'. split; [|now split].
  apply forward_Ok. split; [reflexivity|].
  exists (tsigmoid Sz), (tsigmoid Sr), (ttanh Sh). fold H0.
  repeat split.
  - apply update_gate_Ok. split; [reflexivity|]. eauto 8.
  - apply reset_gate_Ok. split; [reflexivity|]. eauto 8.
  - apply candidate_state_Ok. split; [reflexivity|]. eauto 10.
  - exact HH'.
Qed.

End Shapes.

(** ** Construction *)

(** A cell built by [__init__] from an operator class that keeps the shape
    contract is consistently configured. *)
Lemma init_valid_cell {Params : Type}
    (ChebConv : nat -> nat -> nat -> Params -> GraphConv)
    (c_in c_out k n : nat) (p_xz p_hz p_xr p_hr p_xh p_hh : Params) :
  (forall a b p, conv_shape_contract (ChebConv a b k p) a b) ->
  valid_cell (__init__ ChebConv c_in c_out k n p_xz p_hz p_xr p_hr p_xh p_hh).
Proof.
  intros Hclass. unfold valid_cell, __init__; simpl.
  repeat split; apply Hclass.
Qed.

(** ** The concrete scenario is valid *)

Section Scenario.

Lemma complete_graph_4_valid : valid_topology 4 complete_graph_4 None.
Proof.
  split; [|exact I]. unfold complete_graph_4.
  repeat (constructor; [simpl; lia|]). constructor.
Qed.

Lemma example_cell_valid : valid_cell example_cell.
Proof.
  unfold valid_cell, example_cell, cheb1_cell; simpl.
  repeat split; apply const_cheb1_shape_contract.
Qed.

Lemma example_input_valid (H : option Tensor) :
  match H with
  | None => True
  | Some H => rows H = 4%nat /\ cols H = 3%nat
  end ->
  valid_input example_cell (ones 4 2) complete_graph_4 None H.
Proof.
  intros HH. unfold valid_input; simpl.
  repeat split; try reflexivity;
    try apply complete_graph_4_valid; try exact HH.
Qed.

End Scenario.

(** ** Zero features and zero hidden state *)

Section ZeroInput.

Lemma bias_rows_sum (act : R -> R) (n : nat) (b_x b_h : list R) :
  length b_h = length b_x ->
  exists S, tadd (bias_rows n b_x) (bias_rows n b_h) = Ok S /\
            tmap act S = bias_gate act n b_x b_h.
Proof.
  intros Hlen. unfold tadd.
  rewrite tzip_same_shape by (simpl; congruence).
  eexists. split; [reflexivity|]. rewrite tmap_tabulate.
  unfold bias_gate. simpl. apply tabulate_ext. intros i j Hi Hj.
  unfold bias_rows. rewrite !get_tabulate by (try assumption; lia).
  reflexivity.
Qed.

Lemma tmul_zeros_left (n c : nat) (B : Tensor) :
  rows B = n -> cols B = c -> tmul (zeros n c) B = Ok (zeros n c).
Proof.
  intros Hr Hc. unfold tmul.
  rewrite tzip_same_shape by (simpl; congruence).
  simpl. f_equal.
  transitivity (tabulate n c (fun _ _ => 0)); [|apply tabulate_zero].
  apply tabulate_ext. intros i j _ _.
  rewrite get_zeros. apply Rmult_0_l.
Qed.

Lemma bias_gate_zero (act : R -> R) (n c : nat) :
  bias_gate act n (repeat 0 c) (repeat 0 c) =
  tabulate n c (fun _ _ => act 0).
Proof.
  unfold bias_gate. rewrite repeat_length.
  apply tabulate_ext. intros i j _ _.
  now rewrite !nth_repeat, Rplus_0_l.
Qed.

End ZeroInput.

Section ZeroBoundary.

Variables (self : GConvGRU) (edge_index : EdgeIndex)
          (edge_weight : option EdgeWeight).
Variables (b_xz b_hz b_xr b_hr b_xh b_hh : list R).

Hypothesis bias_xz :
  conv_bias_contract (conv_x_z self) (in_channels self) b_xz.
Hypothesis bias_hz :
  conv_bias_contract (conv_h_z self) (out_channels self) b_hz.
Hypothesis bias_xr :
  conv_bias_contract (conv_x_r self) (in_channels self) b_xr.
Hypothesis bias_hr :
  conv_bias_contract (conv_h_r self) (out_channels self) b_hr.
Hypothesis bias_xh :
  conv_bias_contract (conv_x_h self) (in_channels self) b_xh.
Hypothesis bias_hh :
  conv_bias_contract (conv_h_h self) (out_channels self) b_hh.

Hypothesis widths :
  length b_xz = out_channels self /\ length b_hz = out_channels self /\
  length b_xr = out_channels self /\ length b_hr = out_channels self /\
  length b_xh = out_channels self /\ length b_hh = out_channels self.

Hypothesis topology :
  valid_topology (number_of_nodes self) edge_index edge_weight.

Lemma zero_update_gate :
  _calculate_update_gate (zeros (number_of_nodes self) (in_channels self))
    edge_index edge_weight
    (zeros (number_of_nodes self) (out_channels self)) self =
  (Ok (bias_gate sigmoid (number_of_nodes self) b_xz b_hz), self).
Proof.
  destruct widths as (L1 & L2 & _).
  destruct (bias_rows_sum sigmoid (number_of_nodes self) b_xz b_hz)
    as (S & HS & HZ); [congruence|].
  apply update_gate_Ok. split; [reflexivity|].
  exists (bias_rows (number_of_nodes self) b_xz),
         (bias_rows (number_of_nodes self) b_hz), S.
  repeat split; auto.
Qed.

Lemma zero_reset_gate :
  _calculate_reset_gate (zeros (number_of_nodes self) (in_channels self))
    edge_index edge_weight
    (zeros (number_of_nodes self) (out_channels self)) self =
  (Ok (bias_gate sigmoid (number_of_nodes self) b_xr b_hr), self).
Proof.
  destruct widths as (_ & _ & L3 & L4 & _).
  destruct (bias_rows_sum sigmoid (number_of_nodes self) b_xr b_hr)
    as (S & HS & HZ); [congruence|].
  apply reset_gate_Ok. split; [reflexivity|].
  exists (bias_rows (number_of_nodes self) b_xr),
         (bias_rows (number_of_nodes self) b_hr), S.
  repeat split; auto.
Qed.

Lemma zero_candidate_state (R : Tensor) :
  rows R = number_of_nodes self -> cols R = out_channels self ->
  _calculate_candidate_state
    (zeros (number_of_nodes self) (in_channels self))
    edge_index edge_weight
    (zeros (number_of_nodes self) (out_channels self)) R self =
  (Ok (bias_gate tanh (number_of_nodes self) b_xh b_hh), self).
Proof.
  intros HrR HcR.
  destruct widths as (_ & _ & _ & _ & L5 & L6).
  destruct (bias_rows_sum tanh (number_of_nodes self) b_xh b_hh)
    as (S & HS & HZ); [congruence|].
  apply candidate_state_Ok. split; [reflexivity|].
  exists (bias_rows (number_of_nodes self) b_xh),
         (zeros (number_of_nodes self) (out_channels self)),
         (bias_rows (number_of_nodes self) b_hh), S.
  repeat split; auto.
  now apply tmul_zeros_left.
Qed.

Lemma zero_forward (H : option Tensor) :
  resolved_hidden_state self H =
    zeros (number_of_nodes self) (out_channels self) ->
  forward (zeros (number_of_nodes self) (in_channels self))
    edge_index edge_weight H self =
  (Ok (zeros (number_of_nodes self) (out_channels self)), self).
Proof.
  intros HH. apply forward_Ok. split; [reflexivity|].
  exists (bias_gate sigmoid (number_of_nodes self) b_xz b_hz),
         (bias_gate sigmoid (number_of_nodes self) b_xr b_hr),
         (bias_gate tanh (number_of_nodes self) b_xh b_hh).
  rewrite HH. repeat split.
  - apply zero_update_gate.
  - apply zero_reset_gate.
  - apply zero_candidate_state; simpl; [reflexivity|apply widths].
  - apply tmul_zeros_left; simpl; [reflexivity|apply widths].
Qed.

(** C7. With all-zero features and an all-zero previous hidden state the
    two gates are determined by the operators' biases alone (in every
    row, the sigmoid of the sum of the two bias vectors), and so is the
    candidate state (the hyperbolic tangent of the sum); when the biases
    are zero the gates equal sigmoid(0) = 1/2 everywhere and the
    candidate is the zero matrix; and the call returns the zero matrix. *)
Theorem zero_input_boundary (H : option Tensor) :
  resolved_hidden_state self H =
    zeros (number_of_nodes self) (out_channels self) ->
  let n := number_of_nodes self in
  let c := out_channels self in
  let X := zeros n (in_channels self) in
  let Z := bias_gate sigmoid n b_xz b_hz in
  let R := bias_gate sigmoid n b_xr b_hr in
  let H_t := bias_gate tanh n b_xh b_hh in
  run (_calculate_update_gate X edge_index edge_weight (zeros n c)) self
    = Ok Z /\
  run (_calculate_reset_gate X edge_index edge_weight (zeros n c)) self
    = Ok R /\
  run (_calculate_candidate_state X edge_index edge_weight (zeros n c) R)
    self = Ok H_t /\
  (b_xz = repeat 0 c -> b_hz = repeat 0 c ->
   Z = tabulate n c (fun _ _ => sigmoid 0) /\
   Z = tabulate n c (fun _ _ => 1 / 2)) /\
  (b_xr = repeat 0 c -> b_hr = repeat 0 c ->
   R = tabulate n c (fun _ _ => sigmoid 0) /\
   R = tabulate n c (fun _ _ => 1 / 2)) /\
  (b_xh = repeat 0 c -> b_hh = repeat 0 c -> H_t = zeros n c) /\
  run (forward X edge_index edge_weight H) self = Ok (zeros n c).
Proof.
  intros HH n c X Z R H_t. subst n c X Z R H_t. unfold run.
  rewrite zero_update_gate, zero_reset_gate, (zero_forward H HH).
  rewrite zero_candidate_state
    by (simpl; first [reflexivity | apply widths]).
  simpl. repeat split.
  - subst. apply bias_gate_zero.
  - subst. rewrite bias_gate_zero.
    apply tabulate_ext. intros. apply sigmoid_0.
  - subst. apply bias_gate_zero.
  - subst. rewrite bias_gate_zero.
    apply tabulate_ext. intros. apply sigmoid_0.
  - intros -> ->. rewrite bias_gate_zero, <- tabulate_zero.
    apply tabulate_ext. intros. apply tanh_0.
Qed.

End ZeroBoundary.

(** ** The final combination *)

Section Combination.

Variables (self : GConvGRU) (X : Tensor) (edge_index : EdgeIndex)
          (edge_weight : option EdgeWeight).

Lemma update_gate_well_formed (H Z : Tensor) (s' : GConvGRU) :
  _calculate_update_gate X edge_index edge_weight H self = (Ok Z, s') ->
  well_formed Z.
Proof.
  intros HZ. apply update_gate_Ok in HZ.
  destruct HZ as [_ (A & B & S & _ & _ & HS & ->)].
  apply tmap_well_formed, (tzip_well_formed _ _ _ _ HS).
Qed.

Lemma reset_gate_well_formed (H R : Tensor) (s' : GConvGRU) :
  _calculate_reset_gate X edge_index edge_weight H self = (Ok R, s') ->
  well_formed R.
Proof.
  intros HR. apply reset_gate_Ok in HR.
  destruct HR as [_ (A & B & S & _ & _ & HS & ->)].
  apply tmap_well_formed, (tzip_well_formed _ _ _ _ HS).
Qed.

Lemma candidate_state_well_formed (H R H_t : Tensor) (s' : GConvGRU) :
  _calculate_candidate_state X edge_index edge_weight H R self
    = (Ok H_t, s') ->
  well_formed H_t.
Proof.
  intros HC. apply candidate_state_Ok in HC.
  destruct HC as [_ (A & HR & B & S & _ & _ & _ & HS & ->)].
  apply tmap_well_formed, (tzip_well_formed _ _ _ _ HS).
Qed.

(** Every entry of the product [O * tanh(C)]. *)
Lemma combination_entry (O C H' : Tensor) (i j : nat) :
  well_formed C ->
  tmul O (ttanh C) = Ok H' ->
  (i < rows H')%nat -> (j < cols H')%nat ->
  (bidx (rows C) i < rows C)%nat /\ (bidx (cols C) j < cols C)%nat /\
  get H' i j = get O (bidx (rows O) i) (bidx (cols O) j) *
               tanh (get C (bidx (rows C) i) (bidx (cols C) j)).
Proof.
  intros Hwf Hmul Hi Hj.
  pose proof (tzip_Ok _ _ _ _ Hmul) as (Hbr & Hbc & _).
  assert (Hri : (bidx (rows C) i < rows C)%nat)
    by (apply (bidx_right_in_range _ _ _ _ Hbr Hi)).
  assert (Hcj : (bidx (cols C) j < cols C)%nat)
    by (apply (bidx_right_in_range _ _ _ _ Hbc Hj)).
  repeat split; try assumption.
  rewrite (get_tzip Rmult _ _ _ _ _ Hmul Hi Hj). f_equal.
  unfold ttanh. now rewrite get_tmap.
Qed.

(** The call neither reads nor returns anything of the update gate: with
    any other pair of update operators that also return, the call returns
    (or raises) the same. *)
Lemma update_gate_not_consumed (H : option Tensor) (f_x f_h : GraphConv)
    (Z Z' : Tensor) :
  run (_calculate_update_gate X edge_index edge_weight
         (resolved_hidden_state self H)) self = Ok Z ->
  run (_calculate_update_gate X edge_index edge_weight
         (resolved_hidden_state self H))
      (with_update_operators self f_x f_h) = Ok Z' ->
  run (forward X edge_index edge_weight H)
      (with_update_operators self f_x f_h) =
  run (forward X edge_index edge_weight H) self.
Proof.
  unfold run. rewrite !forward_spec, !update_gate_spec. simpl.
  intros HZ HZ'. unfold spec_forward.
  replace (resolved_hidden_state (with_update_operators self f_x f_h) H)
    with (resolved_hidden_state self H) by (destruct H; reflexivity).
  rewrite HZ, HZ'. reflexivity.
Qed.

End Combination.

(** In the scenario with all-zero features the conventional combination
    [Z*H + (1-Z)*H_t] is positive where the call returns zero. *)
Lemma conventional_combination_differs :
  exists Z H_t H',
    run (_calculate_update_gate (zeros 4 2) complete_graph_4 None
           (zeros 4 3)) example_cell = Ok Z /\
    (exists R,
       run (_calculate_reset_gate (zeros 4 2) complete_graph_4 None
              (zeros 4 3)) example_cell = Ok R /\
       run (_calculate_candidate_state (zeros 4 2) complete_graph_4 None
              (zeros 4 3) R) example_cell = Ok H_t) /\
    run (forward (zeros 4 2) complete_graph_4 None None) example_cell
      = Ok H' /\
    get H' 0 0 = 0 /\
    0 < conventional_entry (get Z 0 0) (get (zeros 4 3) 0 0) (get H_t 0 0).
Proof.
  exists (bias_gate sigmoid 4 (repeat 0 3) (repeat 0 3)),
         (bias_gate tanh 4 (repeat 1 3) (repeat 0 3)), (zeros 4 3).
  assert (Hside :
    length (repeat 0 3) = 3%nat /\ length (repeat 0 3) = 3%nat /\
    length (repeat 0 3) = 3%nat /\ length (repeat 0 3) = 3%nat /\
    length (repeat 1 3) = 3%nat /\ length (repeat 0 3) = 3%nat)
    by (repeat split; reflexivity).
  assert (Htop : valid_topology 4 complete_graph_4 None)
    by apply complete_graph_4_valid.
  unfold run. split; [|split; [|split; [|split]]].
  - apply (f_equal fst
             (zero_update_gate example_cell complete_graph_4 None
                (repeat 0 3) (repeat 0 3) (repeat 0 3) (repeat 0 3)
                (repeat 1 3) (repeat 0 3)
                (const_cheb1_bias_contract 2 3 1 0)
                (const_cheb1_bias_contract 3 3 1 0) Hside Htop)).
  - exists (bias_gate sigmoid 4 (repeat 0 3) (repeat 0 3)). split.
    + apply (f_equal fst
               (zero_reset_gate example_cell complete_graph_4 None
                  (repeat 0 3) (repeat 0 3) (repeat 0 3) (repeat 0 3)
                  (repeat 1 3) (repeat 0 3)
                  (const_cheb1_bias_contract 2 3 1 0)
                  (const_cheb1_bias_contract 3 3 1 0) Hside Htop)).
    + apply (f_equal fst
               (zero_candidate_state example_cell complete_graph_4 None
                  (repeat 0 3) (repeat 0 3) (repeat 0 3) (repeat 0 3)
                  (repeat 1 3) (repeat 0 3)
                  (const_cheb1_bias_contract 2 3 1 1)
                  (const_cheb1_bias_contract 3 3 1 0) Hside Htop
                  (bias_gate sigmoid 4 (repeat 0 3) (repeat 0 3))
                  eq_refl eq_refl)).
  - apply (f_equal fst
             (zero_forward example_cell complete_graph_4 None
                (repeat 0 3) (repeat 0 3) (repeat 0 3) (repeat 0 3)
                (repeat 1 3) (repeat 0 3)
                (const_cheb1_bias_contract 2 3 1 0)
                (const_cheb1_bias_contract 3 3 1 0)
                (const_cheb1_bias_contract 2 3 1 0)
                (const_cheb1_bias_contract 3 3 1 0)
                (const_cheb1_bias_contract 2 3 1 1)
                (const_cheb1_bias_contract 3 3 1 0) Hside Htop
                None eq_refl)).
  - apply get_zeros.
  - rewrite get_zeros. unfold bias_gate.
    rewrite !get_tabulate by (simpl; lia). simpl.
    unfold conventional_entry.
    pose proof (sigmoid_range (0 + 0)) as Hs.
    assert (Ht : 0 < tanh (1 + 0))
      by (rewrite <- tanh_0 at 1; apply tanh_increasing; lra).
    nra.
Qed.

(** C1. The hidden state returned by [forward] is the elementwise product
    of the previous hidden state (after defaulting) with tanh of the
    candidate state, H_new = H * tanh(H_t).  The update gate is computed
    during the call but nothing of it reaches the result: replacing the two
    update operators by any others that return leaves the result
    unchanged, and the conventional combination Z*H + (1-Z)*H_t is not
    what is returned. *)
Theorem final_hidden_state_combination (self : GConvGRU) (X : Tensor)
    (edge_index : EdgeIndex) (edge_weight : option EdgeWeight)
    (H : option Tensor) :
  let H0 := resolved_hidden_state self H in
  run (forward X edge_index edge_weight H) self =
    spec_forward self X edge_index edge_weight H /\
  (forall H',
     run (forward X edge_index edge_weight H) self = Ok H' ->
     exists Z R H_t,
       run (_calculate_update_gate X edge_index edge_weight H0) self
         = Ok Z /\
       run (_calculate_reset_gate X edge_index edge_weight H0) self
         = Ok R /\
       run (_calculate_candidate_state X edge_index edge_weight H0 R) self
         = Ok H_t /\
       tmul H0 (ttanh H_t) = Ok H' /\
       forall i j, (i < rows H')%nat -> (j < cols H')%nat ->
         get H' i j =
         get H0 (bidx (rows H0) i) (bidx (cols H0) j) *
         tanh (get H_t (bidx (rows H_t) i) (bidx (cols H_t) j))) /\
  (forall f_x f_h Z Z',
     run (_calculate_update_gate X edge_index edge_weight H0) self
       = Ok Z ->
     run (_calculate_update_gate X edge_index edge_weight H0)
       (with_update_operators self f_x f_h) = Ok Z' ->
     run (forward X edge_index edge_weight H)
       (with_update_operators self f_x f_h) =
     run (forward X edge_index edge_weight H) self) /\
  (exists Z H_t H',
     run (_calculate_update_gate (zeros 4 2) complete_graph_4 None
            (zeros 4 3)) example_cell = Ok Z /\
     (exists R,
        run (_calculate_reset_gate (zeros 4 2) complete_graph_4 None
               (zeros 4 3)) example_cell = Ok R /\
        run (_calculate_candidate_state (zeros 4 2) complete_graph_4 None
               (zeros 4 3) R) example_cell = Ok H_t) /\
     run (forward (zeros 4 2) complete_graph_4 None None) example_cell
       = Ok H' /\
     get H' 0 0 = 0 /\
     0 < conventional_entry (get Z 0 0) (get (zeros 4 3) 0 0)
           (get H_t 0 0)).
Proof.
  intros H0. split; [|split; [|split]].
  - unfold run. now rewrite forward_spec.
  - intros H' Hrun.
    assert (Hf : forward X edge_index edge_weight H self = (Ok H', self)).
    { rewrite (read_only_run _ self (forward_read_only _ _ _ _)).
      now rewrite Hrun. }
    apply forward_Ok in Hf.
    destruct Hf as [_ (Z & R & H_t & HZ & HR & HC & Hmul)].
    exists Z, R, H_t. unfold run. fold H0 in HZ, HR, HC, Hmul.
    rewrite HZ, HR, HC. repeat split; try assumption.
    intros i j Hi Hj.
    apply (combination_entry H0 H_t H' i j); try assumption.
    apply (candidate_state_well_formed _ _ _ _ _ _ _ _ HC).
  - intros f_x f_h Z Z'. apply update_gate_not_consumed.
  - exact conventional_combination_differs.
Qed.

(** ** The default hidden state *)

(** C5. Calling [forward] without H returns what calling it with the zero
    matrix of shape (number_of_nodes, out_channels) returns; the
    substituted default depends on the two configured integers only, not
    on the features. *)
Theorem default_hidden_state (self : GConvGRU) (X X' : Tensor)
    (edge_index : EdgeIndex) (edge_weight : option EdgeWeight) :
  forward X edge_index edge_weight None self =
  forward X edge_index edge_weight
    (Some (zeros (number_of_nodes self) (out_channels self))) self /\
  _set_hidden_state X None self =
    (Ok (zeros (number_of_nodes self) (out_channels self)), self) /\
  _set_hidden_state X None self = _set_hidden_state X' None self.
Proof. repeat split. Qed.

(** ** The shape of the result *)

(** C4. On inputs of the documented shapes (X with one row per node and
    in_channels columns, a topology over the nodes, H absent or of shape
    number_of_nodes x out_channels) the call returns a matrix of shape
    (number_of_nodes, out_channels), whatever in_channels is. *)
Theorem output_shape (self : GConvGRU) (X : Tensor)
    (edge_index : EdgeIndex) (edge_weight : option EdgeWeight)
    (H : option Tensor) :
  valid_cell self ->
  valid_input self X edge_index edge_weight H ->
  exists H',
    run (forward X edge_index edge_weight H) self = Ok H' /\
    shape H' = (number_of_nodes self, out_channels self).
Proof.
  intros Hcell Hin.
  destruct (forward_returns self X edge_index edge_weight H Hcell Hin)
    as (H' & Hf & Hr & Hc).
  exists H'. unfold run, shape. rewrite Hf, Hr, Hc. now split.
Qed.

(** ** Order of the two gates *)

Lemma forward_reset_first_spec (self : GConvGRU) (X : Tensor)
    (edge_index : EdgeIndex) (edge_weight : option EdgeWeight)
    (H : option Tensor) :
  forward_reset_first X edge_index edge_weight H self =
  (let H0 := resolved_hidden_state self H in
   and_then (spec_reset_gate self X edge_index edge_weight H0) (fun R =>
   and_then (spec_update_gate self X edge_index edge_weight H0) (fun _ =>
   and_then (spec_candidate_state self X edge_index edge_weight H0 R)
     (fun H_t => tmul H0 (ttanh H_t)))), self).
Proof.
  unfold forward_reset_first, bind.
  rewrite set_hidden_state_eq, reset_gate_spec. simpl.
  destruct (spec_reset_gate self X edge_index edge_weight
              (resolved_hidden_state self H)) as [R|e]; simpl;
    [|reflexivity].
  rewrite update_gate_spec.
  destruct (spec_update_gate self X edge_index edge_weight
              (resolved_hidden_state self H)) as [Z|e]; simpl;
    [|reflexivity].
  rewrite candidate_state_spec.
  destruct (spec_candidate_state self X edge_index edge_weight
              (resolved_hidden_state self H) R) as [H_t|e]; simpl;
    [|reflexivity].
  rewrite hidden_state_spec.
  destruct (tmul (resolved_hidden_state self H) (ttanh H_t)); reflexivity.
Qed.

Lemma gates_update_first_spec (self : GConvGRU) (X : Tensor)
    (edge_index : EdgeIndex) (edge_weight : option EdgeWeight)
    (H : Tensor) :
  gates_update_first X edge_index edge_weight H self =
  (and_then (spec_update_gate self X edge_index edge_weight H) (fun Z =>
   and_then (spec_reset_gate self X edge_index edge_weight H) (fun R =>
   Ok (Z, R))), self).
Proof.
  unfold gates_update_first, bind. rewrite update_gate_spec.
  destruct (spec_update_gate self X edge_index edge_weight H) as [Z|e];
    simpl; [|reflexivity].
  rewrite reset_gate_spec.
  destruct (spec_reset_gate self X edge_index edge_weight H); reflexivity.
Qed.

Lemma gates_reset_first_spec (self : GConvGRU) (X : Tensor)
    (edge_index : EdgeIndex) (edge_weight : option EdgeWeight)
    (H : Tensor) :
  gates_reset_first X edge_index edge_weight H self =
  (and_then (spec_reset_gate self X edge_index edge_weight H) (fun R =>
   and_then (spec_update_gate self X edge_index edge_weight H) (fun Z =>
   Ok (Z, R))), self).
Proof.
  unfold gates_reset_first, bind. rewrite reset_gate_spec.
  destruct (spec_reset_gate self X edge_index edge_weight H) as [R|e];
    simpl; [|reflexivity].
  rewrite update_gate_spec.
  destruct (spec_update_gate self X edge_index edge_weight H); reflexivity.
Qed.

(** C9. The update gate and the reset gate depend on (X, H, topology) and
    on their own operators, not on each other: each is unchanged when the
    other gate's operators are replaced, computing R before Z yields the
    same pair of gates, and [forward] with the two lines exchanged returns
    the same hidden state (and raises exactly when [forward] raises). *)
Theorem gates_independent (self : GConvGRU) (X : Tensor)
    (edge_index : EdgeIndex) (edge_weight : option EdgeWeight)
    (H : option Tensor) :
  let H0 := resolved_hidden_state self H in
  (forall f_x f_h,
     run (_calculate_update_gate X edge_index edge_weight H0)
         (with_reset_operators self f_x f_h) =
     run (_calculate_update_gate X edge_index edge_weight H0) self) /\
  (forall f_x f_h,
     run (_calculate_reset_gate X edge_index edge_weight H0)
         (with_update_operators self f_x f_h) =
     run (_calculate_reset_gate X edge_index edge_weight H0) self) /\
  (forall Z R,
     run (gates_update_first X edge_index edge_weight H0) self
       = Ok (Z, R) <->
     run (gates_reset_first X edge_index edge_weight H0) self
       = Ok (Z, R)) /\
  (forall Z R,
     run (gates_update_first X edge_index edge_weight H0) self
       = Ok (Z, R) <->
     run (_calculate_update_gate X edge_index edge_weight H0) self = Ok Z /\
     run (_calculate_reset_gate X edge_index edge_weight H0) self = Ok R) /\
  (forall H',
     run (forward X edge_index edge_weight H) self = Ok H' <->
     run (forward_reset_first X edge_index edge_weight H) self = Ok H') /\
  ((exists e, run (forward X edge_index edge_weight H) self = Err e) <->
   (exists e, run (forward_reset_first X edge_index edge_weight H) self
                = Err e)).
Proof.
  intros H0. unfold run.
  split; [intros; now rewrite !update_gate_spec|].
  split; [intros; now rewrite !reset_gate_spec|].
  rewrite forward_spec, forward_reset_first_spec.
  rewrite gates_update_first_spec, gates_reset_first_spec.
  rewrite !update_gate_spec, !reset_gate_spec. simpl.
  unfold spec_forward. fold H0.
  destruct (spec_update_gate self X edge_index edge_weight H0) as [Z0|ez];
    destruct (spec_reset_gate self X edge_index edge_weight H0) as [R0|er];
    simpl.
  all: repeat split; intros;
    repeat match goal with
      | Hc : _ /\ _ |- _ => destruct Hc
      | Hc : exists _, _ |- _ => destruct Hc
      end;
    try discriminate;
    repeat match goal with
      | Hc : Ok _ = Ok _ |- _ => inversion Hc; clear Hc; subst
      end;
    try tauto; eauto.
Qed.

(** ** The theorems at the concrete scenario *)

Lemma final_hidden_state_combination_witness :
  exists H',
    run (forward (ones 4 2) complete_graph_4 None None) example_cell
      = Ok H' /\
    exists Z R H_t,
      run (_calculate_update_gate (ones 4 2) complete_graph_4 None
             (zeros 4 3)) example_cell = Ok Z /\
      run (_calculate_reset_gate (ones 4 2) complete_graph_4 None
             (zeros 4 3)) example_cell = Ok R /\
      run (_calculate_candidate_state (ones 4 2) complete_graph_4 None
             (zeros 4 3) R) example_cell = Ok H_t /\
      tmul (zeros 4 3) (ttanh H_t) = Ok H' /\
      get H' 1 2 =
      get (zeros 4 3) 1 2 *
      tanh (get H_t (bidx (rows H_t) 1) (bidx (cols H_t) 2)).
Proof.
  assert (E : { H' | run (forward (ones 4 2) complete_graph_4 None None)
                       example_cell = Ok H' /\ shape H' = (4%nat, 3%nat) })
    by (eexists; split; reflexivity).
  destruct E as (H' & Hrun & Hshape).
  exists H'. split; [exact Hrun|].
  destruct (final_hidden_state_combination example_cell (ones 4 2)
              complete_graph_4 None None) as (_ & Hentry & _).
  destruct (Hentry _ Hrun) as (Z & R & H_t & HZ & HR & HC & Hmul & He).
  exists Z, R, H_t. repeat split; try assumption.
  pose proof (f_equal fst Hshape) as Hr.
  pose proof (f_equal snd Hshape) as Hc. simpl in Hr, Hc.
  refine (He 1%nat 2%nat _ _); rewrite ?Hr, ?Hc; lia.
Defined.

Lemma gate_formulas_witness :
  exists Z,
    run (_calculate_update_gate (ones 4 2) complete_graph_4 None
           (ones 4 3)) example_cell = Ok Z /\
    exists A B,
      conv_x_z example_cell (ones 4 2) complete_graph_4 None = Ok A /\
      conv_h_z example_cell (ones 4 3) complete_graph_4 None = Ok B /\
      get Z 3 2 =
      sigmoid (get A (bidx (rows A) 3) (bidx (cols A) 2) +
               get B (bidx (rows B) 3) (bidx (cols B) 2)).
Proof.
  assert (E : { Z | run (_calculate_update_gate (ones 4 2) complete_graph_4
                           None (ones 4 3)) example_cell = Ok Z /\
                    shape Z = (4%nat, 3%nat) })
    by (eexists; split; reflexivity).
  destruct E as (Z & Hrun & Hshape).
  exists Z. split; [exact Hrun|].
  destruct (gate_formulas example_cell (ones 4 2) complete_graph_4 None
              (ones 4 3) (ones 4 3) None) as (_ & _ & HZ & _).
  destruct (HZ _ Hrun) as (A & B & HA & HB & He).
  exists A, B. repeat split; try assumption.
  pose proof (f_equal fst Hshape) as Hr.
  pose proof (f_equal snd Hshape) as Hc. simpl in Hr, Hc.
  apply (He 3%nat 2%nat); rewrite ?Hr, ?Hc; lia.
Defined.

Lemma output_shape_witness :
  exists H',
    run (forward (ones 4 2) complete_graph_4 None (Some (ones 4 3)))
      example_cell = Ok H' /\
    shape H' = (4%nat, 3%nat).
Proof.
  apply (output_shape example_cell (ones 4 2) complete_graph_4 None
           (Some (ones 4 3))).
  - apply example_cell_valid.
  - apply (example_input_valid (Some (ones 4 3))). split; reflexivity.
Defined.

Lemma zero_input_boundary_witness :
  run (forward (zeros 4 2) complete_graph_4 None None) example_cell
    = Ok (zeros 4 3) /\
  run (_calculate_update_gate (zeros 4 2) complete_graph_4 None (zeros 4 3))
    example_cell = Ok (tabulate 4 3 (fun _ _ => 1 / 2)).
Proof.
  assert (Hside :
    length (repeat 0 3) = 3%nat /\ length (repeat 0 3) = 3%nat /\
    length (repeat 0 3) = 3%nat /\ length (repeat 0 3) = 3%nat /\
    length (repeat 1 3) = 3%nat /\ length (repeat 0 3) = 3%nat)
    by (repeat split; reflexivity).
  destruct (zero_input_boundary example_cell complete_graph_4 None
              (repeat 0 3) (repeat 0 3) (repeat 0 3) (repeat 0 3)
              (repeat 1 3) (repeat 0 3)
              (const_cheb1_bias_contract 2 3 1 0)
              (const_cheb1_bias_contract 3 3 1 0)
              (const_cheb1_bias_contract 2 3 1 0)
              (const_cheb1_bias_contract 3 3 1 0)
              (const_cheb1_bias_contract 2 3 1 1)
              (const_cheb1_bias_contract 3 3 1 0)
              Hside complete_graph_4_valid None eq_refl)
    as (HZ & _ & _ & HZ0 & _ & _ & Hf).
  split; [exact Hf|].
  destruct (HZ0 eq_refl eq_refl) as [_ Hhalf].
  exact (eq_trans HZ (f_equal Ok Hhalf)).
Defined.

Lemma gates_independent_witness :
  exists H',
    run (forward (ones 4 2) complete_graph_4 None (Some (ones 4 3)))
      example_cell = Ok H' /\
    run (forward_reset_first (ones 4 2) complete_graph_4 None
           (Some (ones 4 3))) example_cell = Ok H'.
Proof.
  assert (E : { H' | run (forward (ones 4 2) complete_graph_4 None
                            (Some (ones 4 3))) example_cell = Ok H' })
    by (eexists; reflexivity).
  destruct E as (H' & Hrun).
  destruct (gates_independent example_cell (ones 4 2) complete_graph_4 None
              (Some (ones 4 3))) as (_ & _ & _ & _ & Hswap & _).
  exists H'. split; [exact Hrun|]. apply Hswap. exact Hrun.
Defined.

(** * Further properties of the code *)

(** ** Exceptions of a call *)

Section Exceptions.

Lemma tzip_Err (f : R -> R -> R) (A B : Tensor) (e : exn) :
  tzip f A B = Err e -> e = ShapeMismatch.
Proof.
  unfold tzip.
  destruct (broadcast_dim (rows A) (rows B));
    destruct (broadcast_dim (cols A) (cols B)); intros Heq;
    now inversion Heq.
Qed.

Lemma tzip_refused (f : R -> R -> R) (A B : Tensor) :
  broadcast_dim (rows A) (rows B) = None \/
  broadcast_dim (cols A) (cols B) = None ->
  tzip f A B = Err ShapeMismatch.
Proof.
  unfold tzip. intros [-> | ->]; [reflexivity|].
  now destruct (broadcast_dim (rows A) (rows B)).
Qed.

Lemma broadcast_dim_refused (a b : nat) :
  a <> b -> a <> 1%nat -> b <> 1%nat -> broadcast_dim a b = None.
Proof.
  intros Hab Ha Hb. unfold broadcast_dim.
  destruct (Nat.eqb_spec a b); [contradiction|].
  destruct (Nat.eqb_spec a 1); [contradiction|].
  destruct (Nat.eqb_spec b 1); [contradiction|]. reflexivity.
Qed.

Lemma broadcast_dim_one_l (b : nat) : broadcast_dim 1 b = Some b.
Proof.
  unfold broadcast_dim. destruct (Nat.eqb_spec 1 b) as [<-|_]; reflexivity.
Qed.

Variables (self : GConvGRU) (X : Tensor) (edge_index : EdgeIndex)
          (edge_weight : option EdgeWeight).

Lemma gate_sum_Err (f_x f_h : GraphConv) (H : Tensor) (act : R -> R)
    (e : exn) :
  and_then (f_x X edge_index edge_weight) (fun A =>
  and_then (f_h H edge_index edge_weight) (fun B =>
  and_then (tadd A B) (fun S => Ok (tmap act S)))) = Err e ->
  e = ShapeMismatch \/
  f_x X edge_index edge_weight = Err e \/
  f_h H edge_index edge_weight = Err e.
Proof.
  unfold and_then.
  destruct (f_x X edge_index edge_weight) as [A|e1]; [|intros [= ->]; auto].
  destruct (f_h H edge_index edge_weight) as [B|e2]; [|intros [= ->]; auto].
  destruct (tadd A B) as [S|e3] eqn:HS; [discriminate|].
  intros [= ->]. left. exact (tzip_Err _ _ _ _ HS).
Qed.

Lemma candidate_state_Err (H R : Tensor) (e : exn) :
  spec_candidate_state self X edge_index edge_weight H R = Err e ->
  e = ShapeMismatch \/
  conv_x_h self X edge_index edge_weight = Err e \/
  exists HR, tmul H R = Ok HR /\
             conv_h_h self HR edge_index edge_weight = Err e.
Proof.
  unfold spec_candidate_state, and_then.
  destruct (conv_x_h self X edge_index edge_weight) as [A|e1];
    [|intros [= ->]; auto].
  destruct (tmul H R) as [HR|e2] eqn:HHR;
    [|intros [= ->]; left; exact (tzip_Err _ _ _ _ HHR)].
  destruct (conv_h_h self HR edge_index edge_weight) as [B|e3] eqn:HB;
    [|intros [= ->]; right; right; now exists HR].
  destruct (tadd A B) as [S|e4] eqn:HS; [discriminate|].
  intros [= ->]. left. exact (tzip_Err _ _ _ _ HS).
Qed.

(** X1. With the hidden state supplied, a call raises nothing of its own
    making except the broadcasting mismatch of [+] and [*]: whatever
    [forward] raises is either that mismatch or the very exception that
    one of the six operators raised on the features the call passed to
    it. *)
Theorem forward_raises_only_from_operators (H : Tensor) (e : exn) :
  run (forward X edge_index edge_weight (Some H)) self = Err e ->
  e = ShapeMismatch \/
  conv_x_z self X edge_index edge_weight = Err e \/
  conv_h_z self H edge_index edge_weight = Err e \/
  conv_x_r self X edge_index edge_weight = Err e \/
  conv_h_r self H edge_index edge_weight = Err e \/
  conv_x_h self X edge_index edge_weight = Err e \/
  exists R HR,
    run (_calculate_reset_gate X edge_index edge_weight H) self = Ok R /\
    tmul H R = Ok HR /\
    conv_h_h self HR edge_index edge_weight = Err e.
Proof.
  unfold run. rewrite forward_spec, reset_gate_spec. simpl.
  unfold spec_forward.
  change (resolved_hidden_state self (Some H)) with H.
  set (H0 := H).
  destruct (spec_update_gate self X edge_index edge_weight H0)
    as [Z|ez] eqn:HZ; simpl.
  - destruct (spec_reset_gate self X edge_index edge_weight H0)
      as [R|er] eqn:HR; simpl.
    + destruct (spec_candidate_state self X edge_index edge_weight H0 R)
        as [H_t|ec] eqn:HC; simpl.
      * intros Hmul. left. exact (tzip_Err _ _ _ _ Hmul).
      * intros [= ->]. apply candidate_state_Err in HC.
        destruct HC as [-> | [HC | (HR' & Hmul & HC)]]; auto 10.
        do 6 right. exists R, HR'. auto.
    + intros [= ->]. apply gate_sum_Err in HR. tauto.
  - intros [= ->]. apply gate_sum_Err in HZ. tauto.
Qed.

(** X2. Although nothing of the update gate reaches the result, its
    failure fails the call: an exception of either update operator is the
    exception of [forward], and update operators whose outputs cannot be
    broadcast together make [forward] raise the shape mismatch. *)
Theorem update_gate_failure_fails_forward (H : option Tensor) :
  (forall e,
     conv_x_z self X edge_index edge_weight = Err e ->
     run (forward X edge_index edge_weight H) self = Err e) /\
  (forall A e,
     conv_x_z self X edge_index edge_weight = Ok A ->
     conv_h_z self (resolved_hidden_state self H) edge_index edge_weight
       = Err e ->
     run (forward X edge_index edge_weight H) self = Err e) /\
  (forall A B,
     conv_x_z self X edge_index edge_weight = Ok A ->
     conv_h_z self (resolved_hidden_state self H) edge_index edge_weight
       = Ok B ->
     broadcast_dim (rows A) (rows B) = None \/
     broadcast_dim (cols A) (cols B) = None ->
     run (forward X edge_index edge_weight H) self = Err ShapeMismatch).
Proof.
  unfold run. rewrite forward_spec. simpl.
  unfold spec_forward, spec_update_gate, and_then.
  split; [|split].
  - intros e ->. reflexivity.
  - intros A e -> ->. reflexivity.
  - intros A B -> -> Hb. unfold tadd. now rewrite (tzip_refused _ _ _ Hb).
Qed.

(** X6. The four configured integers matter to a call only through the
    default hidden state: two cells that hold the same operators and
    resolve H alike return (or raise) the same, so with H supplied neither
    number_of_nodes nor the channel counts nor K are consulted. *)
Theorem forward_ignores_configuration (other : GConvGRU)
    (H : option Tensor) :
  same_operators self other ->
  resolved_hidden_state self H = resolved_hidden_state other H ->
  run (forward X edge_index edge_weight H) self =
  run (forward X edge_index edge_weight H) other.
Proof.
  intros (Hxz & Hhz & Hxr & Hhr & Hxh & Hhh) HH.
  unfold run. rewrite !forward_spec. simpl.
  unfold spec_forward, spec_update_gate, spec_reset_gate,
    spec_candidate_state.
  now rewrite Hxz, Hhz, Hxr, Hhr, Hxh, Hhh, HH.
Qed.

End Exceptions.

(** ** Node counts that disagree *)

Section NodeCounts.

Variable self : GConvGRU.
Hypothesis cell_ok : valid_cell self.

Variables (X : Tensor) (edge_index : EdgeIndex)
          (edge_weight : option EdgeWeight).
Hypothesis width_ok : cols X = in_channels self.
Hypothesis topology_X : valid_topology (rows X) edge_index edge_weight.

(** X3. With H omitted, features whose row count differs from the
    configured number_of_nodes are refused (when neither count is 1, which
    broadcasting would stretch): the default state has number_of_nodes
    rows, the two update operators return matrices of different row
    counts, and their sum raises the shape mismatch, which [forward]
    raises. *)
Theorem node_count_mismatch_raises :
  valid_topology (number_of_nodes self) edge_index edge_weight ->
  rows X <> number_of_nodes self ->
  rows X <> 1%nat -> number_of_nodes self <> 1%nat ->
  run (_calculate_update_gate X edge_index edge_weight
         (zeros (number_of_nodes self) (out_channels self))) self
    = Err ShapeMismatch /\
  run (forward X edge_index edge_weight None) self = Err ShapeMismatch.
Proof.
  intros Htop Hne HX1 Hn1.
  destruct cell_ok as (Hxz & Hhz & _).
  destruct (Hxz X edge_index edge_weight width_ok topology_X)
    as (A & HA & HrA & _).
  destruct (Hhz (zeros (number_of_nodes self) (out_channels self))
              edge_index edge_weight eq_refl Htop) as (B & HB & HrB & _).
  simpl in HrB.
  assert (Hsum : tadd A B = Err ShapeMismatch).
  { apply tzip_refused. left. rewrite HrA, HrB.
    now apply broadcast_dim_refused. }
  assert (HZ : spec_update_gate self X edge_index edge_weight
                 (zeros (number_of_nodes self) (out_channels self))
               = Err ShapeMismatch).
  { unfold spec_update_gate, and_then. now rewrite HA, HB, Hsum. }
  unfold run. rewrite update_gate_spec, forward_spec. simpl.
  split; [exact HZ|]. unfold spec_forward. simpl. now rewrite HZ.
Qed.

(** X4. A supplied hidden state with a single row is not refused but
    stretched: on features with n rows the call returns a matrix with n
    rows and out_channels columns, not one of the shape of H, and entry
    (i,j) of the result is entry (0,j) of H times tanh of entry (i,j) of
    the candidate state, which has n rows as well. *)
Theorem single_row_hidden_state_is_stretched (H : Tensor) :
  valid_topology 1 edge_index edge_weight ->
  rows H = 1%nat -> cols H = out_channels self ->
  exists H' R H_t,
    run (forward X edge_index edge_weight (Some H)) self = Ok H' /\
    shape H' = (rows X, out_channels self) /\
    run (_calculate_reset_gate X edge_index edge_weight H) self = Ok R /\
    run (_calculate_candidate_state X edge_index edge_weight H R) self
      = Ok H_t /\
    shape H_t = (rows X, out_channels self) /\
    forall i j, (i < rows X)%nat -> (j < out_channels self)%nat ->
      get H' i j = get H 0 j * tanh (get H_t i j).
Proof.
  intros Htop1 HrH HcH.
  destruct cell_ok as (Hxz & Hhz & Hxr & Hhr & Hxh & Hhh).
  assert (HtopH : valid_topology (rows H) edge_index edge_weight)
    by (now rewrite HrH).
  (* update gate *)
  destruct (Hxz X edge_index edge_weight width_ok topology_X)
    as (Az & HAz & HrAz & HcAz & _).
  destruct (Hhz H edge_index edge_weight HcH HtopH)
    as (Bz & HBz & HrBz & HcBz & _).
  assert (HSz : exists Sz, tadd Az Bz = Ok Sz).
  { unfold tadd, tzip. rewrite HrBz, HrH, broadcast_dim_one_r, HcAz, HcBz,
      broadcast_dim_same. eauto. }
  destruct HSz as (Sz & HSz).
  (* reset gate *)
  destruct (Hxr X edge_index edge_weight width_ok topology_X)
    as (Ar & HAr & HrAr & HcAr & _).
  destruct (Hhr H edge_index edge_weight HcH HtopH)
    as (Br & HBr & HrBr & HcBr & _).
  assert (HSr : exists Sr, tadd Ar Br = Ok Sr /\ rows Sr = rows X /\
                           cols Sr = out_channels self).
  { unfold tadd, tzip. rewrite HrBr, HrH, broadcast_dim_one_r, HcAr, HcBr,
      broadcast_dim_same. eexists. split; [reflexivity|]. simpl. auto. }
  destruct HSr as (Sr & HSr & HrSr & HcSr).
  (* candidate state *)
  assert (HHR : exists HR, tmul H (tsigmoid Sr) = Ok HR /\
                           rows HR = rows X /\
                           cols HR = out_channels self).
  { unfold tmul, tzip. simpl.
    rewrite HrH, broadcast_dim_one_l, HcH, HcSr, broadcast_dim_same.
    eexists. split; [reflexivity|]. simpl. auto. }
  destruct HHR as (HR & HHR & HrHR & HcHR).
  destruct (Hxh X edge_index edge_weight width_ok topology_X)
    as (Ah & HAh & HrAh & HcAh & _).
  destruct (Hhh HR edge_index edge_weight HcHR)
    as (Bh & HBh & HrBh & HcBh & _); [now rewrite HrHR|].
  destruct (tzip_shape Rplus Ah Bh (rows X) (out_channels self))
    as (Sh & HSh & HrSh & HcSh & _); try congruence.
  assert (HH' : exists H', tmul H (ttanh (ttanh Sh)) = Ok H' /\
                           rows H' = rows X /\
                           cols H' = out_channels self).
  { unfold tmul, tzip. simpl.
    rewrite HrH, broadcast_dim_one_l, HcH, HcSh, broadcast_dim_same.
    eexists. split; [reflexivity|]. simpl. auto. }
  destruct HH' as (H' & HH' & HrH' & HcH').
  assert (HRg : _calculate_reset_gate X edge_index edge_weight H self
                = (Ok (tsigmoid Sr), self))
    by (apply reset_gate_Ok; split; [reflexivity | eauto 8]).
  assert (HC : _calculate_candidate_state X edge_index edge_weight H
                 (tsigmoid Sr) self = (Ok (ttanh Sh), self))
    by (apply candidate_state_Ok; split; [reflexivity | eauto 10]).
  assert (Hf : forward X edge_index edge_weight (Some H) self
               = (Ok H', self)).
  { apply forward_Ok. split; [reflexivity|].
    exists (tsigmoid Sz), (tsigmoid Sr), (ttanh Sh). simpl.
    repeat split.
    - apply update_gate_Ok. split; [reflexivity|]. eauto 8.
    - exact HRg.
    - exact HC.
    - exact HH'. }
  assert (Hwf : well_formed (ttanh Sh))
    by (apply tmap_well_formed, (tzip_well_formed _ _ _ _ HSh)).
  exists H', (tsigmoid Sr), (ttanh Sh).
  unfold run, shape. rewrite Hf, HRg, HC, HrH', HcH'. simpl.
  rewrite HrSh, HcSh.
  repeat split.
  intros i j Hi Hj.
  destruct (combination_entry H (ttanh Sh) H' i j Hwf HH') as (_ & _ & He);
    [now rewrite HrH' | now rewrite HcH' |].
  rewrite He. simpl rows. simpl cols.
  rewrite HrH, HrSh, HcSh.
  rewrite (bidx_lt (cols H) j) by congruence.
  rewrite (bidx_lt (rows X) i), (bidx_lt (out_channels self) j)
    by assumption.
  reflexivity.
Qed.

End NodeCounts.

(** ** Construction *)

Ltac unfold_build :=
  unfold Construction.__init__, Construction._create_parameters_and_layers,
    Construction._create_update_gate_parameters_and_layers,
    Construction._create_reset_gate_parameters_and_layers,
    Construction._create_candidate_state_parameters_and_layers,
    Construction.bbind, Construction.setattr, Construction.getattr,
    Construction.new_ChebConv.

Section ConstructionFacts.

Import Construction.

Variable Params : Type.
Variable draw : nat -> Params.
Variable ChebConv : nat -> nat -> nat -> Params -> outcome GraphConv.

Ltac creating_method :=
  intros Ha Hb Hk; unfold two_constructions; unfold_build;
  match goal with o : Object |- _ => destruct o end;
  simpl in Ha, Hb, Hk; subst; cbn;
  repeat match goal with
    | |- context [ChebConv ?a ?b ?k ?p] =>
        destruct (ChebConv a b k p); cbn
    end; reflexivity.

Lemma create_update_gate_eq (a b k : nat) (o : Object) (c : nat) :
  attr_in_channels o = Some a -> attr_out_channels o = Some b ->
  attr_K o = Some k ->
  _create_update_gate_parameters_and_layers Params ChebConv draw
    (mkWorld o c) =
  two_constructions Params ChebConv draw a b k o c set_conv_x_z set_conv_h_z.
Proof. creating_method. Qed.

Lemma create_reset_gate_eq (a b k : nat) (o : Object) (c : nat) :
  attr_in_channels o = Some a -> attr_out_channels o = Some b ->
  attr_K o = Some k ->
  _create_reset_gate_parameters_and_layers Params ChebConv draw
    (mkWorld o c) =
  two_constructions Params ChebConv draw a b k o c set_conv_x_r set_conv_h_r.
Proof. creating_method. Qed.

Lemma create_candidate_state_eq (a b k : nat) (o : Object) (c : nat) :
  attr_in_channels o = Some a -> attr_out_channels o = Some b ->
  attr_K o = Some k ->
  _create_candidate_state_parameters_and_layers Params ChebConv draw
    (mkWorld o c) =
  two_constructions Params ChebConv draw a b k o c set_conv_x_h set_conv_h_h.
Proof. creating_method. Qed.

Lemma init_eq (a b k n : nat) (o : Object) (c : nat) :
  Construction.__init__ Params ChebConv draw a b k n (mkWorld o c) =
  _create_parameters_and_layers Params ChebConv draw
    (mkWorld (set_number_of_nodes n (set_K k (set_out_channels b
                (set_in_channels a o)))) c).
Proof. reflexivity. Qed.

Lemma create_all_eq (w : World) :
  _create_parameters_and_layers Params ChebConv draw w =
  match _create_update_gate_parameters_and_layers Params ChebConv draw w with
  | (Done _, w1) =>
      match _create_reset_gate_parameters_and_layers Params ChebConv draw w1
      with
      | (Done _, w2) =>
          _create_candidate_state_parameters_and_layers Params ChebConv
            draw w2
      | (Raise e, w2) => (Raise e, w2)
      end
  | (Raise e, w1) => (Raise e, w1)
  end.
Proof. reflexivity. Qed.

(** X7. [__init__] validates nothing and assigns all ten attributes: when
    the six constructor calls of the operator class return, it ends with
    the four integers as given (whatever they are) and six operators made
    by six separate constructor calls, in the order conv_x_z, conv_h_z,
    conv_x_r, conv_h_r, conv_x_h, conv_h_h, each on its own draw of
    parameters: the operators fed with the features with in_channels
    inputs, those fed with the hidden state with out_channels inputs, all
    with out_channels outputs and the same K.  Nothing of the object it
    started from survives. *)
Theorem init_assigns_all_attributes
    (c_in c_out k n : nat) (o0 : Object) (c0 : nat)
    (f_xz f_hz f_xr f_hr f_xh f_hh : GraphConv) :
  ChebConv c_in c_out k (draw c0) = Done f_xz ->
  ChebConv c_out c_out k (draw (1 + c0)) = Done f_hz ->
  ChebConv c_in c_out k (draw (2 + c0)) = Done f_xr ->
  ChebConv c_out c_out k (draw (3 + c0)) = Done f_hr ->
  ChebConv c_in c_out k (draw (4 + c0)) = Done f_xh ->
  ChebConv c_out c_out k (draw (5 + c0)) = Done f_hh ->
  Construction.__init__ Params ChebConv draw c_in c_out k n
    (mkWorld o0 c0) =
  (Done tt,
   mkWorld (mkObject (Some c_in) (Some c_out) (Some k) (Some n)
              (Some f_xz) (Some f_hz) (Some f_xr) (Some f_hr)
              (Some f_xh) (Some f_hh)) (6 + c0)) /\
  complete (mkObject (Some c_in) (Some c_out) (Some k) (Some n)
              (Some f_xz) (Some f_hz) (Some f_xr) (Some f_hr)
              (Some f_xh) (Some f_hh)) =
  Some (mkGConvGRU c_in c_out k n f_xz f_hz f_xr f_hr f_xh f_hh).
Proof.
  intros Hxz Hhz Hxr Hhr Hxh Hhh. split; [|reflexivity].
  simpl in Hhz, Hxr, Hhr, Hxh, Hhh.
  rewrite init_eq, create_all_eq.
  rewrite (create_update_gate_eq c_in c_out k) by reflexivity.
  unfold two_constructions. rewrite Hxz, Hhz.
  rewrite (create_reset_gate_eq c_in c_out k) by reflexivity.
  unfold two_constructions. rewrite Hxr, Hhr.
  rewrite (create_candidate_state_eq c_in c_out k) by reflexivity.
  unfold two_constructions. rewrite Hxh, Hhh. reflexivity.
Qed.

(** X8. [__init__] raises nothing of its own: it never meets a missing
    attribute, and an exception it raises is the exception of one of its
    six constructor calls, after which no further operator is constructed;
    the four integers are assigned by then. *)
Theorem init_raises_only_from_the_class
    (c_in c_out k n : nat) (o0 : Object) (c0 : nat)
    (e : build_exn) (w' : World) :
  Construction.__init__ Params ChebConv draw c_in c_out k n
    (mkWorld o0 c0) = (Raise e, w') ->
  (exists i, (i < 6)%nat /\ constructed w' = (i + c0)%nat /\
     (ChebConv c_in c_out k (draw (i + c0)) = Raise e \/
      ChebConv c_out c_out k (draw (i + c0)) = Raise e)) /\
  attr_in_channels (self_object w') = Some c_in /\
  attr_out_channels (self_object w') = Some c_out /\
  attr_K (self_object w') = Some k /\
  attr_number_of_nodes (self_object w') = Some n.
Proof.
  rewrite init_eq, create_all_eq.
  rewrite (create_update_gate_eq c_in c_out k) by reflexivity.
  unfold two_constructions.
  destruct (ChebConv c_in c_out k (draw c0)) as [f1|e1] eqn:E1.
  2:{ intros [= <- <-]. simpl. split; [|auto].
      exists 0%nat. simpl. repeat split; auto; lia. }
  destruct (ChebConv c_out c_out k (draw (S c0))) as [f2|e2] eqn:E2.
  2:{ intros [= <- <-]. simpl. split; [|auto].
      exists 1%nat. simpl. repeat split; auto; lia. }
  rewrite (create_reset_gate_eq c_in c_out k) by reflexivity.
  unfold two_constructions.
  destruct (ChebConv c_in c_out k (draw (S (S c0)))) as [f3|e3] eqn:E3.
  2:{ intros [= <- <-]. simpl. split; [|auto].
      exists 2%nat. simpl. repeat split; auto; lia. }
  destruct (ChebConv c_out c_out k (draw (S (S (S c0))))) as [f4|e4] eqn:E4.
  2:{ intros [= <- <-]. simpl. split; [|auto].
      exists 3%nat. simpl. repeat split; auto; lia. }
  rewrite (create_candidate_state_eq c_in c_out k) by reflexivity.
  unfold two_constructions.
  destruct (ChebConv c_in c_out k (draw (S (S (S (S c0))))))
    as [f5|e5] eqn:E5.
  2:{ intros [= <- <-]. simpl. split; [|auto].
      exists 4%nat. simpl. repeat split; auto; lia. }
  destruct (ChebConv c_out c_out k (draw (S (S (S (S (S c0)))))))
    as [f6|e6] eqn:E6.
  2:{ intros [= <- <-]. simpl. split; [|auto].
      exists 5%nat. simpl. repeat split; auto; lia. }
  discriminate.
Qed.

(** X9. Each of the four creating methods needs in_channels, out_channels
    and K on the object: where one is not assigned the method raises
    AttributeError for the first one missing, constructs no operator and
    assigns nothing. *)
Theorem create_methods_need_configuration :
  raises_on_missing_configuration
    (_create_update_gate_parameters_and_layers Params ChebConv draw) /\
  raises_on_missing_configuration
    (_create_reset_gate_parameters_and_layers Params ChebConv draw) /\
  raises_on_missing_configuration
    (_create_candidate_state_parameters_and_layers Params ChebConv draw) /\
  raises_on_missing_configuration
    (_create_parameters_and_layers Params ChebConv draw).
Proof.
  repeat split;
    intros [[[a|] [b|] [k|] n f1 f2 f3 f4 f5 f6] c]; simpl;
    try exact I; reflexivity.
Qed.

End ConstructionFacts.

(** X10. Construction and call compose: a cell constructed by [__init__]
    from an operator class whose constructor returns operators keeping
    the shape contract is the cell with the given integers and the six
    operators of the first six draws, and on inputs of the documented
    shapes its [forward] returns a matrix of shape
    (number_of_nodes, out_channels). *)
Theorem constructed_cell_runs (Params : Type) (draw : nat -> Params)
    (Cheb : nat -> nat -> nat -> Params -> GraphConv)
    (c_in c_out k n : nat) (o0 : Construction.Object) (c0 : nat) :
  (forall a b p, conv_shape_contract (Cheb a b k p) a b) ->
  exists o cell,
    Construction.__init__ Params
      (fun a b k' p => Construction.Done (Cheb a b k' p))
      draw c_in c_out k n (Construction.mkWorld o0 c0) =
    (Construction.Done tt, Construction.mkWorld o (6 + c0)%nat) /\
    Construction.complete o = Some cell /\
    cell = __init__ Cheb c_in c_out k n (draw c0) (draw (1 + c0)%nat)
             (draw (2 + c0)%nat) (draw (3 + c0)%nat) (draw (4 + c0)%nat)
             (draw (5 + c0)%nat) /\
    forall X edge_index edge_weight H,
      valid_input cell X edge_index edge_weight H ->
      exists H',
        run (forward X edge_index edge_weight H) cell = Ok H' /\
        shape H' = (n, c_out).
Proof.
  intros Hclass.
  eexists. eexists. split; [|split; [|split]].
  - unfold_build. simpl. reflexivity.
  - reflexivity.
  - reflexivity.
  - intros X edge_index edge_weight H Hin.
    match goal with |- context [forward _ _ _ _] =>
      match type of Hin with valid_input ?c _ _ _ _ => set (cell := c) in * end
    end.
    assert (Hcell : valid_cell cell)
      by (apply (init_valid_cell Cheb); exact Hclass).
    destruct (forward_returns cell X edge_index edge_weight H Hcell Hin)
      as (H' & Hf & Hr & Hc).
    exists H'. unfold run, shape. rewrite Hf, Hr, Hc. simpl.
    now split.
Qed.

(** ** The further properties at concrete inputs *)

Lemma forward_raises_only_from_operators_witness :
  run (forward (ones 4 2) [(0, 7)%nat] None (Some (zeros 4 3))) example_cell
    = Err IndexOutOfRange /\
  (IndexOutOfRange = ShapeMismatch \/
   conv_x_z example_cell (ones 4 2) [(0, 7)%nat] None
     = Err IndexOutOfRange \/
   conv_h_z example_cell (zeros 4 3) [(0, 7)%nat] None
     = Err IndexOutOfRange \/
   conv_x_r example_cell (ones 4 2) [(0, 7)%nat] None
     = Err IndexOutOfRange \/
   conv_h_r example_cell (zeros 4 3) [(0, 7)%nat] None
     = Err IndexOutOfRange \/
   conv_x_h example_cell (ones 4 2) [(0, 7)%nat] None
     = Err IndexOutOfRange \/
   exists R HR,
     run (_calculate_reset_gate (ones 4 2) [(0, 7)%nat] None (zeros 4 3))
       example_cell = Ok R /\
     tmul (zeros 4 3) R = Ok HR /\
     conv_h_h example_cell HR [(0, 7)%nat] None = Err IndexOutOfRange).
Proof.
  assert (Hrun : run (forward (ones 4 2) [(0, 7)%nat] None
                        (Some (zeros 4 3)))
                   example_cell = Err IndexOutOfRange) by reflexivity.
  split; [exact Hrun|].
  exact (forward_raises_only_from_operators example_cell (ones 4 2)
           [(0, 7)%nat] None (zeros 4 3) IndexOutOfRange Hrun).
Defined.

Lemma update_gate_failure_fails_forward_witness :
  run (forward (ones 4 2) complete_graph_4 None None)
    (with_update_operators example_cell (failing_conv OperatorFailure)
       (failing_conv OperatorFailure)) = Err OperatorFailure.
Proof.
  destruct (update_gate_failure_fails_forward
              (with_update_operators example_cell
                 (failing_conv OperatorFailure)
                 (failing_conv OperatorFailure))
              (ones 4 2) complete_graph_4 None None) as (Hfirst & _).
  apply Hfirst. reflexivity.
Defined.

Lemma node_count_mismatch_raises_witness :
  run (forward (ones 2 2) [(0, 1); (1, 0)]%nat None None) example_cell
    = Err ShapeMismatch.
Proof.
  assert (Htop : forall n, (2 <= n)%nat ->
            valid_topology n [(0, 1); (1, 0)]%nat None).
  { intros n Hn. split; [|exact I].
    repeat (constructor; [simpl; lia|]). constructor. }
  apply (node_count_mismatch_raises example_cell example_cell_valid
           (ones 2 2) [(0, 1); (1, 0)]%nat None eq_refl).
  - apply Htop. simpl. lia.
  - apply Htop. simpl. lia.
  - simpl. lia.
  - simpl. lia.
  - simpl. lia.
Defined.

Lemma single_row_hidden_state_is_stretched_witness :
  exists H' H_t,
    run (forward (ones 4 2) [] None (Some (ones 1 3))) example_cell
      = Ok H' /\
    shape H' = (4%nat, 3%nat) /\
    shape H_t = (4%nat, 3%nat) /\
    get H' 3 2 = get (ones 1 3) 0 2 * tanh (get H_t 3 2).
Proof.
  assert (Htop : forall n, valid_topology n [] None)
    by (intros n; split; [constructor | exact I]).
  destruct (single_row_hidden_state_is_stretched example_cell
              example_cell_valid (ones 4 2) [] None eq_refl (Htop _)
              (ones 1 3) (Htop _) eq_refl eq_refl)
    as (H' & R & H_t & Hrun & Hshape & _ & _ & Hshape_t & Hb).
  exists H', H_t. split; [exact Hrun|]. split; [exact Hshape|].
  split; [exact Hshape_t|].
  apply Hb; simpl; lia.
Defined.

Lemma forward_ignores_configuration_witness :
  run (forward (ones 4 2) complete_graph_4 None (Some (ones 4 3)))
    example_cell =
  run (forward (ones 4 2) complete_graph_4 None (Some (ones 4 3)))
    (mkGConvGRU 5 6 7 8
       (conv_x_z example_cell) (conv_h_z example_cell)
       (conv_x_r example_cell) (conv_h_r example_cell)
       (conv_x_h example_cell) (conv_h_h example_cell)).
Proof.
  apply forward_ignores_configuration.
  - repeat split.
  - reflexivity.
Defined.

Lemma init_assigns_all_attributes_witness :
  Construction.__init__ (R * R) checked_cheb1_class (fun _ => (1, 0))
    2 3 1 4 (Construction.mkWorld Construction.fresh_object 0) =
  (Construction.Done tt,
   Construction.mkWorld
     (Construction.mkObject (Some 2%nat) (Some 3%nat) (Some 1%nat)
        (Some 4%nat)
        (Some (cheb1_class 2 3 1 (1, 0))) (Some (cheb1_class 3 3 1 (1, 0)))
        (Some (cheb1_class 2 3 1 (1, 0))) (Some (cheb1_class 3 3 1 (1, 0)))
        (Some (cheb1_class 2 3 1 (1, 0))) (Some (cheb1_class 3 3 1 (1, 0))))
     6).
Proof.
  apply (init_assigns_all_attributes (R * R) (fun _ => (1, 0))
           checked_cheb1_class 2 3 1 4 Construction.fresh_object 0);
    reflexivity.
Defined.

Lemma init_raises_only_from_the_class_witness :
  exists w',
    Construction.__init__ (R * R) checked_cheb1_class (fun _ => (1, 0))
      2 3 0 4 (Construction.mkWorld Construction.fresh_object 0) =
    (Construction.Raise (Construction.ClassError 0), w') /\
    Construction.constructed w' = 0%nat /\
    Construction.attr_K (Construction.self_object w') = Some 0%nat /\
    Construction.attr_conv_x_z (Construction.self_object w') = None.
Proof.
  eexists. split; [reflexivity|].
  destruct (init_raises_only_from_the_class (R * R) (fun _ => (1, 0))
              checked_cheb1_class 2 3 0 4 Construction.fresh_object 0
              _ _ eq_refl) as (_ & _ & _ & HK & _).
  split; [reflexivity|]. split; [exact HK | reflexivity].
Defined.

Lemma constructed_cell_runs_witness :
  exists H',
    run (forward (ones 4 2) complete_graph_4 None None)
      (__init__ cheb1_class 2 3 1 4 (1, 0) (1, 0) (1, 0) (1, 0) (1, 0)
         (1, 0)) = Ok H' /\
    shape H' = (4%nat, 3%nat).
Proof.
  destruct (constructed_cell_runs (R * R) (fun _ => (1, 0)) cheb1_class
              2 3 1 4 Construction.fresh_object 0)
    as (o & cell & _ & _ & Hcell & Hrun).
  - intros a b p. apply const_cheb1_shape_contract.
  - subst cell.
    destruct (Hrun (ones 4 2) complete_graph_4 None None)
      as (H' & HH' & Hshape).
    + repeat split; apply complete_graph_4_valid.
    + exists H'. now split.
Defined.

(** ** Shapes of the intermediate quantities *)

(** X11. On a consistently configured cell and inputs of the documented
    shapes, each of the three intermediate quantities of a call (update
    gate, reset gate, candidate state) is returned, is well formed and has
    shape (number_of_nodes, out_channels), like the hidden state. *)
Theorem intermediate_shapes (self : GConvGRU) (X : Tensor)
    (edge_index : EdgeIndex) (edge_weight : option EdgeWeight)
    (H : option Tensor) :
  valid_cell self ->
  valid_input self X edge_index edge_weight H ->
  exists Z R H_t,
    run (_calculate_update_gate X edge_index edge_weight
           (resolved_hidden_state self H)) self = Ok Z /\
    run (_calculate_reset_gate X edge_index edge_weight
           (resolved_hidden_state self H)) self = Ok R /\
    run (_calculate_candidate_state X edge_index edge_weight
           (resolved_hidden_state self H) R) self = Ok H_t /\
    shape Z = (number_of_nodes self, out_channels self) /\
    shape R = (number_of_nodes self, out_channels self) /\
    shape H_t = (number_of_nodes self, out_channels self) /\
    well_formed Z /\ well_formed R /\ well_formed H_t.
Proof.
  intros (Hxz & Hhz & Hxr & Hhr & Hxh & Hhh) (HrX & HcX & Htop & HH).
  set (H0 := resolved_hidden_state self H).
  assert (HrH : rows H0 = number_of_nodes self)
    by (destruct H; simpl; [apply HH | reflexivity]).
  assert (HcH : cols H0 = out_channels self)
    by (destruct H; simpl; [apply HH | reflexivity]).
  destruct (conv_sum_returns _ _ _ _ _ _ X H0 edge_index edge_weight
              Hxz Hhz HrX HcX HrH HcH Htop)
    as (Az & Bz & Sz & HAz & HBz & HSz & HrSz & HcSz).
  destruct (conv_sum_returns _ _ _ _ _ _ X H0 edge_index edge_weight
              Hxr Hhr HrX HcX HrH HcH Htop)
    as (Ar & Br & Sr & HAr & HBr & HSr & HrSr & HcSr).
  destruct (tzip_shape Rmult H0 (tsigmoid Sr)
              (number_of_nodes self) (out_channels self))
    as (HR & HHR & HrHR & HcHR & _); try assumption.
  destruct (conv_sum_returns _ _ _ _ _ _ X HR edge_index edge_weight
              Hxh Hhh HrX HcX HrHR HcHR Htop)
    as (Ah & Bh & Sh & HAh & HBh & HSh & HrSh & HcSh).
  assert (HZ : _calculate_update_gate X edge_index edge_weight H0 self
               = (Ok (tsigmoid Sz), self))
    by (apply update_gate_Ok; split; [reflexivity | eauto 8]).
  assert (HRg : _calculate_reset_gate X edge_index edge_weight H0 self
                = (Ok (tsigmoid Sr), self))
    by (apply reset_gate_Ok; split; [reflexivity | eauto 8]).
  assert (HC : _calculate_candidate_state X edge_index edge_weight H0
                 (tsigmoid Sr) self = (Ok (ttanh Sh), self))
    by (apply candidate_state_Ok; split; [reflexivity | eauto 10]).
  exists (tsigmoid Sz), (tsigmoid Sr), (ttanh Sh).
  unfold run. rewrite HZ, HRg, HC.
  unfold shape. simpl. rewrite HrSz, HcSz, HrSr, HcSr, HrSh, HcSh.
  repeat split;
    apply tmap_well_formed; eapply tzip_well_formed; eassumption.
Qed.

Lemma intermediate_shapes_witness :
  exists Z R H_t,
    run (_calculate_update_gate (ones 4 2) complete_graph_4 None
           (ones 4 3)) example_cell = Ok Z /\
    run (_calculate_reset_gate (ones 4 2) complete_graph_4 None
           (ones 4 3)) example_cell = Ok R /\
    run (_calculate_candidate_state (ones 4 2) complete_graph_4 None
           (ones 4 3) R) example_cell = Ok H_t /\
    shape Z = (4%nat, 3%nat) /\ shape R = (4%nat, 3%nat) /\
    shape H_t = (4%nat, 3%nat).
Proof.
  destruct (intermediate_shapes example_cell (ones 4 2) complete_graph_4
              None (Some (ones 4 3)) example_cell_valid)
    as (Z & R & H_t & HZ & HR & HC & HsZ & HsR & HsC & _).
  - apply (example_input_valid (Some (ones 4 3))). split; reflexivity.
  - exists Z, R, H_t. auto 10.
Defined.

(** * Properties of the cell in binary32 *)

(** ** Rounding *)

Section Rounding.

Lemma bpow_pos e : 0 < bpow e.
Proof. apply powerRZ_lt. lra. Qed.

Lemma bpow_add a b : bpow (a + b) = bpow a * bpow b.
Proof. apply powerRZ_add. lra. Qed.

Lemma bpow_0 : bpow 0 = 1.
Proof. reflexivity. Qed.

Lemma bpow_cancel e : bpow e * bpow (- e) = 1.
Proof. rewrite <- bpow_add, Z.add_opp_diag_r. reflexivity. Qed.

Lemma ln_2_pos : 0 < ln 2.
Proof. rewrite <- ln_1. apply ln_increasing; lra. Qed.

Lemma ln_bpow e : ln (bpow e) = IZR e * ln 2.
Proof.
  unfold bpow. rewrite powerRZ_Rpower by lra. unfold Rpower. apply ln_exp.
Qed.

Lemma bpow_exp e : bpow e = exp (IZR e * ln 2).
Proof. unfold bpow. rewrite powerRZ_Rpower by lra. reflexivity. Qed.

Lemma bpow_lt a b : (a < b)%Z -> bpow a < bpow b.
Proof.
  intros Hab. rewrite !bpow_exp. apply exp_increasing.
  apply Rmult_lt_compat_r; [apply ln_2_pos | now apply IZR_lt].
Qed.

Lemma bpow_le a b : (a <= b)%Z -> bpow a <= bpow b.
Proof.
  intros Hab. destruct (Z.eq_dec a b) as [->|Hne]; [lra|].
  left. apply bpow_lt. lia.
Qed.

Lemma bpow_IZR (k : Z) : (0 <= k)%Z -> bpow k = IZR (2 ^ k).
Proof.
  intros Hk. unfold bpow.
  rewrite <- (Z2Nat.id k) by exact Hk.
  rewrite <- pow_powerRZ. apply (pow_IZR 2).
Qed.

(** Rounding to an integer. *)

Lemma Znearest_even_IZR (k : Z) : Znearest_even (IZR k) = k.
Proof.
  unfold Znearest_even. rewrite ZfloorZ.
  destruct (total_order_T (IZR k - IZR k) (1 / 2)) as [[H|H]|H];
    try reflexivity; lra.
Qed.

Lemma Znearest_even_floor (x : R) :
  (Zfloor x <= Znearest_even x <= Zfloor x + 1)%Z.
Proof.
  unfold Znearest_even.
  destruct (total_order_T (x - IZR (Zfloor x)) (1 / 2)) as [[H|H]|H];
    try destruct (Z.even (Zfloor x)); lia.
Qed.

Lemma Znearest_even_le (x : R) (n : Z) :
  x <= IZR n -> (Znearest_even x <= n)%Z.
Proof.
  intros Hx. destruct (Req_dec x (IZR n)) as [->|Hne].
  - rewrite Znearest_even_IZR. lia.
  - assert (Hlt : x < IZR n) by lra.
    pose proof (Zfloor_bound x) as [Hf _].
    assert (Zfloor x < n)%Z by (apply lt_IZR; lra).
    pose proof (Znearest_even_floor x). lia.
Qed.

Lemma Znearest_even_ge (x : R) (n : Z) :
  IZR n <= x -> (n <= Znearest_even x)%Z.
Proof.
  intros Hx. pose proof (Zfloor_lub n x Hx).
  pose proof (Znearest_even_floor x). lia.
Qed.

(** Above the midpoint the nearest integer is the next one. *)
Lemma Znearest_even_up (x : R) (n : Z) :
  IZR n + 1 / 2 < x -> x <= IZR n + 1 -> Znearest_even x = (n + 1)%Z.
Proof.
  intros Hlo Hhi. destruct (Req_dec x (IZR n + 1)) as [->|Hne].
  - rewrite <- (plus_IZR n 1). apply Znearest_even_IZR.
  - assert (Hf : Zfloor x = n) by (apply Zfloor_eq; lra).
    unfold Znearest_even. rewrite Hf.
    destruct (total_order_T (x - IZR n) (1 / 2)) as [[H|H]|H];
      try reflexivity; lra.
Qed.

(** Magnitude and exponent of the last place. *)

Lemma mag_lt (x : R) (e : Z) :
  x <> 0 -> Rabs x < bpow e -> (mag x <= e)%Z.
Proof.
  intros Hx Hlt. unfold mag.
  assert (Hpos : 0 < Rabs x) by now apply Rabs_pos_lt.
  assert (Hln : ln (Rabs x) < IZR e * ln 2).
  { rewrite <- ln_bpow. now apply ln_increasing. }
  assert (Hq : ln (Rabs x) / ln 2 < IZR e).
  { apply (Rmult_lt_reg_r (ln 2)); [apply ln_2_pos|].
    unfold Rdiv. rewrite Rmult_assoc, Rinv_l by (pose proof ln_2_pos; lra).
    lra. }
  pose proof (Zfloor_bound (ln (Rabs x) / ln 2)) as [Hf _].
  assert (Zfloor (ln (Rabs x) / ln 2) < e)%Z by (apply lt_IZR; lra).
  lia.
Qed.

Lemma mag_ge (x : R) (e : Z) :
  bpow e <= Rabs x -> (e < mag x)%Z.
Proof.
  intros Hle. unfold mag.
  pose proof (bpow_pos e) as Hb.
  assert (Hln : IZR e * ln 2 <= ln (Rabs x)).
  { rewrite <- ln_bpow. destruct Hle as [Hlt|<-]; [|lra].
    left. now apply ln_increasing. }
  assert (Hq : IZR e <= ln (Rabs x) / ln 2).
  { apply (Rmult_le_reg_r (ln 2)); [apply ln_2_pos|].
    unfold Rdiv. rewrite Rmult_assoc, Rinv_l by (pose proof ln_2_pos; lra).
    lra. }
  pose proof (Zfloor_lub e _ Hq). lia.
Qed.

Lemma mag_unique (x : R) (e : Z) :
  bpow (e - 1) <= Rabs x < bpow e -> mag x = e.
Proof.
  intros [Hlo Hhi].
  assert (Hx : x <> 0).
  { intros ->. rewrite Rabs_R0 in Hlo. pose proof (bpow_pos (e - 1)). lra. }
  pose proof (mag_lt x e Hx Hhi). pose proof (mag_ge x (e - 1) Hlo). lia.
Qed.

Lemma cexp_le (y : R) (e : Z) :
  y <> 0 -> Rabs y < bpow (e + 24) -> (-149 <= e)%Z -> (cexp y <= e)%Z.
Proof.
  intros Hy Hlt He. unfold cexp.
  pose proof (mag_lt y (e + 24) Hy Hlt). lia.
Qed.

(** Rounding against a number of the grid. *)

Lemma scaled_grid (m e c : Z) :
  (c <= e)%Z ->
  IZR m * bpow e * bpow (- c) = IZR (m * 2 ^ (e - c)).
Proof.
  intros Hce. rewrite Rmult_assoc, <- bpow_add.
  replace (e + - c)%Z with (e - c)%Z by lia.
  rewrite bpow_IZR by lia. now rewrite <- mult_IZR.
Qed.

Lemma rnd_le_grid (x : R) (m e : Z) :
  (cexp x <= e)%Z -> x <= IZR m * bpow e -> rnd x <= IZR m * bpow e.
Proof.
  intros Hc Hx. unfold rnd.
  pose proof (bpow_pos (cexp x)) as Hb.
  pose proof (bpow_pos (- cexp x)) as Hbn.
  assert (Hs : x * bpow (- cexp x) <= IZR (m * 2 ^ (e - cexp x))).
  { rewrite <- scaled_grid by exact Hc.
    apply Rmult_le_compat_r; lra. }
  apply Znearest_even_le in Hs. apply IZR_le in Hs.
  replace (IZR m * bpow e)
    with (IZR (m * 2 ^ (e - cexp x)) * bpow (cexp x)).
  - apply Rmult_le_compat_r; lra.
  - rewrite <- scaled_grid by exact Hc.
    rewrite Rmult_assoc, (Rmult_comm (bpow (- cexp x))), bpow_cancel. lra.
Qed.

Lemma rnd_ge_grid (x : R) (m e : Z) :
  (cexp x <= e)%Z -> IZR m * bpow e <= x -> IZR m * bpow e <= rnd x.
Proof.
  intros Hc Hx. unfold rnd.
  pose proof (bpow_pos (cexp x)) as Hb.
  pose proof (bpow_pos (- cexp x)) as Hbn.
  assert (Hs : IZR (m * 2 ^ (e - cexp x)) <= x * bpow (- cexp x)).
  { rewrite <- scaled_grid by exact Hc.
    apply Rmult_le_compat_r; lra. }
  apply Znearest_even_ge in Hs. apply IZR_le in Hs.
  replace (IZR m * bpow e)
    with (IZR (m * 2 ^ (e - cexp x)) * bpow (cexp x)).
  - apply Rmult_le_compat_r; lra.
  - rewrite <- scaled_grid by exact Hc.
    rewrite Rmult_assoc, (Rmult_comm (bpow (- cexp x))), bpow_cancel. lra.
Qed.

Lemma rnd_0 : rnd 0 = 0.
Proof.
  unfold rnd. rewrite Rmult_0_l.
  change 0 with (IZR 0) at 1. rewrite Znearest_even_IZR. simpl. lra.
Qed.

Lemma grid_abs (m e : Z) : Rabs (IZR m * bpow e) = IZR (Z.abs m) * bpow e.
Proof.
  rewrite Rabs_mult, <- abs_IZR, (Rabs_right (bpow e)); [reflexivity|].
  left. apply bpow_pos.
Qed.

Lemma grid_abs_lt (m e : Z) :
  (Z.abs m < 2 ^ 24)%Z -> Rabs (IZR m * bpow e) < bpow (e + 24).
Proof.
  intros Hm. rewrite grid_abs, Z.add_comm, bpow_add.
  apply Rmult_lt_compat_r; [apply bpow_pos|].
  rewrite bpow_IZR by lia. now apply IZR_lt.
Qed.

Lemma rnd_grid (m e : Z) :
  (Z.abs m < 2 ^ 24)%Z -> (-149 <= e)%Z ->
  rnd (IZR m * bpow e) = IZR m * bpow e.
Proof.
  intros Hm He. set (x := IZR m * bpow e).
  destruct (Req_dec x 0) as [Hz|Hnz]; [rewrite Hz; apply rnd_0|].
  assert (Hc : (cexp x <= e)%Z)
    by (apply cexp_le; [exact Hnz | now apply grid_abs_lt | exact He]).
  apply Rle_antisym.
  - apply rnd_le_grid; [exact Hc | unfold x; lra].
  - apply rnd_ge_grid; [exact Hc | unfold x; lra].
Qed.

Lemma rnd_representable (x : R) : representable x -> rnd x = x.
Proof.
  intros (m & e & -> & Hm & He & _). now apply rnd_grid.
Qed.

Lemma Rabs_le_between (y b : R) : Rabs y <= b -> - b <= y <= b.
Proof. unfold Rabs. destruct (Rcase_abs y); lra. Qed.

(** Rounding never carries a value past a float of larger magnitude. *)
Lemma rnd_abs_le (y : R) (m e : Z) :
  (Z.abs m < 2 ^ 24)%Z -> (-149 <= e)%Z ->
  Rabs y <= Rabs (IZR m * bpow e) ->
  Rabs (rnd y) <= Rabs (IZR m * bpow e).
Proof.
  intros Hm He Hy.
  destruct (Req_dec y 0) as [->|Hnz].
  { rewrite rnd_0, Rabs_R0. apply Rabs_pos. }
  assert (Hc : (cexp y <= e)%Z).
  { apply cexp_le; [exact Hnz | | exact He].
    apply (Rle_lt_trans _ _ _ Hy). now apply grid_abs_lt. }
  rewrite grid_abs in *.
  apply Rabs_le. split.
  - replace (- (IZR (Z.abs m) * bpow e))
      with (IZR (- Z.abs m) * bpow e) by (rewrite opp_IZR; ring).
    apply rnd_ge_grid; [exact Hc|].
    rewrite opp_IZR. pose proof (Rabs_le_between _ _ Hy). lra.
  - apply rnd_le_grid; [exact Hc|].
    pose proof (Rabs_le_between _ _ Hy). lra.
Qed.

Lemma representable_lt_max (x : R) : representable x -> Rabs x < bpow 128.
Proof.
  intros (m & e & -> & Hm & He1 & He2).
  apply (Rlt_le_trans _ (bpow (e + 24))); [now apply grid_abs_lt|].
  apply bpow_le. lia.
Qed.

Lemma round_bounded (y h : R) :
  representable h -> Rabs y <= Rabs h ->
  round y = Fin (rnd y) /\ Rabs (rnd y) <= Rabs h.
Proof.
  intros Hrep Hy. pose proof (representable_lt_max h Hrep) as Hmax.
  destruct Hrep as (m & e & -> & Hm & He1 & He2).
  pose proof (rnd_abs_le y m e Hm He1 Hy) as Hr.
  split; [|exact Hr]. unfold round.
  destruct (Rlt_dec (Rabs (rnd y)) (bpow 128)) as [_|Hn];
    [reflexivity | lra].
Qed.

Lemma round_representable (x : R) : representable x -> round x = Fin x.
Proof.
  intros Hrep. destruct (round_bounded x x Hrep (Rle_refl _)) as [-> _].
  now rewrite rnd_representable.
Qed.

Lemma representable_IZR (k : Z) : (Z.abs k < 2 ^ 24)%Z -> representable (IZR k).
Proof.
  intros Hk. exists k, 0%Z. rewrite bpow_0. repeat split; try lia. lra.
Qed.

Lemma representable_0 : representable 0.
Proof. apply (representable_IZR 0). reflexivity. Qed.

Lemma representable_1 : representable 1.
Proof. apply (representable_IZR 1). reflexivity. Qed.


(** Ranges of the rounded activations. *)

Lemma round_unit (y : R) :
  Rabs y <= 1 -> round y = Fin (rnd y) /\ Rabs (rnd y) <= 1.
Proof.
  intros Hy.
  destruct (round_bounded y 1 representable_1) as [Hr Hb].
  - now rewrite Rabs_R1.
  - rewrite Rabs_R1 in Hb. now split.
Qed.

Lemma rnd_nonneg (y : R) : 0 <= y -> Rabs y <= 1 -> 0 <= rnd y.
Proof.
  intros Hy Hb. destruct (Req_dec y 0) as [->|Hnz]; [rewrite rnd_0; lra|].
  replace 0 with (IZR 0 * bpow 0) by (simpl; lra).
  apply rnd_ge_grid.
  - apply cexp_le; [exact Hnz | | lia].
    apply (Rle_lt_trans _ 1); [exact Hb|].
    replace 1 with (bpow 0) by reflexivity. apply bpow_lt. lia.
  - simpl. lra.
Qed.

Lemma fsigmoid_Fin (x : R) :
  exists r, fsigmoid (Fin x) = Fin r /\ 0 <= r <= 1.
Proof.
  pose proof (sigmoid_range x) as [Hlo Hhi].
  assert (Hb : Rabs (sigmoid x) <= 1) by (apply Rabs_le; lra).
  destruct (round_unit _ Hb) as [Hr Hu].
  exists (rnd (sigmoid x)). simpl. split; [exact Hr|]. split.
  - apply rnd_nonneg; lra.
  - apply Rabs_le_between in Hu. lra.
Qed.

Lemma ftanh_Fin (x : R) :
  exists r, ftanh (Fin x) = Fin r /\ -1 <= r <= 1.
Proof.
  pose proof (tanh_range x) as [Hlo Hhi].
  assert (Hb : Rabs (tanh x) <= 1) by (apply Rabs_le; lra).
  destruct (round_unit _ Hb) as [Hr Hu].
  exists (rnd (tanh x)). simpl. split; [exact Hr|].
  apply Rabs_le_between in Hu. lra.
Qed.

Lemma fsigmoid_range (v : f32) : nan_or_within 0 1 (fsigmoid v).
Proof.
  destruct v as [|[|]|x]; simpl.
  - now left.
  - right. exists 0. split; [reflexivity | lra].
  - right. exists 1. split; [reflexivity | lra].
  - right. apply fsigmoid_Fin.
Qed.

Lemma ftanh_range (v : f32) : nan_or_within (-1) 1 (ftanh v).
Proof.
  destruct v as [|[|]|x]; simpl.
  - now left.
  - right. exists (-1). split; [reflexivity | lra].
  - right. exists 1. split; [reflexivity | lra].
  - right. apply ftanh_Fin.
Qed.

(** Saturation. *)

Lemma bpow_m1 : bpow (-1) = 1 / 2.
Proof. unfold bpow. simpl. lra. Qed.

Lemma rnd_near_one (x : R) : 1 - bpow (-25) < x < 1 -> rnd x = 1.
Proof.
  intros [Hlo Hhi].
  assert (H25 : bpow (-25) * bpow 24 = 1 / 2)
    by (rewrite <- bpow_add; apply bpow_m1).
  assert (Hsmall : bpow (-25) < 1 / 2)
    by (rewrite <- bpow_m1; apply bpow_lt; lia).
  assert (Hmag : mag x = 0%Z).
  { apply mag_unique. simpl Z.sub. rewrite bpow_m1, bpow_0.
    rewrite Rabs_right by lra. lra. }
  assert (Hc : cexp x = (-24)%Z) by (unfold cexp; rewrite Hmag; reflexivity).
  unfold rnd. rewrite Hc. simpl Z.opp.
  assert (H24 : bpow 24 = IZR (2 ^ 24)) by (apply bpow_IZR; lia).
  pose proof (bpow_pos 24) as Hp.
  rewrite (Znearest_even_up _ (2 ^ 24 - 1)).
  - replace (2 ^ 24 - 1 + 1)%Z with (2 ^ 24)%Z by lia.
    rewrite <- H24, <- bpow_add. reflexivity.
  - rewrite minus_IZR, <- H24. nra.
  - rewrite minus_IZR, <- H24. nra.
Qed.


(** Bounds on the exponential. *)

Lemma exp_1_gt_2 : 2 < exp 1.
Proof. pose proof (exp_ineq1 1). lra. Qed.

Lemma exp_sq (x y : R) : y = x + x -> exp y = exp x * exp x.
Proof. intros ->. apply exp_plus. Qed.

Lemma exp_32_large : bpow 32 < exp 32.
Proof.
  pose proof exp_1_gt_2 as H1.
  assert (H2 : 4 < exp 2) by (rewrite (exp_sq 1 2) by lra; nra).
  assert (H4 : 16 < exp 4) by (rewrite (exp_sq 2 4) by lra; nra).
  assert (H8 : 256 < exp 8) by (rewrite (exp_sq 4 8) by lra; nra).
  assert (H16 : 65536 < exp 16) by (rewrite (exp_sq 8 16) by lra; nra).
  rewrite (exp_sq 16 32) by lra.
  rewrite bpow_IZR by lia.
  replace (IZR (2 ^ 32)) with (65536 * 65536) by (simpl; lra).
  nra.
Qed.

Lemma sigmoid_32 : 1 - bpow (-25) < sigmoid 32 < 1.
Proof.
  split; [|apply sigmoid_range].
  unfold sigmoid. pose proof (exp_pos (Ropp 32)) as He.
  assert (Hsmall : exp (Ropp 32) < bpow (-25)).
  { rewrite exp_Ropp.
    apply (Rlt_trans _ (/ bpow 32)).
    - apply Rinv_lt_contravar; [|apply exp_32_large].
      apply Rmult_lt_0_compat; [apply bpow_pos | apply exp_pos].
    - replace (/ bpow 32) with (bpow (-32))
        by (unfold bpow; apply (powerRZ_neg' 2 32)).
      apply bpow_lt. lia. }
  pose proof (bpow_pos (-25)) as Hb.
  assert (Hprod : 0 < bpow (-25) * exp (Ropp 32))
    by (apply Rmult_lt_0_compat; lra).
  apply (Rmult_lt_reg_r (1 + exp (Ropp 32))); [lra|].
  unfold Rdiv. rewrite Rmult_assoc, Rinv_l by lra. nra.
Qed.





(** What the activations return at the points the examples use. *)

Lemma fsigmoid_32 : fsigmoid (Fin 32) = Fin 1.
Proof.
  unfold fsigmoid. pose proof (sigmoid_range 32).
  assert (Hb : Rabs (sigmoid 32) <= 1) by (apply Rabs_le; lra).
  destruct (round_unit _ Hb) as [-> _].
  now rewrite (rnd_near_one _ sigmoid_32).
Qed.



Lemma fsigmoid_0 : fsigmoid (Fin 0) = Fin (1 / 2).
Proof.
  unfold fsigmoid. rewrite sigmoid_0. apply round_representable.
  exists 1%Z, (-1)%Z. rewrite bpow_m1. repeat split; try lia. lra.
Qed.

Lemma ftanh_0 : ftanh (Fin 0) = Fin 0.
Proof.
  unfold ftanh. rewrite tanh_0. apply round_representable, representable_0.
Qed.

End Rounding.

(** ** binary32 operations at particular operands *)

Section FloatOperations.

Lemma round_0 : round 0 = Fin 0.
Proof. apply round_representable, representable_0. Qed.

Lemma fmul_0_l (x : R) : fmul (Fin 0) (Fin x) = Fin 0.
Proof. unfold fmul. rewrite Rmult_0_l. apply round_0. Qed.

Lemma fmul_0_r (x : R) : fmul (Fin x) (Fin 0) = Fin 0.
Proof. unfold fmul. rewrite Rmult_0_r. apply round_0. Qed.

Lemma fmul_1_r (x : R) : representable x -> fmul (Fin x) (Fin 1) = Fin x.
Proof. intros Hx. unfold fmul. rewrite Rmult_1_r. now apply round_representable. Qed.

Lemma fadd_0_l (x : R) : representable x -> fadd (Fin 0) (Fin x) = Fin x.
Proof. intros Hx. unfold fadd. rewrite Rplus_0_l. now apply round_representable. Qed.

Lemma fadd_0_r (x : R) : representable x -> fadd (Fin x) (Fin 0) = Fin x.
Proof. intros Hx. unfold fadd. rewrite Rplus_0_r. now apply round_representable. Qed.

(** Zero times any activated value: zero, unless the value is not a number. *)
Lemma fmul_0_ftanh (v : f32) :
  fmul (Fin 0) (ftanh v) = match v with NaN => NaN | _ => Fin 0 end.
Proof.
  destruct v as [|[|]|x]; try reflexivity.
  - apply fmul_0_l.
  - apply fmul_0_l.
  - destruct (ftanh_Fin x) as (r & -> & _). apply fmul_0_l.
Qed.


End FloatOperations.

(** ** binary32 tensors *)

Section FTensorFacts.



Lemma ftabulate_Forall (P : f32 -> Prop) (r c : nat)
    (g : nat -> nat -> f32) :
  (forall i j, (i < r)%nat -> (j < c)%nat -> P (g i j)) ->
  Forall P (fdata (ftabulate r c g)).
Proof.
  intros HP. unfold ftabulate; simpl.
  apply Forall_forall. intros x Hx.
  apply in_flat_map in Hx. destruct Hx as [i [Hi Hx]].
  apply in_map_iff in Hx. destruct Hx as [j [<- Hj]].
  apply in_seq in Hi. apply in_seq in Hj. apply HP; lia.
Qed.

Lemma ftabulate_ext (r c : nat) (g g' : nat -> nat -> f32) :
  (forall i j, (i < r)%nat -> (j < c)%nat -> g i j = g' i j) ->
  ftabulate r c g = ftabulate r c g'.
Proof.
  intros Hext. unfold ftabulate. f_equal.
  assert (Hrows : forall l, (forall i, In i l -> (i < r)%nat) ->
            flat_map (fun i => map (g i) (seq 0 c)) l =
            flat_map (fun i => map (g' i) (seq 0 c)) l).
  { induction l as [|a l IH]; intros Hin; simpl; [reflexivity|].
    rewrite IH by (intros i Hi; apply Hin; now right).
    f_equal. apply map_ext_in. intros j Hj. apply in_seq in Hj.
    apply Hext; [apply Hin; now left | lia]. }
  apply Hrows. intros i Hi. apply in_seq in Hi. lia.
Qed.

Lemma map_const_seq_f32 (x : f32) (c s : nat) :
  map (fun _ : nat => x) (seq s c) = repeat x c.
Proof.
  revert s. induction c as [|c IH]; intros s; simpl; [reflexivity|].
  now rewrite IH.
Qed.

Lemma ftabulate_zero (r c : nat) :
  ftabulate r c (fun _ _ => Fin 0) = fzeros r c.
Proof.
  unfold ftabulate, fzeros. f_equal.
  assert (Hrows : forall l : list nat,
            flat_map (fun _ : nat => map (fun _ : nat => Fin 0) (seq 0 c)) l
            = repeat (Fin 0) (length l * c)).
  { induction l as [|a l IH]; simpl; [reflexivity|].
    now rewrite IH, repeat_app, map_const_seq_f32. }
  rewrite Hrows. now rewrite length_seq.
Qed.

Lemma fget_fzeros (r c i j : nat) : fget (fzeros r c) i j = Fin 0.
Proof.
  unfold fget, fzeros; simpl.
  destruct (Nat.lt_ge_cases (i * c + j) (r * c)) as [Hlt|Hge].
  - now rewrite nth_repeat_lt by exact Hlt.
  - rewrite nth_overflow; [reflexivity|]. now rewrite repeat_length.
Qed.

Lemma fget_fall_zero (t : FTensor) (i j : nat) :
  fall_zero t -> fget t i j = Fin 0.
Proof.
  intros Hz. rewrite Hz.
  replace (fcols (fzeros (frows t) (fcols t))) with (fcols t) by reflexivity.
  apply fget_fzeros.
Qed.

Lemma fzeros_fall_zero (r c : nat) : fall_zero (fzeros r c).
Proof. reflexivity. Qed.

Lemma fmap_Forall (P : f32 -> Prop) (f : f32 -> f32) (t : FTensor) :
  (forall x, P (f x)) -> Forall P (fdata (fmap f t)).
Proof.
  intros HP. unfold fmap; simpl. apply Forall_forall.
  intros y Hy. apply in_map_iff in Hy. destruct Hy as [x [<- _]]. apply HP.
Qed.

(** An entry read from a tensor is one of its stored values, or the zero
    read beyond them. *)
Lemma fget_cases (t : FTensor) (i j : nat) :
  fget t i j = Fin 0 \/ In (fget t i j) (fdata t).
Proof.
  unfold fget. destruct (nth_in_or_default (i * fcols t + j) (fdata t) (Fin 0))
    as [Hin|Heq]; [now right | now left].
Qed.

Lemma fget_Forall (P : f32 -> Prop) (t : FTensor) (i j : nat) :
  P (Fin 0) -> Forall P (fdata t) -> P (fget t i j).
Proof.
  intros H0 Hall. destruct (fget_cases t i j) as [->|Hin]; [exact H0|].
  rewrite Forall_forall in Hall. now apply Hall.
Qed.

Lemma fzip_Ok (f : f32 -> f32 -> f32) (A B C : FTensor) :
  fzip f A B = Ok C ->
  broadcast_dim (frows A) (frows B) = Some (frows C) /\
  broadcast_dim (fcols A) (fcols B) = Some (fcols C) /\
  C = ftabulate (frows C) (fcols C) (fun i j =>
        f (fget A (bidx (frows A) i) (bidx (fcols A) j))
          (fget B (bidx (frows B) i) (bidx (fcols B) j))).
Proof.
  unfold fzip.
  destruct (broadcast_dim (frows A) (frows B)) as [r|]; [|discriminate].
  destruct (broadcast_dim (fcols A) (fcols B)) as [c|]; [|discriminate].
  intros [= <-]. simpl. auto.
Qed.


Lemma fzip_Forall (P : f32 -> Prop) (f : f32 -> f32 -> f32)
    (A B C : FTensor) :
  fzip f A B = Ok C ->
  (forall i j, P (f (fget A (bidx (frows A) i) (bidx (fcols A) j))
                    (fget B (bidx (frows B) i) (bidx (fcols B) j)))) ->
  Forall P (fdata C).
Proof.
  intros H HP. apply fzip_Ok in H. destruct H as (_ & _ & ->).
  apply ftabulate_Forall. intros i j _ _. apply HP.
Qed.

(** A tensor whose stored values are all zero, and as many as its shape
    says, is the zero tensor. *)
Lemma ftabulate_length (r c : nat) (g : nat -> nat -> f32) :
  length (fdata (ftabulate r c g)) = (r * c)%nat.
Proof.
  unfold ftabulate; simpl.
  assert (Hrows : forall l : list nat,
            length (flat_map (fun i => map (g i) (seq 0 c)) l)
            = (length l * c)%nat).
  { induction l as [|a l IH]; simpl; [reflexivity|].
    now rewrite length_app, length_map, length_seq, IH. }
  rewrite Hrows. now rewrite length_seq.
Qed.

Lemma Forall_eq_repeat (x : f32) (l : list f32) :
  Forall (fun v => v = x) l -> l = repeat x (length l).
Proof.
  induction 1 as [|v l Hv _ IH]; simpl; [reflexivity|].
  now rewrite Hv, <- IH.
Qed.

Lemma fzip_all_zero (f : f32 -> f32 -> f32) (A B C : FTensor) :
  fzip f A B = Ok C -> Forall (fun v => v = Fin 0) (fdata C) -> fall_zero C.
Proof.
  intros H Hall. apply fzip_Ok in H. destruct H as (_ & _ & HC).
  unfold fall_zero, fzeros. destruct C as [r c d]; simpl in *.
  assert (Hlen : length d = (r * c)%nat).
  { apply (f_equal (fun t => length (fdata t))) in HC. simpl in HC.
    rewrite HC. apply ftabulate_length. }
  f_equal. rewrite (Forall_eq_repeat _ _ Hall). now rewrite Hlen.
Qed.

End FTensorFacts.

(** ** The methods over binary32 and effectful operators *)

Section MachineReturns.

Context {W : Type}.

Variables (self : Machine.Cell W) (X : FTensor) (edge_index : EdgeIndex)
          (edge_weight : option (list f32)).

Lemma machine_set_hidden_state_eq (H : option FTensor) (w : W) :
  Machine._set_hidden_state X H (self, w)
  = (Ok (Machine.resolved_hidden_state self H), (self, w)).
Proof. destruct H; reflexivity. Qed.

Lemma machine_invoke_Ok (f : Machine.Op W) (F A : FTensor)
    (s s' : Machine.State W) :
  Machine.invoke f F edge_index edge_weight s = (Ok A, s') ->
  exists w', f F edge_index edge_weight (snd s) = (Ok A, w') /\
             s' = (fst s, w').
Proof.
  unfold Machine.invoke.
  destruct (f F edge_index edge_weight (snd s)) as [r w'].
  intros [= -> <-]. now exists w'.
Qed.

Lemma machine_call_conv_Ok (op : Machine.Cell W -> Machine.Op W)
    (F A : FTensor) (w : W) (s' : Machine.State W) :
  Machine.call_conv op F edge_index edge_weight (self, w) = (Ok A, s') ->
  exists w', op self F edge_index edge_weight w = (Ok A, w') /\
             s' = (self, w').
Proof.
  unfold Machine.call_conv. intros Hc.
  apply bind_Ok_inv in Hc. destruct Hc as (f & s0 & Hf & Hc).
  unfold attr in Hf. inversion Hf; subst f s0.
  apply machine_invoke_Ok in Hc. exact Hc.
Qed.

Lemma lift_Ok_inv {S A : Type} (r : result A) (a : A) (s s' : S) :
  lift r s = (Ok a, s') -> r = Ok a /\ s' = s.
Proof. unfold lift. now intros [= -> <-]. Qed.

Lemma ret_Ok_inv {S A : Type} (a b : A) (s s' : S) :
  ret a s = (Ok b, s') -> b = a /\ s' = s.
Proof. unfold ret. now intros [= -> <-]. Qed.

Lemma machine_update_gate_Ok (H Z : FTensor) (w : W)
    (s' : Machine.State W) :
  Machine._calculate_update_gate X edge_index edge_weight H (self, w)
    = (Ok Z, s') ->
  exists A B S w1 w2,
    Machine.conv_x_z self X edge_index edge_weight w = (Ok A, w1) /\
    Machine.conv_h_z self H edge_index edge_weight w1 = (Ok B, w2) /\
    ftadd A B = Ok S /\ Z = ftsigmoid S /\ s' = (self, w2).
Proof.
  unfold Machine._calculate_update_gate. intros Hm.
  apply bind_Ok_inv in Hm. destruct Hm as (A & s1 & HA & Hm).
  apply machine_call_conv_Ok in HA. destruct HA as (w1 & HA & ->).
  apply bind_Ok_inv in Hm. destruct Hm as (B & s2 & HB & Hm).
  apply machine_call_conv_Ok in HB. destruct HB as (w2 & HB & ->).
  apply bind_Ok_inv in Hm. destruct Hm as (S & s3 & HS & Hm).
  apply lift_Ok_inv in HS. destruct HS as [HS ->].
  apply ret_Ok_inv in Hm. destruct Hm as [-> ->].
  exists A, B, S, w1, w2. auto.
Qed.

Lemma machine_reset_gate_Ok (H R : FTensor) (w : W)
    (s' : Machine.State W) :
  Machine._calculate_reset_gate X edge_index edge_weight H (self, w)
    = (Ok R, s') ->
  exists A B S w1 w2,
    Machine.conv_x_r self X edge_index edge_weight w = (Ok A, w1) /\
    Machine.conv_h_r self H edge_index edge_weight w1 = (Ok B, w2) /\
    ftadd A B = Ok S /\ R = ftsigmoid S /\ s' = (self, w2).
Proof.
  unfold Machine._calculate_reset_gate. intros Hm.
  apply bind_Ok_inv in Hm. destruct Hm as (A & s1 & HA & Hm).
  apply machine_call_conv_Ok in HA. destruct HA as (w1 & HA & ->).
  apply bind_Ok_inv in Hm. destruct Hm as (B & s2 & HB & Hm).
  apply machine_call_conv_Ok in HB. destruct HB as (w2 & HB & ->).
  apply bind_Ok_inv in Hm. destruct Hm as (S & s3 & HS & Hm).
  apply lift_Ok_inv in HS. destruct HS as [HS ->].
  apply ret_Ok_inv in Hm. destruct Hm as [-> ->].
  exists A, B, S, w1, w2. auto.
Qed.

Lemma machine_candidate_state_Ok (H R H_t : FTensor) (w : W)
    (s' : Machine.State W) :
  Machine._calculate_candidate_state X edge_index edge_weight H R (self, w)
    = (Ok H_t, s') ->
  exists A HR B S w1 w2,
    Machine.conv_x_h self X edge_index edge_weight w = (Ok A, w1) /\
    ftmul H R = Ok HR /\
    Machine.conv_h_h self HR edge_index edge_weight w1 = (Ok B, w2) /\
    ftadd A B = Ok S /\ H_t = fttanh S /\ s' = (self, w2).
Proof.
  unfold Machine._calculate_candidate_state. intros Hm.
  apply bind_Ok_inv in Hm. destruct Hm as (A & s1 & HA & Hm).
  apply machine_call_conv_Ok in HA. destruct HA as (w1 & HA & ->).
  apply bind_Ok_inv in Hm. destruct Hm as (f & s2 & Hf & Hm).
  unfold attr in Hf. inversion Hf; subst f s2.
  apply bind_Ok_inv in Hm. destruct Hm as (HR & s3 & HHR & Hm).
  apply lift_Ok_inv in HHR. destruct HHR as [HHR ->].
  apply bind_Ok_inv in Hm. destruct Hm as (B & s4 & HB & Hm).
  apply machine_invoke_Ok in HB. destruct HB as (w2 & HB & ->).
  apply bind_Ok_inv in Hm. destruct Hm as (S & s5 & HS & Hm).
  apply lift_Ok_inv in HS. destruct HS as [HS ->].
  apply ret_Ok_inv in Hm. destruct Hm as [-> ->].
  exists A, HR, B, S, w1, w2. simpl in *. auto 10.
Qed.

Lemma machine_hidden_state_Ok (O C H' : FTensor) (s s' : Machine.State W) :
  Machine._calculate_hidden_state O C s = (Ok H', s') ->
  ftmul O (fttanh C) = Ok H' /\ s' = s.
Proof.
  unfold Machine._calculate_hidden_state. intros Hm.
  apply bind_Ok_inv in Hm. destruct Hm as (Hn & s1 & HH & Hm).
  apply lift_Ok_inv in HH. destruct HH as [HH ->].
  apply ret_Ok_inv in Hm. destruct Hm as [-> ->]. now split.
Qed.

Lemma machine_forward_Ok (H : option FTensor) (H' : FTensor) (w : W)
    (s' : Machine.State W) :
  Machine.forward X edge_index edge_weight H (self, w) = (Ok H', s') ->
  exists Z R H_t w1 w2 w3,
    Machine._calculate_update_gate X edge_index edge_weight
      (Machine.resolved_hidden_state self H) (self, w)
      = (Ok Z, (self, w1)) /\
    Machine._calculate_reset_gate X edge_index edge_weight
      (Machine.resolved_hidden_state self H) (self, w1)
      = (Ok R, (self, w2)) /\
    Machine._calculate_candidate_state X edge_index edge_weight
      (Machine.resolved_hidden_state self H) R (self, w2)
      = (Ok H_t, (self, w3)) /\
    ftmul (Machine.resolved_hidden_state self H) (fttanh H_t) = Ok H' /\
    s' = (self, w3).
Proof.
  unfold Machine.forward. intros Hf.
  apply bind_Ok_inv in Hf. destruct Hf as (H0 & s0 & Hset & Hf).
  rewrite machine_set_hidden_state_eq in Hset. inversion Hset; subst H0 s0.
  apply bind_Ok_inv in Hf. destruct Hf as (Z & s1 & HZ & Hf).
  pose proof HZ as HZ'. apply machine_update_gate_Ok in HZ'.
  destruct HZ' as (_ & _ & _ & _ & w1 & _ & _ & _ & _ & ->).
  apply bind_Ok_inv in Hf. destruct Hf as (R & s2 & HR & Hf).
  pose proof HR as HR'. apply machine_reset_gate_Ok in HR'.
  destruct HR' as (_ & _ & _ & _ & w2 & _ & _ & _ & _ & ->).
  apply bind_Ok_inv in Hf. destruct Hf as (H_t & s3 & HC & Hf).
  pose proof HC as HC'. apply machine_candidate_state_Ok in HC'.
  destruct HC' as (_ & _ & _ & _ & _ & w3 & _ & _ & _ & _ & _ & ->).
  apply bind_Ok_inv in Hf. destruct Hf as (Hn & s4 & HH & Hf).
  apply machine_hidden_state_Ok in HH. destruct HH as [HH ->].
  inversion Hf; subst. exists Z, R, H_t, w1, w2, w3. auto.
Qed.

Lemma keeps_cell_ret {A : Type} (a : A) : keeps_cell (W := W) (ret a).
Proof. now intros s. Qed.

Lemma keeps_cell_attr {A : Type} (field : Machine.State W -> A) :
  keeps_cell (W := W) (attr field).
Proof. now intros s. Qed.

Lemma keeps_cell_lift {A : Type} (r : result A) :
  keeps_cell (W := W) (lift r).
Proof. now intros s. Qed.

Lemma keeps_cell_invoke (f : Machine.Op W) (F : FTensor) :
  keeps_cell (W := W) (Machine.invoke f F edge_index edge_weight).
Proof.
  intros s. unfold after, Machine.invoke.
  now destruct (f F edge_index edge_weight (snd s)).
Qed.

Lemma keeps_cell_bind {A B : Type} (m : Machine.Method W A)
    (k : A -> Machine.Method W B) :
  keeps_cell m -> (forall a, keeps_cell (k a)) -> keeps_cell (bind m k).
Proof.
  intros Hm Hk s. unfold after, bind.
  specialize (Hm s). unfold after in Hm.
  destruct (m s) as [[a|e] s1]; simpl in Hm.
  - rewrite <- Hm. apply Hk.
  - exact Hm.
Qed.

(** No method assigns an attribute: the cell after a call is the cell
    before it, whatever the operators do to the world. *)
Lemma machine_forward_keeps_cell (H : option FTensor) :
  keeps_cell (W := W) (Machine.forward X edge_index edge_weight H).
Proof.
  unfold Machine.forward, Machine._calculate_hidden_state,
    Machine._calculate_candidate_state, Machine._calculate_reset_gate,
    Machine._calculate_update_gate, Machine._set_hidden_state,
    Machine.call_conv.
  destruct H;
  repeat first
    [ apply keeps_cell_ret | apply keeps_cell_attr | apply keeps_cell_lift
    | apply keeps_cell_invoke | apply keeps_cell_bind; [| intros ?] ].
Qed.

End MachineReturns.

Lemma run_after_eq {S A : Type} (m : M S A) (s : S) :
  m s = (run m s, after m s).
Proof. unfold run, after. now destruct (m s). Qed.

(** ** Entries of the result of a call *)

Section MachineEntries.

Context {W : Type}.

Variable self : Machine.Cell W.

(** The second factor of the final product is never infinite: it is not a
    number or lies in [-1,1]. *)
Lemma activated_entry (C : FTensor) (i j : nat) :
  nan_or_within (-1) 1 (fget (fttanh C) i j).
Proof.
  apply fget_Forall.
  - right. exists 0. split; [reflexivity | lra].
  - apply fmap_Forall. apply ftanh_range.
Qed.



Lemma machine_unroll_step (X : FTensor) (edge_index : EdgeIndex)
    (edge_weight : option (list f32)) (rest : list Machine.FStep)
    (H Hn : FTensor) (w : W) (s' : Machine.State W) :
  Machine.unroll ((X, edge_index, edge_weight) :: rest) H (self, w)
    = (Ok Hn, s') ->
  exists H1 w1,
    Machine.forward X edge_index edge_weight (Some H) (self, w)
      = (Ok H1, (self, w1)) /\
    Machine.unroll rest H1 (self, w1) = (Ok Hn, s').
Proof.
  simpl. intros Hu. apply bind_Ok_inv in Hu.
  destruct Hu as (H1 & s1 & Hf & Hrest).
  pose proof Hf as Hf'. apply machine_forward_Ok in Hf'.
  destruct Hf' as (_ & _ & _ & _ & _ & w3 & _ & _ & _ & _ & ->).
  now exists H1, w3.
Qed.




(** One call keeps "zero or not a number" at every entry. *)
Lemma machine_forward_zero_or_nan (X : FTensor) (edge_index : EdgeIndex)
    (edge_weight : option (list f32)) (H : option FTensor) (H' : FTensor)
    (w : W) (s' : Machine.State W) :
  (forall i j, zero_or_nan (fget (Machine.resolved_hidden_state self H) i j)) ->
  Machine.forward X edge_index edge_weight H (self, w) = (Ok H', s') ->
  Forall zero_or_nan (fdata H').
Proof.
  intros Hz Hf. apply machine_forward_Ok in Hf.
  destruct Hf as (Z & R & H_t & w1 & w2 & w3 & _ & _ & _ & Hmul & _).
  apply (fzip_Forall _ _ _ _ _ Hmul). intros i j.
  destruct (Hz (bidx (frows (Machine.resolved_hidden_state self H)) i)
               (bidx (fcols (Machine.resolved_hidden_state self H)) j))
    as [->| ->]; [|now right].
  destruct (activated_entry H_t (bidx (frows (fttanh H_t)) i)
              (bidx (fcols (fttanh H_t)) j)) as [->|(r & -> & _)].
  - now right.
  - left. apply fmul_0_l.
Qed.

Lemma fget_zero_or_nan (t : FTensor) (i j : nat) :
  Forall zero_or_nan (fdata t) -> zero_or_nan (fget t i j).
Proof. intros Hall. apply fget_Forall; [now left | exact Hall]. Qed.

Lemma machine_unroll_zero_or_nan (steps : list Machine.FStep)
    (H Hn : FTensor) (w : W) (s' : Machine.State W) :
  Forall zero_or_nan (fdata H) ->
  Machine.unroll steps H (self, w) = (Ok Hn, s') ->
  Forall zero_or_nan (fdata Hn).
Proof.
  revert H w. induction steps as [|[[X edge_index] edge_weight] rest IH];
    intros H w Hz Hu.
  - simpl in Hu. inversion Hu; subst. exact Hz.
  - apply machine_unroll_step in Hu. destruct Hu as (H1 & w1 & Hf & Hrest).
    apply (IH H1 w1); [|exact Hrest].
    refine (machine_forward_zero_or_nan X edge_index edge_weight (Some H)
              H1 w (self, w1) _ Hf).
    intros i j. simpl. now apply fget_zero_or_nan.
Qed.

(** With a zero previous state the result is the zero matrix as soon as
    the candidate holds no NaN. *)
Lemma machine_forward_zero (H : option FTensor) (H' H_t : FTensor) :
  fall_zero (Machine.resolved_hidden_state self H) ->
  ftmul (Machine.resolved_hidden_state self H) (fttanh H_t) = Ok H' ->
  ~ In NaN (fdata H_t) -> fall_zero H'.
Proof.
  intros Hz Hmul Hnan. apply (fzip_all_zero _ _ _ _ Hmul).
  apply (fzip_Forall _ _ _ _ _ Hmul). intros i j.
  rewrite (fget_fall_zero _ _ _ Hz).
  pose proof (fget_cases (fttanh H_t) (bidx (frows (fttanh H_t)) i)
                (bidx (fcols (fttanh H_t)) j)) as Hcase.
  remember (fget (fttanh H_t) (bidx (frows (fttanh H_t)) i)
              (bidx (fcols (fttanh H_t)) j)) as v eqn:Hv.
  clear Hv. destruct Hcase as [->|Hin]; [apply fmul_0_l|].
  change (In v (map ftanh (fdata H_t))) in Hin.
  apply in_map_iff in Hin. destruct Hin as (x & <- & Hin).
  rewrite fmul_0_ftanh.
  destruct x; try reflexivity. contradiction.
Qed.

End MachineEntries.

(** ** A call on inputs of the documented shapes returns *)

Section MachineShapes.

Context {W : Type}.

Variables (self : Machine.Cell W) (X : FTensor) (edge_index : EdgeIndex)
          (edge_weight : option (list f32)).

Lemma fzip_same_shape (f : f32 -> f32 -> f32) (A B : FTensor) :
  frows A = frows B -> fcols A = fcols B ->
  fzip f A B =
  Ok (ftabulate (frows A) (fcols A) (fun i j => f (fget A i j) (fget B i j))).
Proof.
  intros Hr Hc. unfold fzip.
  rewrite <- Hr, <- Hc, !broadcast_dim_same. f_equal.
  apply ftabulate_ext. intros i j Hi Hj.
  now rewrite !bidx_lt by assumption.
Qed.

Lemma fzip_returns (f : f32 -> f32 -> f32) (A B : FTensor) (n c : nat) :
  frows A = n -> fcols A = c -> frows B = n -> fcols B = c ->
  exists C, fzip f A B = Ok C /\ frows C = n /\ fcols C = c.
Proof.
  intros HrA HcA HrB HcB.
  rewrite fzip_same_shape by congruence.
  eexists. split; [reflexivity|]. now split.
Qed.

Lemma machine_call_conv_eq (op : Machine.Cell W -> Machine.Op W)
    (F A : FTensor) (w w' : W) :
  op self F edge_index edge_weight w = (Ok A, w') ->
  Machine.call_conv op F edge_index edge_weight (self, w)
  = (Ok A, (self, w')).
Proof.
  intros Hop. unfold Machine.call_conv, Machine.invoke, bind, attr. simpl.
  now rewrite Hop.
Qed.

Lemma machine_update_gate_eq (H A B S : FTensor) (w w1 w2 : W) :
  Machine.conv_x_z self X edge_index edge_weight w = (Ok A, w1) ->
  Machine.conv_h_z self H edge_index edge_weight w1 = (Ok B, w2) ->
  ftadd A B = Ok S ->
  Machine._calculate_update_gate X edge_index edge_weight H (self, w)
  = (Ok (ftsigmoid S), (self, w2)).
Proof.
  intros HA HB HS. unfold Machine._calculate_update_gate.
  rewrite (bind_Ok_intro _ _ _ _ _
             (machine_call_conv_eq Machine.conv_x_z _ _ _ _ HA)).
  rewrite (bind_Ok_intro _ _ _ _ _
             (machine_call_conv_eq Machine.conv_h_z _ _ _ _ HB)).
  unfold bind, lift, ret. now rewrite HS.
Qed.

Lemma machine_reset_gate_eq (H A B S : FTensor) (w w1 w2 : W) :
  Machine.conv_x_r self X edge_index edge_weight w = (Ok A, w1) ->
  Machine.conv_h_r self H edge_index edge_weight w1 = (Ok B, w2) ->
  ftadd A B = Ok S ->
  Machine._calculate_reset_gate X edge_index edge_weight H (self, w)
  = (Ok (ftsigmoid S), (self, w2)).
Proof.
  intros HA HB HS. unfold Machine._calculate_reset_gate.
  rewrite (bind_Ok_intro _ _ _ _ _
             (machine_call_conv_eq Machine.conv_x_r _ _ _ _ HA)).
  rewrite (bind_Ok_intro _ _ _ _ _
             (machine_call_conv_eq Machine.conv_h_r _ _ _ _ HB)).
  unfold bind, lift, ret. now rewrite HS.
Qed.

Lemma machine_candidate_state_eq (H R A HR B S : FTensor) (w w1 w2 : W) :
  Machine.conv_x_h self X edge_index edge_weight w = (Ok A, w1) ->
  ftmul H R = Ok HR ->
  Machine.conv_h_h self HR edge_index edge_weight w1 = (Ok B, w2) ->
  ftadd A B = Ok S ->
  Machine._calculate_candidate_state X edge_index edge_weight H R (self, w)
  = (Ok (fttanh S), (self, w2)).
Proof.
  intros HA HHR HB HS. unfold Machine._calculate_candidate_state.
  rewrite (bind_Ok_intro _ _ _ _ _
             (machine_call_conv_eq Machine.conv_x_h _ _ _ _ HA)).
  unfold bind, attr, lift, ret, Machine.invoke. simpl.
  now rewrite HHR, HB, HS.
Qed.

Lemma machine_forward_eq (H : option FTensor) (Z R H_t H' : FTensor)
    (w w1 w2 w3 : W) :
  Machine._calculate_update_gate X edge_index edge_weight
    (Machine.resolved_hidden_state self H) (self, w)
    = (Ok Z, (self, w1)) ->
  Machine._calculate_reset_gate X edge_index edge_weight
    (Machine.resolved_hidden_state self H) (self, w1)
    = (Ok R, (self, w2)) ->
  Machine._calculate_candidate_state X edge_index edge_weight
    (Machine.resolved_hidden_state self H) R (self, w2)
    = (Ok H_t, (self, w3)) ->
  ftmul (Machine.resolved_hidden_state self H) (fttanh H_t) = Ok H' ->
  Machine.forward X edge_index edge_weight H (self, w)
  = (Ok H', (self, w3)).
Proof.
  intros HZ HR HC HH. unfold Machine.forward.
  rewrite (bind_Ok_intro _ _ _ _ _ (machine_set_hidden_state_eq self X H w)).
  rewrite (bind_Ok_intro _ _ _ _ _ HZ).
  rewrite (bind_Ok_intro _ _ _ _ _ HR).
  rewrite (bind_Ok_intro _ _ _ _ _ HC).
  unfold Machine._calculate_hidden_state, bind, lift, ret.
  now rewrite HH.
Qed.

Lemma machine_forward_returns (H : option FTensor) (w : W) :
  machine_valid_cell self ->
  machine_valid_input self X edge_index edge_weight H ->
  exists H' w',
    Machine.forward X edge_index edge_weight H (self, w)
      = (Ok H', (self, w')) /\
    frows H' = Machine.number_of_nodes self /\
    fcols H' = Machine.out_channels self.
Proof.
  intros (Cxz & Chz & Cxr & Chr & Cxh & Chh) (HrX & HcX & Htop & HH).
  set (H0 := Machine.resolved_hidden_state self H).
  assert (HrH : frows H0 = Machine.number_of_nodes self)
    by (destruct H as [H|]; [apply HH | reflexivity]).
  assert (HcH : fcols H0 = Machine.out_channels self)
    by (destruct H as [H|]; [apply HH | reflexivity]).
  assert (HtopX : ftopology (frows X) edge_index edge_weight)
    by now rewrite HrX.
  assert (HtopH : ftopology (frows H0) edge_index edge_weight)
    by now rewrite HrH.
  destruct (Cxz X edge_index edge_weight w HcX HtopX)
    as (A & w1 & HA & HrA & HcA).
  destruct (Chz H0 edge_index edge_weight w1 HcH HtopH)
    as (B & w2 & HB & HrB & HcB).
  destruct (fzip_returns fadd A B (Machine.number_of_nodes self)
              (Machine.out_channels self)) as (S & HS & HrS & HcS);
    try congruence.
  destruct (Cxr X edge_index edge_weight w2 HcX HtopX)
    as (A' & w3 & HA' & HrA' & HcA').
  destruct (Chr H0 edge_index edge_weight w3 HcH HtopH)
    as (B' & w4 & HB' & HrB' & HcB').
  destruct (fzip_returns fadd A' B' (Machine.number_of_nodes self)
              (Machine.out_channels self)) as (S' & HS' & HrS' & HcS');
    try congruence.
  destruct (Cxh X edge_index edge_weight w4 HcX HtopX)
    as (A'' & w5 & HA'' & HrA'' & HcA'').
  destruct (fzip_returns fmul H0 (ftsigmoid S')
              (Machine.number_of_nodes self) (Machine.out_channels self))
    as (HR & HHR & HrHR & HcHR); try assumption.
  assert (HtopHR : ftopology (frows HR) edge_index edge_weight)
    by now rewrite HrHR.
  destruct (Chh HR edge_index edge_weight w5 HcHR HtopHR)
    as (B'' & w6 & HB'' & HrB'' & HcB'').
  destruct (fzip_returns fadd A'' B'' (Machine.number_of_nodes self)
              (Machine.out_channels self)) as (S'' & HS'' & HrS'' & HcS'');
    try congruence.
  destruct (fzip_returns fmul H0 (fttanh (fttanh S''))
              (Machine.number_of_nodes self) (Machine.out_channels self))
    as (H' & HH' & HrH' & HcH'); try assumption.
  exists H', w6. split; [|now split].
  apply (machine_forward_eq H (ftsigmoid S) (ftsigmoid S') (fttanh S'') H'
           w w2 w4 w6).
  - exact (machine_update_gate_eq _ _ _ _ _ _ _ HA HB HS).
  - exact (machine_reset_gate_eq _ _ _ _ _ _ _ HA' HB' HS').
  - exact (machine_candidate_state_eq _ _ _ _ _ _ _ _ _ HA'' HHR HB'' HS'').
  - exact HH'.
Qed.

End MachineShapes.

(** ** The order-one filter in binary32 keeps the shape contract *)

Section FCheb1Facts.

Lemma edges_in_range_ftopology (n : nat) (edge_index : EdgeIndex)
    (edge_weight : option (list f32)) :
  ftopology n edge_index edge_weight ->
  edges_in_range n edge_index = true.
Proof.
  intros [Hall _]. unfold edges_in_range. apply forallb_forall.
  intros e He. rewrite Forall_forall in Hall.
  destruct (Hall e He) as [Hs Ht].
  apply andb_true_intro. split; now apply Nat.ltb_lt.
Qed.

Lemma fcheb1_shape_contract {W : Type} (p : FCheb1) (c_in c_out : nat) :
  frows (fweight p) = c_in -> fcols (fweight p) = c_out ->
  length (fbias p) = c_out ->
  op_shape_contract (W := W) (stateless (fcheb1 p)) c_in c_out.
Proof.
  intros Hr Hc Hb F edge_index edge_weight w HF Htop.
  unfold stateless, fcheb1.
  rewrite (edges_in_range_ftopology _ _ _ Htop).
  unfold fmatmul. replace (frows (fweight p)) with (fcols F) by congruence.
  rewrite Nat.eqb_refl.
  unfold ftadd, fzip. simpl.
  rewrite broadcast_dim_one_r, Hb, Hc, broadcast_dim_same.
  eexists. exists w. split; [reflexivity|]. now split.
Qed.

Lemma stateless_pure {W : Type}
    (g : FTensor -> EdgeIndex -> option (list f32) -> result FTensor) :
  Machine.pure_op (W := W) (stateless g).
Proof. now exists g. Qed.

Lemma scalar_cell_valid (n : nat) (xz hz xr hr xh hh : f32) :
  machine_valid_cell (scalar_cell n xz hz xr hr xh hh).
Proof.
  unfold machine_valid_cell, scalar_cell; simpl.
  repeat split; now apply fcheb1_shape_contract.
Qed.

Lemma scalar_cell_pure (n : nat) (xz hz xr hr xh hh : f32) :
  Machine.pure_cell (scalar_cell n xz hz xr hr xh hh).
Proof.
  unfold Machine.pure_cell, scalar_cell; simpl.
  repeat split; apply stateless_pure.
Qed.

(** A call of the one-channel cell on one node, written out. *)
Lemma scalar_cell_forward (xz hz xr hr xh hh x h : f32) (H : option FTensor) :
  Machine.resolved_hidden_state
    (scalar_cell 1 xz hz xr hr xh hh) H = scalar h ->
  Machine.forward (scalar x) [] None H
    (scalar_cell 1 xz hz xr hr xh hh, tt)
  = (Ok (scalar
          (fmul h
             (ftanh (ftanh
                (fadd (affine xh (Fin 0) x)
                   (affine hh (Fin 0)
                      (fmul h
                         (fsigmoid
                            (fadd (affine xr (Fin 0) x)
                                  (affine hr (Fin 0) h)))))))))),
     (scalar_cell 1 xz hz xr hr xh hh, tt)).
Proof.
  intros HH.
  apply (machine_forward_eq _ _ _ _ H
           (scalar (fsigmoid (fadd (affine xz (Fin 0) x)
                                   (affine hz (Fin 0) h))))
           (scalar (fsigmoid (fadd (affine xr (Fin 0) x)
                                   (affine hr (Fin 0) h))))
           (scalar (ftanh
               (fadd (affine xh (Fin 0) x)
                  (affine hh (Fin 0)
                     (fmul h
                        (fsigmoid
                           (fadd (affine xr (Fin 0) x)
                                 (affine hr (Fin 0) h))))))))
           _ tt tt tt tt); rewrite HH; reflexivity.
Qed.

End FCheb1Facts.

Section ScalarEvaluation.

Lemma affine_zero_weight (x : R) : affine (Fin 0) (Fin 0) (Fin x) = Fin 0.
Proof.
  unfold affine. rewrite fmul_0_r.
  now rewrite !fadd_0_l by apply representable_0.
Qed.

Lemma affine_unit_weight (x : R) :
  representable x -> affine (Fin 1) (Fin 0) (Fin x) = Fin x.
Proof.
  intros Hx. unfold affine.
  now rewrite fmul_1_r, fadd_0_l, fadd_0_r by assumption.
Qed.

Lemma affine_nan (weight bias : f32) : affine weight bias NaN = NaN.
Proof. unfold affine. simpl. reflexivity. Qed.


Lemma representable_32 : representable 32.
Proof. apply (representable_IZR 32). reflexivity. Qed.



Lemma fmul_half_Fin (h : R) :
  representable h -> exists x, fmul (Fin h) (Fin (1 / 2)) = Fin x.
Proof.
  intros Hh. unfold fmul.
  assert (Hb : Rabs (h * (1 / 2)) <= Rabs h).
  { rewrite Rabs_mult. rewrite (Rabs_pos_eq (1 / 2)) by lra.
    pose proof (Rabs_pos h). lra. }
  destruct (round_bounded _ _ Hh Hb) as [-> _]. now eexists.
Qed.

End ScalarEvaluation.

(** ** A zero hidden state in binary32 *)

(** The features NaN on one node, every operator the filter of weight one
    and bias zero, H omitted: the call returns NaN, not zero. *)
Lemma nan_features_reach_the_result :
  fall_zero
    (Machine.resolved_hidden_state
       (scalar_cell 1 (Fin 1) (Fin 1) (Fin 1) (Fin 1) (Fin 1) (Fin 1)) None) /\
  run (Machine.forward (scalar NaN) [] None None)
      (scalar_cell 1 (Fin 1) (Fin 1) (Fin 1) (Fin 1) (Fin 1) (Fin 1), tt)
    = Ok (scalar NaN) /\
  ~ fall_zero (scalar NaN).
Proof.
  split; [reflexivity|]. split.
  - unfold run.
    rewrite (scalar_cell_forward _ _ _ _ _ _ NaN (Fin 0) None eq_refl).
    reflexivity.
  - unfold fall_zero. simpl. discriminate.
Qed.

(** C2. In binary32 a zero hidden state does not always give the zero
    matrix, because zero times NaN is NaN.  What holds: if the previous
    hidden state that the defaulting step resolves is the all-zero matrix,
    in particular whenever H is omitted, every entry of the matrix that
    [forward] returns is zero or NaN, whatever the features, the edges,
    their weights and the operators are; the matrix is all zero if it
    holds no NaN, and it holds none if the candidate state holds none; and
    on a consistently configured cell with inputs of the documented shapes
    the call with H omitted does return, a matrix of shape
    (number_of_nodes, out_channels). *)
Theorem zero_hidden_state_gives_zero_or_nan {W : Type}
    (self : Machine.Cell W) (X : FTensor) (edge_index : EdgeIndex)
    (edge_weight : option (list f32)) :
  (forall H H' w,
     fall_zero (Machine.resolved_hidden_state self H) ->
     run (Machine.forward X edge_index edge_weight H) (self, w) = Ok H' ->
     Forall zero_or_nan (fdata H') /\
     (~ In NaN (fdata H') -> fall_zero H') /\
     exists R H_t w2 w3,
       Machine._calculate_candidate_state X edge_index edge_weight
         (Machine.resolved_hidden_state self H) R (self, w2)
         = (Ok H_t, (self, w3)) /\
       ftmul (Machine.resolved_hidden_state self H) (fttanh H_t) = Ok H' /\
       (~ In NaN (fdata H_t) -> fall_zero H')) /\
  (machine_valid_cell self ->
   machine_valid_input self X edge_index edge_weight None ->
   forall w, exists H',
     run (Machine.forward X edge_index edge_weight None) (self, w) = Ok H' /\
     fshape H' = (Machine.number_of_nodes self, Machine.out_channels self) /\
     Forall zero_or_nan (fdata H')).
Proof.
  assert (Hgen : forall H H' w s',
            fall_zero (Machine.resolved_hidden_state self H) ->
            Machine.forward X edge_index edge_weight H (self, w)
              = (Ok H', s') ->
            Forall zero_or_nan (fdata H')).
  { intros H H' w s' Hz Hf.
    apply (machine_forward_zero_or_nan self X edge_index edge_weight H H'
             w s'); [|exact Hf].
    intros i j. left. now apply fget_fall_zero. }
  split.
  - intros H H' w Hz Hrun.
    pose proof (run_after_eq (Machine.forward X edge_index edge_weight H)
                  (self, w)) as Hf.
    rewrite Hrun in Hf.
    pose proof (Hgen _ _ _ _ Hz Hf) as Hall.
    apply machine_forward_Ok in Hf.
    destruct Hf as (Z & R & H_t & w1 & w2 & w3 & _ & _ & HC & Hmul & _).
    split; [exact Hall|]. split.
    + intros Hnan. apply (fzip_all_zero _ _ _ _ Hmul).
      rewrite Forall_forall in *. intros v Hv.
      destruct (Hall v Hv) as [->| ->]; [reflexivity|contradiction].
    + exists R, H_t, w2, w3. split; [exact HC|]. split; [exact Hmul|].
      exact (machine_forward_zero self H H' H_t Hz Hmul).
  - intros Hcell Hin w.
    destruct (machine_forward_returns self X edge_index edge_weight None w
                Hcell Hin) as (H' & w' & Hf & Hr & Hc).
    exists H'. split; [unfold run; now rewrite Hf|].
    split; [unfold fshape; now rewrite Hr, Hc|].
    apply (Hgen None H' w _ (fzeros_fall_zero _ _) Hf).
Qed.

Lemma zero_hidden_state_gives_zero_or_nan_witness :
  exists H',
    run (Machine.forward (scalar (Fin 1)) [] None None)
        (scalar_cell 1 (Fin 1) (Fin 1) (Fin 1) (Fin 1) (Fin 1) (Fin 1), tt)
      = Ok H' /\
    fshape H' = (1%nat, 1%nat) /\
    Forall zero_or_nan (fdata H').
Proof.
  destruct (zero_hidden_state_gives_zero_or_nan
              (scalar_cell 1 (Fin 1) (Fin 1) (Fin 1) (Fin 1) (Fin 1) (Fin 1))
              (scalar (Fin 1)) [] None) as (_ & Hret).
  apply Hret.
  - apply scalar_cell_valid.
  - repeat split; constructor.
Defined.

(** ** Ranges of the gates in binary32 *)

Lemma scalar_cell_update_gate (xz hz xr hr xh hh x h : f32) :
  Machine._calculate_update_gate (scalar x) [] None (scalar h)
    (scalar_cell 1 xz hz xr hr xh hh, tt)
  = (Ok (scalar (fsigmoid (fadd (affine xz (Fin 0) x)
                                (affine hz (Fin 0) h)))),
     (scalar_cell 1 xz hz xr hr xh hh, tt)).
Proof. reflexivity. Qed.

(** The feature 32 on one node, the update operators the filters of weight
    one and weight zero: the update gate is exactly 1. *)
Lemma update_gate_at_32 :
  run (Machine._calculate_update_gate (scalar (Fin 32)) [] None
         (scalar (Fin 0)))
      (scalar_cell 1 (Fin 1) (Fin 0) (Fin 0) (Fin 0) (Fin 0) (Fin 0), tt)
    = Ok (scalar (Fin 1)).
Proof.
  unfold run. rewrite scalar_cell_update_gate. cbv beta iota delta [fst].
  rewrite affine_unit_weight by apply representable_32.
  rewrite affine_zero_weight.
  rewrite fadd_0_r by apply representable_32.
  now rewrite fsigmoid_32.
Qed.

Lemma update_gate_reaches_one :
  run (Machine._calculate_update_gate (scalar (Fin 32)) [] None
         (Machine.resolved_hidden_state
            (scalar_cell 1 (Fin 1) (Fin 0) (Fin 0) (Fin 0) (Fin 0) (Fin 0))
            None))
      (scalar_cell 1 (Fin 1) (Fin 0) (Fin 0) (Fin 0) (Fin 0) (Fin 0), tt)
    = Ok (scalar (Fin 1)) /\
  fget (scalar (Fin 1)) 0 0 = Fin 1 /\
  ~ (exists z, fget (scalar (Fin 1)) 0 0 = Fin z /\ 0 < z < 1).
Proof.
  split; [exact update_gate_at_32|]. split; [reflexivity|].
  intros (z & Hz & Hlt). change (Fin 1 = Fin z) in Hz.
  inversion Hz. lra.
Qed.

(** C6. In binary32 the intervals are closed and NaN passes through:
    every element of the update gate Z and of the reset gate R is NaN or
    lies in [0,1], and every element of the candidate state H_t is NaN or
    lies in [-1,1]. *)
Theorem gate_ranges_closed {W : Type} (self : Machine.Cell W)
    (X : FTensor) (edge_index : EdgeIndex)
    (edge_weight : option (list f32)) (H R : FTensor) (w : W) :
  (forall Z,
     run (Machine._calculate_update_gate X edge_index edge_weight H)
         (self, w) = Ok Z ->
     Forall (nan_or_within 0 1) (fdata Z) /\
     forall i j, nan_or_within 0 1 (fget Z i j)) /\
  (forall R',
     run (Machine._calculate_reset_gate X edge_index edge_weight H)
         (self, w) = Ok R' ->
     Forall (nan_or_within 0 1) (fdata R') /\
     forall i j, nan_or_within 0 1 (fget R' i j)) /\
  (forall H_t,
     run (Machine._calculate_candidate_state X edge_index edge_weight H R)
         (self, w) = Ok H_t ->
     Forall (nan_or_within (-1) 1) (fdata H_t) /\
     forall i j, nan_or_within (-1) 1 (fget H_t i j)).
Proof.
  assert (Hzero01 : nan_or_within 0 1 (Fin 0))
    by (right; exists 0; split; [reflexivity | lra]).
  assert (Hzero11 : nan_or_within (-1) 1 (Fin 0))
    by (right; exists 0; split; [reflexivity | lra]).
  split; [|split].
  - intros Z HZ.
    pose proof (run_after_eq
                  (Machine._calculate_update_gate X edge_index edge_weight H)
                  (self, w)) as Hm.
    rewrite HZ in Hm. apply machine_update_gate_Ok in Hm.
    destruct Hm as (A & B & S & w1 & w2 & _ & _ & _ & -> & _).
    assert (Hall : Forall (nan_or_within 0 1) (fdata (ftsigmoid S)))
      by (apply fmap_Forall, fsigmoid_range).
    split; [exact Hall|]. intros i j. now apply fget_Forall.
  - intros R' HR'.
    pose proof (run_after_eq
                  (Machine._calculate_reset_gate X edge_index edge_weight H)
                  (self, w)) as Hm.
    rewrite HR' in Hm. apply machine_reset_gate_Ok in Hm.
    destruct Hm as (A & B & S & w1 & w2 & _ & _ & _ & -> & _).
    assert (Hall : Forall (nan_or_within 0 1) (fdata (ftsigmoid S)))
      by (apply fmap_Forall, fsigmoid_range).
    split; [exact Hall|]. intros i j. now apply fget_Forall.
  - intros H_t Ht.
    pose proof (run_after_eq
                  (Machine._calculate_candidate_state X edge_index
                     edge_weight H R) (self, w)) as Hm.
    rewrite Ht in Hm. apply machine_candidate_state_Ok in Hm.
    destruct Hm as (A & HR & B & S & w1 & w2 & _ & _ & _ & _ & -> & _).
    assert (Hall : Forall (nan_or_within (-1) 1) (fdata (fttanh S)))
      by (apply fmap_Forall, ftanh_range).
    split; [exact Hall|]. intros i j. now apply fget_Forall.
Qed.

Lemma gate_ranges_closed_witness :
  run (Machine._calculate_update_gate (scalar (Fin 32)) [] None
         (scalar (Fin 0)))
      (scalar_cell 1 (Fin 1) (Fin 0) (Fin 0) (Fin 0) (Fin 0) (Fin 0), tt)
    = Ok (scalar (Fin 1)) /\
  nan_or_within 0 1 (fget (scalar (Fin 1)) 0 0).
Proof.
  pose proof update_gate_at_32 as Hrun.
  split; [exact Hrun|].
  destruct (gate_ranges_closed
              (scalar_cell 1 (Fin 1) (Fin 0) (Fin 0) (Fin 0) (Fin 0) (Fin 0))
              (scalar (Fin 32)) [] None (scalar (Fin 0)) (scalar (Fin 0)) tt)
    as (HZ & _).
  apply (HZ _ Hrun).
Defined.

(** ** Determinism and statelessness *)

Section Determinism.

Context {W : Type}.

Variable self : Machine.Cell W.

(** Over operators that are functions of their arguments, a call is the
    function [forward_function] of its arguments and leaves the world as
    it found it. *)
Lemma machine_forward_function
    (g_xz g_hz g_xr g_hr g_xh g_hh :
       FTensor -> EdgeIndex -> option (list f32) -> result FTensor)
    (X : FTensor) (edge_index : EdgeIndex)
    (edge_weight : option (list f32)) (H : option FTensor) (w : W) :
  (forall F ei ew w, Machine.conv_x_z self F ei ew w = (g_xz F ei ew, w)) ->
  (forall F ei ew w, Machine.conv_h_z self F ei ew w = (g_hz F ei ew, w)) ->
  (forall F ei ew w, Machine.conv_x_r self F ei ew w = (g_xr F ei ew, w)) ->
  (forall F ei ew w, Machine.conv_h_r self F ei ew w = (g_hr F ei ew, w)) ->
  (forall F ei ew w, Machine.conv_x_h self F ei ew w = (g_xh F ei ew, w)) ->
  (forall F ei ew w, Machine.conv_h_h self F ei ew w = (g_hh F ei ew, w)) ->
  Machine.forward X edge_index edge_weight H (self, w) =
  (forward_function g_xz g_hz g_xr g_hr g_xh g_hh
     (Machine.resolved_hidden_state self H) X edge_index edge_weight,
   (self, w)).
Proof.
  intros Hxz Hhz Hxr Hhr Hxh Hhh.
  unfold Machine.forward.
  rewrite (bind_Ok_intro _ _ _ _ _ (machine_set_hidden_state_eq self X H w)).
  set (H0 := Machine.resolved_hidden_state self H).
  unfold forward_function, Machine._calculate_hidden_state,
    Machine._calculate_candidate_state, Machine._calculate_reset_gate,
    Machine._calculate_update_gate, Machine.call_conv, Machine.invoke,
    bind, attr, lift, ret, and_then. simpl.
  rewrite Hxz. destruct (g_xz X edge_index edge_weight); [|reflexivity].
  simpl. rewrite Hhz.
  destruct (g_hz H0 edge_index edge_weight); [|reflexivity].
  destruct (ftadd a a0); [|reflexivity].
  simpl. rewrite Hxr. destruct (g_xr X edge_index edge_weight); [|reflexivity].
  simpl. rewrite Hhr.
  destruct (g_hr H0 edge_index edge_weight); [|reflexivity].
  destruct (ftadd a2 a3); [|reflexivity].
  simpl. rewrite Hxh. destruct (g_xh X edge_index edge_weight); [|reflexivity].
  simpl. destruct (ftmul H0 (ftsigmoid a4)); [|reflexivity].
  simpl. rewrite Hhh. destruct (g_hh a6 edge_index edge_weight); [|reflexivity].
  destruct (ftadd a5 a7); [|reflexivity].
  simpl. destruct (ftmul H0 (fttanh (fttanh a8))); reflexivity.
Qed.

Lemma machine_forward_pure (X : FTensor) (edge_index : EdgeIndex)
    (edge_weight : option (list f32)) (H : option FTensor) :
  Machine.pure_cell self ->
  exists r, forall w,
    Machine.forward X edge_index edge_weight H (self, w) = (r, (self, w)).
Proof.
  intros ([g_xz Hxz] & [g_hz Hhz] & [g_xr Hxr] & [g_hr Hhr] &
          [g_xh Hxh] & [g_hh Hhh]).
  eexists. intros w.
  exact (machine_forward_function g_xz g_hz g_xr g_hr g_xh g_hh
           X edge_index edge_weight H w Hxz Hhz Hxr Hhr Hxh Hhh).
Qed.

End Determinism.

(** The hypothesis on the operators is needed: with an operator that counts
    its calls, the second of two equal calls returns something else. *)
Lemma stateful_operator_changes_the_result :
  run (Machine.forward (scalar (Fin 0)) [] None (Some (scalar (Fin 1))))
      (counting_cell, 0%nat) = Ok (scalar (Fin 0)) /\
  run (Machine.forward (scalar (Fin 0)) [] None (Some (scalar (Fin 1))))
      (after (Machine.forward (scalar (Fin 0)) [] None
                (Some (scalar (Fin 1)))) (counting_cell, 0%nat))
    = Ok (scalar NaN).
Proof.
  assert (Hfirst :
    Machine.forward (scalar (Fin 0)) [] None (Some (scalar (Fin 1)))
      (counting_cell, 0%nat)
    = (Ok (scalar
             (fmul (Fin 1)
                (ftanh (ftanh
                   (fadd (Fin 0)
                      (affine (Fin 0) (Fin 0)
                         (fmul (Fin 1)
                            (fsigmoid
                               (fadd (affine (Fin 0) (Fin 0) (Fin 0))
                                     (affine (Fin 0) (Fin 0) (Fin 1))))))))))),
       (counting_cell, 1%nat))) by reflexivity.
  split.
  - unfold run. rewrite Hfirst. cbv beta iota delta [fst].
    rewrite !affine_zero_weight.
    rewrite fadd_0_l by apply representable_0.
    rewrite fsigmoid_0.
    destruct (fmul_half_Fin 1 representable_1) as (x & ->).
    rewrite affine_zero_weight.
    rewrite fadd_0_l by apply representable_0.
    now rewrite !ftanh_0, fmul_0_r.
  - unfold after. rewrite Hfirst. cbv beta iota delta [snd]. reflexivity.
Qed.

(** C8. [forward] assigns no attribute of the cell, and it has no
    randomness and no state but those of the six operators: when the
    operators are functions of their arguments (fixed parameters, no state,
    no random source), a call returns a result that depends on the cell
    and the explicit inputs alone and leaves the world as it found it, so
    a repeated call, and a call made after any other call, returns the
    same. *)
Theorem forward_repeatable {W : Type} (self : Machine.Cell W)
    (X : FTensor) (edge_index : EdgeIndex)
    (edge_weight : option (list f32)) (H : option FTensor) :
  keeps_cell (W := W) (Machine.forward X edge_index edge_weight H) /\
  (Machine.pure_cell self ->
   exists r,
     (forall w,
        Machine.forward X edge_index edge_weight H (self, w)
        = (r, (self, w))) /\
     (forall w,
        run (Machine.forward X edge_index edge_weight H)
            (after (Machine.forward X edge_index edge_weight H) (self, w))
        = r) /\
     (forall w X' edge_index' edge_weight' H',
        run (Machine.forward X edge_index edge_weight H)
            (after (Machine.forward X' edge_index' edge_weight' H')
               (self, w))
        = r)).
Proof.
  split; [apply machine_forward_keeps_cell|].
  intros Hpure.
  destruct (machine_forward_pure self X edge_index edge_weight H Hpure)
    as (r & Hr).
  exists r. split; [exact Hr|]. split.
  - intros w. unfold after at 1. rewrite Hr. cbv beta iota delta [snd].
    unfold run. now rewrite Hr.
  - intros w X' edge_index' edge_weight' H'.
    destruct (machine_forward_pure self X' edge_index' edge_weight' H' Hpure)
      as (r' & Hr').
    unfold after. rewrite Hr'. cbv beta iota delta [snd]. unfold run. now rewrite Hr.
Qed.

Lemma forward_repeatable_witness :
  exists r,
    forall w,
      Machine.forward (scalar (Fin 1)) [] None (Some (scalar (Fin 1)))
        (scalar_cell 1 (Fin 1) (Fin 1) (Fin 1) (Fin 1) (Fin 1) (Fin 1), w)
      = (r, (scalar_cell 1 (Fin 1) (Fin 1) (Fin 1) (Fin 1) (Fin 1) (Fin 1),
             w)).
Proof.
  destruct (forward_repeatable
              (scalar_cell 1 (Fin 1) (Fin 1) (Fin 1) (Fin 1) (Fin 1) (Fin 1))
              (scalar (Fin 1)) [] None (Some (scalar (Fin 1))))
    as (_ & Hpure).
  destruct (Hpure (scalar_cell_pure 1 _ _ _ _ _ _)) as (r & Hr & _).
  now exists r.
Defined.

(** ** The magnitude of the hidden state in binary32 *)

Section Magnitude.

Context {W : Type}.

Variable self : Machine.Cell W.

Lemma machine_unroll_returns (steps : list Machine.FStep) (H : FTensor)
    (w : W) :
  machine_valid_cell self -> machine_valid_steps self steps ->
  frows H = Machine.number_of_nodes self ->
  fcols H = Machine.out_channels self ->
  exists Hn w', Machine.unroll steps H (self, w) = (Ok Hn, (self, w')) /\
                frows Hn = Machine.number_of_nodes self /\
                fcols Hn = Machine.out_channels self.
Proof.
  intros Hcell Hsteps. revert H w.
  induction Hsteps as [|[[X edge_index] edge_weight] rest Hstep _ IH];
    intros H w Hr Hc.
  - exists H, w. now repeat split.
  - destruct Hstep as (HrX & HcX & Htop & _). simpl in HrX, HcX, Htop.
    destruct (machine_forward_returns self X edge_index edge_weight
                (Some H) w Hcell) as (H1 & w1 & Hf & Hr1 & Hc1);
      [exact (conj HrX (conj HcX (conj Htop (conj Hr Hc))))|].
    destruct (IH H1 w1 Hr1 Hc1) as (Hn & w' & Hu & Hrn & Hcn).
    exists Hn, w'. split; [|now split].
    simpl. rewrite (bind_Ok_intro _ _ _ _ _ Hf). exact Hu.
Qed.

End Magnitude.






(** ** The zero state along a sequence, in binary32 *)

(** X5. Along a whole sequence of calls the zero state stays zero up to
    NaN: from a hidden state whose entries are zero or NaN, every later
    hidden state has entries that are zero or NaN, whatever the features,
    topologies and operators of the steps are; and on a consistently
    configured cell with valid steps the run from the zero state does end,
    in such a matrix of shape (number_of_nodes, out_channels). *)
Theorem zero_or_nan_along_a_sequence {W : Type} (self : Machine.Cell W)
    (steps : list Machine.FStep) :
  (forall H Hn w,
     Forall zero_or_nan (fdata H) ->
     run (Machine.unroll steps H) (self, w) = Ok Hn ->
     Forall zero_or_nan (fdata Hn)) /\
  (machine_valid_cell self -> machine_valid_steps self steps ->
   forall w, exists Hn,
     run (Machine.unroll steps
            (fzeros (Machine.number_of_nodes self)
                    (Machine.out_channels self))) (self, w) = Ok Hn /\
     fshape Hn = (Machine.number_of_nodes self, Machine.out_channels self) /\
     Forall zero_or_nan (fdata Hn)).
Proof.
  assert (Hgen : forall H Hn w,
            Forall zero_or_nan (fdata H) ->
            run (Machine.unroll steps H) (self, w) = Ok Hn ->
            Forall zero_or_nan (fdata Hn)).
  { intros H Hn w Hz Hrun.
    pose proof (run_after_eq (Machine.unroll steps H) (self, w)) as Hu.
    rewrite Hrun in Hu.
    exact (machine_unroll_zero_or_nan self steps H Hn w _ Hz Hu). }
  split; [exact Hgen|].
  intros Hcell Hsteps w.
  destruct (machine_unroll_returns self steps
              (fzeros (Machine.number_of_nodes self)
                 (Machine.out_channels self)) w Hcell Hsteps eq_refl eq_refl)
    as (Hn & w' & Hu & Hr & Hc).
  assert (Hrun : run (Machine.unroll steps
                        (fzeros (Machine.number_of_nodes self)
                           (Machine.out_channels self))) (self, w) = Ok Hn)
    by (unfold run; now rewrite Hu).
  exists Hn. split; [exact Hrun|].
  split; [unfold fshape; now rewrite Hr, Hc|].
  refine (Hgen _ Hn w _ Hrun).
  unfold fzeros; simpl.
  apply Forall_forall. intros v Hv. apply repeat_spec in Hv. now left.
Qed.

Lemma zero_or_nan_along_a_sequence_witness :
  exists Hn,
    run (Machine.unroll [(scalar (Fin 16), [], None);
                         (scalar NaN, [], None)] (fzeros 1 1))
        (scalar_cell 1 (Fin 0) (Fin 0) (Fin 0) (Fin 0) (Fin 1) (Fin 0), tt)
      = Ok Hn /\
    fshape Hn = (1%nat, 1%nat) /\
    Forall zero_or_nan (fdata Hn).
Proof.
  destruct (zero_or_nan_along_a_sequence
              (scalar_cell 1 (Fin 0) (Fin 0) (Fin 0) (Fin 0) (Fin 1) (Fin 0))
              [(scalar (Fin 16), [], None); (scalar NaN, [], None)])
    as (_ & Hret).
  apply (Hret (scalar_cell_valid 1 _ _ _ _ _ _)).
  repeat constructor.
Defined.
